(** * Flipswitch Go SDK: the SSE client, its event dispatch and the
      provider's listener registry, embedded in Rocq.

    The development follows the Go sources function by function:
    - [types.go]            : [ConnectionStatus], [FlagChangeEvent];
    - the SSE client source : [NewSseClient], [Connect], [connectLoop],
                              [connect], [handleEvent], [scheduleReconnect],
                              [updateStatus], [GetStatus], [Close];
    - [provider.go]         : [handleFlagChange], [AddFlagChangeListener],
                              [RemoveFlagChangeListener].

    Durations are [time.Duration] values, i.e. signed 64-bit counts of
    nanoseconds, kept as [Z] with the wrap-around of the multiplication
    written out.  The goroutine started by [Connect] is a small state
    machine whose program points are the places where the Go code can
    block ([httpClient.Do], [reader.ReadString], the [select] of
    [scheduleReconnect]) plus the head of the [for] loop.  [SseFine]
    gives the same code at the grain of its lock sections, with the
    callers of [Connect] and [Close] as threads, for what depends on
    how they interleave with the goroutines. *)

From Stdlib Require Import ZArith Lia Bool Ascii.
From stdpp Require Import gmap strings list.

Local Open Scope string_scope.
Local Open Scope list_scope.
Local Open Scope Z_scope.

(* ===================================================================== *)
(** ** types.go *)
(* ===================================================================== *)

(** [type ConnectionStatus string] with its four constants. *)
Inductive ConnectionStatus : Type :=
| StatusConnecting
| StatusConnected
| StatusDisconnected
| StatusError.

#[global] Instance ConnectionStatus_eq_dec : EqDecision ConnectionStatus.
Proof. solve_decision. Defined.

(** [type FlagChangeEvent struct { FlagKey string; Timestamp string }]. *)
Record FlagChangeEvent : Type := mkFlagChangeEvent {
  FlagKey : string;
  Timestamp : string;
}.

#[global] Instance FlagChangeEvent_eq_dec : EqDecision FlagChangeEvent.
Proof. solve_decision. Defined.

(* ===================================================================== *)
(** ** time.Duration arithmetic *)
(* ===================================================================== *)

Module Duration.

(** [time.Second], in nanoseconds. *)
Definition Second : Z := 1000000000.

(** Two's-complement wrap-around of a signed 64-bit integer. *)
Definition wrap64 (z : Z) : Z :=
  (z + 2 ^ 63) mod 2 ^ 64 - 2 ^ 63.

(** [d * k] on [int64]. *)
Definition mul (d k : Z) : Z := wrap64 (d * k).

End Duration.

(** [const ( minRetryDelay = 1 * time.Second; maxRetryDelay = 30 * time.Second )] *)
Definition minRetryDelay : Z := 1 * Duration.Second.
Definition maxRetryDelay : Z := 30 * Duration.Second.

(* ===================================================================== *)
(** ** strings.TrimSpace, strings.HasPrefix and slicing on byte strings *)
(* ===================================================================== *)

Module Strings.

Definition code (a : ascii) : N := N_of_ascii a.

(** The ASCII members of Unicode's White_Space: TAB, LF, VT, FF, CR, SP. *)
Definition isAsciiSpace (a : ascii) : bool :=
  let n := code a in
  (((9 <=? n) && (n <=? 13)) || (n =? 32))%N.

(** UTF-8 encodings of U+0085 and U+00A0. *)
Definition isSpace2 (a b : ascii) : bool :=
  ((code a =? 194) && ((code b =? 133) || (code b =? 160)))%N.

(** UTF-8 encodings of U+1680, U+2000..U+200A, U+2028, U+2029, U+202F,
    U+205F and U+3000. *)
Definition isSpace3 (a b c : ascii) : bool :=
  let x := code a in let y := code b in let z := code c in
  (((x =? 225) && (y =? 154) && (z =? 128))
   || ((x =? 226) && (y =? 128)
       && (((128 <=? z) && (z <=? 138)) || (z =? 168) || (z =? 169) || (z =? 175)))
   || ((x =? 226) && (y =? 129) && (z =? 159))
   || ((x =? 227) && (y =? 128) && (z =? 128)))%N.

(** Drop leading white-space runes. *)
Fixpoint trimLeft (l : list ascii) : list ascii :=
  match l with
  | [] => []
  | a :: r1 =>
    if isAsciiSpace a then trimLeft r1 else
    match r1 with
    | b :: r2 =>
      if isSpace2 a b then trimLeft r2 else
      match r2 with
      | c :: r3 => if isSpace3 a b c then trimLeft r3 else l
      | [] => l
      end
    | [] => l
    end
  end.

(** Drop trailing white-space runes, working on the reversed bytes. *)
Fixpoint trimLeftRev (l : list ascii) : list ascii :=
  match l with
  | [] => []
  | a :: r1 =>
    if isAsciiSpace a then trimLeftRev r1 else
    match r1 with
    | b :: r2 =>
      if isSpace2 b a then trimLeftRev r2 else
      match r2 with
      | c :: r3 => if isSpace3 c b a then trimLeftRev r3 else l
      | [] => l
      end
    | [] => l
    end
  end.

(** [strings.TrimSpace]. *)
Definition TrimSpace (s : string) : string :=
  String.string_of_list_ascii
    (rev (trimLeftRev (rev (trimLeft (String.list_ascii_of_string s))))).

(** [strings.HasPrefix(s, prefix)]: [s] is at least as long as
    [prefix] and starts with its bytes. *)
Fixpoint HasPrefix (s pre : string) {struct pre} : bool :=
  match pre with
  | EmptyString => true
  | String a pre' =>
    match s with
    | EmptyString => false
    | String b s' => Ascii.eqb a b && HasPrefix s' pre'
    end
  end.

(** [s[n:]] for [n <= len(s)]; the callers below only slice after a
    successful [HasPrefix] test, so the index is always in range. *)
Definition sliceFrom (n : nat) (s : string) : string :=
  String.substring n (String.length s - n) s.

(** The line feed, and a line as the server writes it. *)
Definition nl : string := String (ascii_of_N 10) EmptyString.
Definition line (s : string) : string := s +:+ nl.

(** [strings.TrimSuffix(s, suffix)]. *)
Definition TrimSuffix (s suf : string) : string :=
  let n := String.length s in
  let k := String.length suf in
  if (k <=? n)%nat && String.eqb (String.substring (n - k) k s) suf
  then String.substring 0 (n - k) s
  else s.

End Strings.

(* ===================================================================== *)
(** ** types.go: intToString *)
(* ===================================================================== *)

(** The digit loop of [intToString]: [for i > 0 { pos--; b[pos] = byte('0' + i%10); i /= 10 }].
    The buffer has 20 bytes, which bounds the number of rounds. *)
Fixpoint intToString_loop (fuel : nat) (i : Z) (acc : string) : string :=
  match fuel with
  | O => acc
  | S f =>
    if i >? 0
    then intToString_loop f (i / 10) (String (ascii_of_N (48 + Z.to_N (i mod 10))) acc)
    else acc
  end.

(** [func intToString(i int) string]; [int] is 64 bits wide, so the
    negation wraps for the least value. *)
Definition intToString (i : Z) : string :=
  if i =? 0 then "0"
  else
    let neg := i <? 0 in
    let i := if neg then Duration.wrap64 (- i) else i in
    let digits := intToString_loop 20 i "" in
    if neg then String "-"%char digits else digits.

(* ===================================================================== *)
(** ** Go results and the decoded SSE payloads *)
(* ===================================================================== *)

(** A Go [(T, error)] pair: either the value or the error's message. *)
Inductive result (A : Type) : Type :=
| Ok (a : A)
| Err (msg : string).
Arguments Ok {A} a.
Arguments Err {A} msg.

(** Modelled from the spec: the struct declarations [FlagUpdatedEvent],
    [ConfigUpdatedEvent] and [ApiKeyRotatedEvent] that [handleEvent]
    unmarshals into are not among the sources; the payload shapes are
    [{flagKey, timestamp}], [{timestamp}] and [{validUntil, timestamp}],
    all fields strings. *)
Record FlagUpdatedEvent : Type := mkFlagUpdatedEvent {
  fu_FlagKey : string;
  fu_Timestamp : string;
}.

Record ConfigUpdatedEvent : Type := mkConfigUpdatedEvent {
  cu_Timestamp : string;
}.

Record ApiKeyRotatedEvent : Type := mkApiKeyRotatedEvent {
  akr_ValidUntil : string;
  akr_Timestamp : string;
}.

(** The interface to [encoding/json]: [json.Unmarshal([]byte(data), &parsed)]
    at each of the three target types.  [handleEvent] is written against
    this interface; [Json.reference] below is an executable instance. *)
Class JsonUnmarshal : Type := {
  unmarshalFlagUpdated : string -> result FlagUpdatedEvent;
  unmarshalConfigUpdated : string -> result ConfigUpdatedEvent;
  unmarshalApiKeyRotated : string -> result ApiKeyRotatedEvent;
}.

(* ===================================================================== *)
(** ** A reference JSON decoder *)
(* ===================================================================== *)

Module Json.

#[local] Set Warnings "-register-all".

Inductive json : Type :=
| JNull
| JBool (b : bool)
| JNumber (lit : string)
| JString (s : string)
| JArray (vs : list json)
| JObject (kvs : list (string * json)).

Definition ch (s : string) : list ascii := String.list_ascii_of_string s.

(** The double-quote byte, and a string literal [quoted s] around [s]. *)
Definition dquote : ascii := ascii_of_N 34.
Definition quoted (s : string) : string :=
  String dquote (s +:+ String dquote EmptyString).

Definition isWs (a : ascii) : bool :=
  let n := N_of_ascii a in
  ((n =? 32) || (n =? 9) || (n =? 10) || (n =? 13))%N.

Fixpoint skip_ws (l : list ascii) : list ascii :=
  match l with
  | a :: r => if isWs a then skip_ws r else l
  | [] => []
  end.

(** [strip p l] removes the literal prefix [p] from [l]. *)
Fixpoint strip (p l : list ascii) : option (list ascii) :=
  match p, l with
  | [], _ => Some l
  | a :: p', b :: l' => if Ascii.eqb a b then strip p' l' else None
  | _ :: _, [] => None
  end.

Definition isDigit (a : ascii) : bool :=
  let n := N_of_ascii a in ((48 <=? n) && (n <=? 57))%N.

Fixpoint span_digits (l : list ascii) : list ascii * list ascii :=
  match l with
  | a :: r =>
    if isDigit a then let '(d, r') := span_digits r in (a :: d, r')
    else ([], l)
  | [] => ([], [])
  end.

(** The value of a hexadecimal digit. *)
Definition hexVal (a : ascii) : option N :=
  let n := N_of_ascii a in
  if ((48 <=? n) && (n <=? 57))%N then Some (n - 48)%N
  else if ((97 <=? n) && (n <=? 102))%N then Some (n - 87)%N
  else if ((65 <=? n) && (n <=? 70))%N then Some (n - 55)%N
  else None.

(** The four hexadecimal digits of a backslash-u escape. *)
Definition hex4 (h1 h2 h3 h4 : ascii) : option N :=
  match hexVal h1, hexVal h2, hexVal h3, hexVal h4 with
  | Some a, Some b, Some c, Some d => Some (((a * 16 + b) * 16 + c) * 16 + d)%N
  | _, _, _, _ => None
  end.

(** [utf8.EncodeRune] for a code point that is not a surrogate. *)
Definition utf8 (cp : N) : list ascii :=
  if (cp <? 128)%N then [ascii_of_N cp]
  else if (cp <? 2048)%N then
    [ascii_of_N (192 + cp / 64); ascii_of_N (128 + cp mod 64)]
  else if (cp <? 65536)%N then
    [ascii_of_N (224 + cp / 4096); ascii_of_N (128 + (cp / 64) mod 64);
     ascii_of_N (128 + cp mod 64)]
  else
    [ascii_of_N (240 + cp / 262144); ascii_of_N (128 + (cp / 4096) mod 64);
     ascii_of_N (128 + (cp / 64) mod 64); ascii_of_N (128 + cp mod 64)].

(** [unicode.ReplacementChar]. *)
Definition replacementChar : N := 65533.

Definition isSurrogate (u : N) : bool := ((55296 <=? u) && (u <? 57344))%N.

(** [utf16.DecodeRune] on a first escape [u] and what follows it: the
    code point, when [u] is a high surrogate and [l] starts with the
    escape of a low surrogate. *)
Definition surrogatePair (u : N) (l : list ascii) : option N :=
  match l with
  | b :: c :: g1 :: g2 :: g3 :: g4 :: _ =>
    if ((N_of_ascii b =? 92) && (N_of_ascii c =? 117))%N then
      match hex4 g1 g2 g3 g4 with
      | Some u2 =>
        if ((55296 <=? u) && (u <? 56320) && (56320 <=? u2) && (u2 <? 57344))%N
        then Some (65536 + (u - 55296) * 1024 + (u2 - 56320))%N
        else None
      | None => None
      end
    else None
  | _ => None
  end.

Definition isCont (a : ascii) : bool :=
  let n := N_of_ascii a in ((128 <=? n) && (n <=? 191))%N.

(** The well-formed UTF-8 sequences of two, three and four bytes, as
    [utf8.DecodeRune] accepts them: no overlong forms, no surrogates,
    nothing above U+10FFFF. *)
Definition valid2 (a b : ascii) : bool :=
  let x := N_of_ascii a in ((194 <=? x) && (x <=? 223))%N && isCont b.

Definition valid3 (a b c : ascii) : bool :=
  let x := N_of_ascii a in let y := N_of_ascii b in
  (((x =? 224) && (160 <=? y) && (y <=? 191))
   || ((225 <=? x) && (x <=? 236) && isCont b)
   || ((x =? 237) && (128 <=? y) && (y <=? 159))
   || ((238 <=? x) && (x <=? 239) && isCont b))%N
  && isCont c.

Definition valid4 (a b c d : ascii) : bool :=
  let x := N_of_ascii a in let y := N_of_ascii b in
  (((x =? 240) && (144 <=? y) && (y <=? 191))
   || ((241 <=? x) && (x <=? 243) && isCont b)
   || ((x =? 244) && (128 <=? y) && (y <=? 143)))%N
  && isCont c && isCont d.

Definition prepend (bs : list ascii) (res : option (list ascii * list ascii))
    : option (list ascii * list ascii) :=
  match res with
  | Some (s, rest) => Some ((bs ++ s)%list, rest)
  | None => None
  end.

(** The body of a string literal after the opening quote, as the
    scanner and [unquote] of [encoding/json] read it.  A raw control
    byte is an error.  The two-byte escapes (backslash followed by a
    quote, a backslash, a slash, or one of b, f, n, r, t) are decoded;
    a backslash-u escape needs four hexadecimal digits and gives the
    UTF-8 bytes of its code point, two escapes that form a surrogate
    pair give one code point, and a surrogate without its partner
    gives U+FFFD.  A byte that does not start a well-formed UTF-8
    sequence is replaced by U+FFFD. *)
Fixpoint parse_string_body (l : list ascii) : option (list ascii * list ascii) :=
  match l with
  | [] => None
  | a :: r =>
    let n := N_of_ascii a in
    if (n =? 34)%N then Some ([], r)
    else if (n <? 32)%N then None
    else if (n =? 92)%N then
      match r with
      | e :: r' =>
        let m := N_of_ascii e in
        if (m =? 117)%N then
          match r' with
          | h1 :: h2 :: h3 :: h4 :: r2 =>
            match hex4 h1 h2 h3 h4 with
            | None => None
            | Some u =>
              match surrogatePair u r2, r2 with
              | Some cp, _ :: _ :: _ :: _ :: _ :: _ :: r3 =>
                prepend (utf8 cp) (parse_string_body r3)
              | _, _ =>
                prepend (utf8 (if isSurrogate u then replacementChar else u))
                        (parse_string_body r2)
              end
            end
          | _ => None
          end
        else
        let dec : option ascii :=
          if (m =? 34)%N then Some e
          else if (m =? 92)%N then Some e
          else if (m =? 47)%N then Some e
          else if (m =? 98)%N then Some (ascii_of_N 8)
          else if (m =? 102)%N then Some (ascii_of_N 12)
          else if (m =? 110)%N then Some (ascii_of_N 10)
          else if (m =? 114)%N then Some (ascii_of_N 13)
          else if (m =? 116)%N then Some (ascii_of_N 9)
          else None in
        match dec, parse_string_body r' with
        | Some c, Some (s, rest) => Some (c :: s, rest)
        | _, _ => None
        end
      | [] => None
      end
    else if (n <? 128)%N then prepend [a] (parse_string_body r)
    else
      let invalid := prepend (utf8 replacementChar) (parse_string_body r) in
      match r with
      | b :: r1 =>
        if valid2 a b then prepend [a; b] (parse_string_body r1)
        else
          match r1 with
          | c :: r2 =>
            if valid3 a b c then prepend [a; b; c] (parse_string_body r2)
            else
              match r2 with
              | d :: r3 =>
                if valid4 a b c d then prepend [a; b; c; d] (parse_string_body r3)
                else invalid
              | [] => invalid
              end
          | [] => invalid
          end
      | [] => invalid
      end
  end.

(** A number literal: an optional minus sign, an integer part without
    a superfluous leading zero, an optional fraction and an optional
    exponent. *)
Definition parse_number (l : list ascii) : option (list ascii * list ascii) :=
  let '(sign, l1) :=
    match strip (ch "-") l with Some r => (ch "-", r) | None => ([], l) end in
  let '(int, l2) := span_digits l1 in
  match int with
  | [] => None
  | d :: ds =>
    if Ascii.eqb d "0"%char && negb (Nat.eqb (length ds) 0) then None else
    let frac :=
      match strip (ch ".") l2 with
      | Some r =>
        let '(fd, r') := span_digits r in
        match fd with [] => None | _ => Some ((ch "." ++ fd)%list, r') end
      | None => Some ([], l2)
      end in
    match frac with
    | None => None
    | Some (f, l3) =>
      let expo (mark : list ascii) (r : list ascii) :=
        let '(sg, r1) :=
          match strip (ch "+") r with
          | Some r' => (ch "+", r')
          | None => match strip (ch "-") r with
                    | Some r' => (ch "-", r')
                    | None => ([], r)
                    end
          end in
        let '(ed, r2) := span_digits r1 in
        match ed with [] => None | _ => Some ((mark ++ sg ++ ed)%list, r2) end in
      let ex :=
        match strip (ch "e") l3 with
        | Some r => expo (ch "e") r
        | None => match strip (ch "E") l3 with
                  | Some r => expo (ch "E") r
                  | None => Some ([], l3)
                  end
        end in
      match ex with
      | None => None
      | Some (e, l4) => Some ((sign ++ int ++ f ++ e)%list, l4)
      end
    end
  end.

Section Containers.
(** The parser for one value, at the enclosing nesting depth. *)
Variable pv : list ascii -> option (json * list ascii).

(** The elements of an array after the first has been announced. *)
Fixpoint parse_elems (n : nat) (l : list ascii) (acc : list json)
  : option (list json * list ascii) :=
  match n with
  | O => None
  | S n' =>
    match pv l with
    | Some (v, r) =>
      match skip_ws r with
      | c :: r' =>
        if Ascii.eqb c ","%char then parse_elems n' r' (v :: acc)
        else if Ascii.eqb c "]"%char then Some (rev (v :: acc), r')
        else None
      | [] => None
      end
    | None => None
    end
  end.

(** The members of an object. *)
Fixpoint parse_members (n : nat) (l : list ascii) (acc : list (string * json))
  : option (list (string * json) * list ascii) :=
  match n with
  | O => None
  | S n' =>
    match skip_ws l with
    | q :: r =>
      if Ascii.eqb q dquote then
        match parse_string_body r with
        | Some (k, r1) =>
          match skip_ws r1 with
          | c :: r2 =>
            if Ascii.eqb c ":"%char then
              match pv r2 with
              | Some (v, r3) =>
                let acc' := (String.string_of_list_ascii k, v) :: acc in
                match skip_ws r3 with
                | d :: r4 =>
                  if Ascii.eqb d ","%char then parse_members n' r4 acc'
                  else if Ascii.eqb d "}"%char then Some (rev acc', r4)
                  else None
                | [] => None
                end
              | None => None
              end
            else None
          | [] => None
          end
        | None => None
        end
      else None
    | [] => None
    end
  end.
End Containers.

Fixpoint parse_value (fuel : nat) (l : list ascii) : option (json * list ascii) :=
  match fuel with
  | O => None
  | S f =>
    let l := skip_ws l in
    match l with
    | [] => None
    | c :: r =>
      if Ascii.eqb c dquote then
        match parse_string_body r with
        | Some (s, r') => Some (JString (String.string_of_list_ascii s), r')
        | None => None
        end
      else if Ascii.eqb c "["%char then
        match skip_ws r with
        | c' :: r' =>
          if Ascii.eqb c' "]"%char then Some (JArray [], r')
          else
            match parse_elems (parse_value f) (S (length r)) r [] with
            | Some (vs, r'') => Some (JArray vs, r'')
            | None => None
            end
        | [] => None
        end
      else if Ascii.eqb c "{"%char then
        match skip_ws r with
        | c' :: r' =>
          if Ascii.eqb c' "}"%char then Some (JObject [], r')
          else
            match parse_members (parse_value f) (S (length r)) r [] with
            | Some (kvs, r'') => Some (JObject kvs, r'')
            | None => None
            end
        | [] => None
        end
      else
        match strip (ch "null") l, strip (ch "true") l, strip (ch "false") l with
        | Some r', _, _ => Some (JNull, r')
        | _, Some r', _ => Some (JBool true, r')
        | _, _, Some r' => Some (JBool false, r')
        | None, None, None =>
          match parse_number l with
          | Some (n, r') => Some (JNumber (String.string_of_list_ascii n), r')
          | None => None
          end
        end
    end
  end.

(** A whole document: one value, then only white space. *)
Definition parse (data : string) : option json :=
  let l := ch data in
  match parse_value (S (length l)) l with
  | Some (v, r) => match skip_ws r with [] => Some v | _ :: _ => None end
  | None => None
  end.

(** *** Storing an object into a struct whose fields are all strings *)

Definition lower (a : ascii) : ascii :=
  let n := N_of_ascii a in
  if ((65 <=? n) && (n <=? 90))%N then ascii_of_N (n + 32) else a.

Definition foldEq (a b : string) : bool :=
  bool_decide (map lower (ch a) = map lower (ch b)).

(** The field a key selects: an exact match first, a case-insensitive
    one otherwise, as [encoding/json] does; the comparison here folds
    the letters of ASCII only. *)
Definition findField (fields : list string) (k : string) : option string :=
  match List.find (String.eqb k) fields with
  | Some f => Some f
  | None => List.find (foldEq k) fields
  end.

(** Walk the members in order; a string is stored, [null] leaves the
    field alone, any other value is a type error that is remembered
    while decoding goes on; unknown keys are skipped. *)
Fixpoint storeMembers (fields : list string) (kvs : list (string * json))
    (st : gmap string string) (bad : option string)
    : gmap string string * option string :=
  match kvs with
  | [] => (st, bad)
  | (k, v) :: rest =>
    match findField fields k with
    | None => storeMembers fields rest st bad
    | Some f =>
      match v with
      | JString s => storeMembers fields rest (<[f := s]> st) bad
      | JNull => storeMembers fields rest st bad
      | _ =>
        let bad' := match bad with Some e => Some e | None => Some f end in
        storeMembers fields rest st bad'
      end
    end
  end.

Definition syntaxError : string := "invalid character in JSON input".
Definition typeError (what : string) : string :=
  "json: cannot unmarshal value into Go struct field " +:+ what.

Definition unmarshalStruct (fields : list string) (data : string)
    : result (gmap string string) :=
  match parse data with
  | None => Err syntaxError
  | Some JNull => Ok ∅
  | Some (JObject kvs) =>
    match storeMembers fields kvs ∅ None with
    | (st, None) => Ok st
    | (_, Some f) => Err (typeError f)
    end
  | Some _ => Err (typeError "")
  end.

Definition field (st : gmap string string) (f : string) : string :=
  default "" (st !! f).

#[global] Instance reference : JsonUnmarshal := {|
  unmarshalFlagUpdated data :=
    match unmarshalStruct ["flagKey"; "timestamp"] data with
    | Ok st => Ok (mkFlagUpdatedEvent (field st "flagKey") (field st "timestamp"))
    | Err e => Err e
    end;
  unmarshalConfigUpdated data :=
    match unmarshalStruct ["timestamp"] data with
    | Ok st => Ok (mkConfigUpdatedEvent (field st "timestamp"))
    | Err e => Err e
    end;
  unmarshalApiKeyRotated data :=
    match unmarshalStruct ["validUntil"; "timestamp"] data with
    | Ok st => Ok (mkApiKeyRotatedEvent (field st "validUntil") (field st "timestamp"))
    | Err e => Err e
    end;
|}.

End Json.

(* ===================================================================== *)
(** ** net/http headers *)
(* ===================================================================== *)

Module Http.

(** [http.Header] is [map[string][]string]. *)
Abbreviation Header := (gmap string (list string)).

(** The bytes allowed in a header field name (RFC 7230 tokens). *)
Definition validHeaderFieldByte (a : ascii) : bool :=
  let n := N_of_ascii a in
  (((48 <=? n) && (n <=? 57)) || ((65 <=? n) && (n <=? 90))
   || ((97 <=? n) && (n <=? 122))
   || (n =? 33) || ((35 <=? n) && (n <=? 39)) || (n =? 42) || (n =? 43)
   || (n =? 45) || (n =? 46) || (n =? 94) || (n =? 95) || (n =? 96)
   || (n =? 124) || (n =? 126))%N.

(** Upper-case the first letter and every letter after a dash,
    lower-case the others. *)
Fixpoint canonCase (upper : bool) (l : list ascii) : list ascii :=
  match l with
  | [] => []
  | a :: r =>
    let n := N_of_ascii a in
    let a' :=
      if upper && ((97 <=? n) && (n <=? 122))%N then ascii_of_N (n - 32)
      else if negb upper && ((65 <=? n) && (n <=? 90))%N then ascii_of_N (n + 32)
      else a in
    a' :: canonCase (Ascii.eqb a' "-"%char) r
  end.

(** [textproto.CanonicalMIMEHeaderKey]: a name with a byte that is not
    allowed in a field name is left as it is. *)
Definition CanonicalMIMEHeaderKey (s : string) : string :=
  let l := String.list_ascii_of_string s in
  if forallb validHeaderFieldByte l
  then String.string_of_list_ascii (canonCase true l)
  else s.

(** [h.Set(key, value)]. *)
Definition Set_ (h : Header) (key value : string) : Header :=
  <[CanonicalMIMEHeaderKey key := [value]]> h.

(** [h.Get(key)]: the first value, or the empty string. *)
Definition Get (h : Header) (key : string) : string :=
  match h !! CanonicalMIMEHeaderKey key with
  | Some (v :: _) => v
  | _ => ""
  end.

(** [http.StatusOK]. *)
Definition StatusOK : Z := 200.

End Http.

(* ===================================================================== *)
(** ** The SSE client *)
(* ===================================================================== *)

Module Sse.

(** The [log.Printf]/[log.Println] call sites of the client. *)
Inductive LogMsg : Type :=
| LogConnectionError (err : string)
| LogEstablished
| LogConnectionClosed
| LogScheduling (delay : Z)
| LogParseFailed (eventType : string) (err : string)
| LogApiKeyRotated (validUntil : string).

(** What the client does to the outside, in program order. *)
Inductive Obs : Type :=
| OStatus (s : ConnectionStatus)        (* c.onStatusChange(s) *)
| OFlagChange (e : FlagChangeEvent)     (* c.onFlagChange(e) *)
| OLog (m : LogMsg)                     (* log.Printf / log.Println *)
| ORequest (url : string) (h : Http.Header)  (* c.httpClient.Do(req) *)
| OWaited (d : Z)                       (* <-time.After(d) was received *)
| OSpawn.                               (* go c.connectLoop() *)

(** [type SseClient struct].  The two callbacks are recorded by
    whether they are non-nil; calling them is an [Obs].  [ctxDone]
    is the state of [c.ctx], which only [c.cancel] changes. *)
Record SseClient : Type := mkSseClient {
  baseURL : string;
  apiKey : string;
  telemetryHeaders : gmap string string;
  onFlagChange : bool;
  onStatusChange : bool;
  status : ConnectionStatus;
  retryDelay : Z;
  closed : bool;
  ctxDone : bool;
}.

Definition set_status (c : SseClient) (s : ConnectionStatus) : SseClient :=
  mkSseClient (baseURL c) (apiKey c) (telemetryHeaders c) (onFlagChange c)
    (onStatusChange c) s (retryDelay c) (closed c) (ctxDone c).

Definition set_retryDelay (c : SseClient) (d : Z) : SseClient :=
  mkSseClient (baseURL c) (apiKey c) (telemetryHeaders c) (onFlagChange c)
    (onStatusChange c) (status c) d (closed c) (ctxDone c).

Definition set_closed (c : SseClient) (b : bool) : SseClient :=
  mkSseClient (baseURL c) (apiKey c) (telemetryHeaders c) (onFlagChange c)
    (onStatusChange c) (status c) (retryDelay c) b (ctxDone c).

(** [c.cancel()]. *)
Definition cancel (c : SseClient) : SseClient :=
  mkSseClient (baseURL c) (apiKey c) (telemetryHeaders c) (onFlagChange c)
    (onStatusChange c) (status c) (retryDelay c) (closed c) true.

Definition NewSseClient (baseURL apiKey : string)
    (telemetryHeaders : gmap string string)
    (onFlagChange onStatusChange : bool) : SseClient :=
  {| baseURL := Strings.TrimSuffix baseURL "/";
     apiKey := apiKey;
     telemetryHeaders := telemetryHeaders;
     onFlagChange := onFlagChange;
     onStatusChange := onStatusChange;
     status := StatusDisconnected;
     retryDelay := minRetryDelay;
     closed := false;
     ctxDone := false |}.

Definition updateStatus (c : SseClient) (s : ConnectionStatus)
    : SseClient * list Obs :=
  (set_status c s, if onStatusChange c then [OStatus s] else []).

Definition GetStatus (c : SseClient) : ConnectionStatus := status c.

(** *** handleEvent *)

Section HandleEvent.
Context `{JsonUnmarshal}.

Definition handleEvent (c : SseClient) (eventType data : string) : list Obs :=
  if String.eqb eventType "heartbeat" then []
  else if String.eqb eventType "flag-updated" then
    match unmarshalFlagUpdated data with
    | Err err => [OLog (LogParseFailed "flag-updated" err)]
    | Ok parsed =>
      let event := {| FlagKey := fu_FlagKey parsed;
                      Timestamp := fu_Timestamp parsed |} in
      if onFlagChange c then [OFlagChange event] else []
    end
  else if String.eqb eventType "config-updated" then
    match unmarshalConfigUpdated data with
    | Err err => [OLog (LogParseFailed "config-updated" err)]
    | Ok parsed =>
      let event := {| FlagKey := "";
                      Timestamp := cu_Timestamp parsed |} in
      if onFlagChange c then [OFlagChange event] else []
    end
  else if String.eqb eventType "api-key-rotated" then
    match unmarshalApiKeyRotated data with
    | Err err => [OLog (LogParseFailed "api-key-rotated" err)]
    | Ok parsed => [OLog (LogApiKeyRotated (akr_ValidUntil parsed))]
    end
  else [].

End HandleEvent.

(** *** The background goroutine *)

(** Where a goroutine running [connectLoop] can be found: at the head
    of the [for] loop, blocked in [c.httpClient.Do], blocked in
    [reader.ReadString] (with the loop's two locals), blocked in the
    [select] of [scheduleReconnect] (with the delay it read), or
    returned. *)
Inductive Pc : Type :=
| PcLoopTop
| PcDo
| PcRead (eventType eventData : string)
| PcWait (delay : Z)
| PcExit.

(** What the world answers at such a point. *)
Inductive Env : Type :=
| ENewRequestErr (msg : string)
    (* http.NewRequestWithContext returns an error *)
| ERequest (order : list (string * string))
    (* the request is built; [order] is the order in which [range]
       visits c.telemetryHeaders *)
| EDoErr (msg : string)        (* Do returns an error *)
| EResponse (code : Z)         (* Do returns a response *)
| ELine (raw : string)         (* ReadString returns a line *)
| EReadErr                     (* ReadString returns an error *)
| ETimer                       (* time.After(delay) fires *)
| ECtxDone.                    (* c.ctx.Done() is received *)

(** The header block of [connect]: the client's three headers, then
    the telemetry headers in iteration order. *)
Definition requestHeaders (c : SseClient) (order : list (string * string))
    : Http.Header :=
  let h0 := Http.Set_ ∅ "X-API-Key" (apiKey c) in
  let h1 := Http.Set_ h0 "Accept" "text/event-stream" in
  let h2 := Http.Set_ h1 "Cache-Control" "no-cache" in
  fold_left (fun h kv => Http.Set_ h kv.1 kv.2) order h2.

(** [scheduleReconnect] up to its [select]. *)
Definition scheduleReconnect_enter (c : SseClient) : Pc * list Obs :=
  let closed_ := closed c in
  let delay := retryDelay c in
  if closed_ then (PcLoopTop, [])
  else (PcWait delay, [OLog (LogScheduling delay)]).

(** [scheduleReconnect] after its [select]: on the timer the delay is
    doubled up to the maximum, on cancellation the function returns. *)
Definition scheduleReconnect_wake (c : SseClient) (fired : bool) (delay : Z)
    : SseClient * list Obs :=
  if fired then
    let c' :=
      if retryDelay c <? maxRetryDelay then
        let d2 := Duration.mul (retryDelay c) 2 in
        if d2 >? maxRetryDelay then set_retryDelay c maxRetryDelay
        else set_retryDelay c d2
      else c in
    (c', [OWaited delay])
  else (c, []).

(** The [if err != nil] branch of [connectLoop]. *)
Definition connectLoop_onError (c : SseClient) (err : string)
    : SseClient * Pc * list Obs :=
  if negb (closed c) then
    let '(c1, o1) := updateStatus c StatusError in
    let '(pc, o2) := scheduleReconnect_enter c1 in
    (c1, pc, (OLog (LogConnectionError err) :: o1) ++ o2)%list
  else (c, PcLoopTop, []).

(** The [Error] method of [sseError]. *)
Definition sseError (statusCode : Z) : string :=
  "SSE connection failed with status: " +:+ intToString statusCode.

(** The head of the read loop in [connect]: a cancelled context makes
    [connect] return nil, otherwise the goroutine reads a line. *)
Definition readLoop_head (c : SseClient) (eventType eventData : string) : Pc :=
  if ctxDone c then PcLoopTop else PcRead eventType eventData.

Section Task.
Context `{JsonUnmarshal}.

(** One line of the stream. *)
Definition connect_line (c : SseClient) (eventType eventData raw : string)
    : string * string * list Obs :=
  let line := Strings.TrimSpace raw in
  if Strings.HasPrefix line "event:" then
    (Strings.TrimSpace (Strings.sliceFrom 6 line), eventData, [])
  else if Strings.HasPrefix line "data:" then
    (eventType, Strings.TrimSpace (Strings.sliceFrom 5 line), [])
  else if String.eqb line "" && negb (String.eqb eventData "") then
    ("", "", handleEvent c eventType eventData)
  else (eventType, eventData, []).

(** One step of a goroutine: the code of [connectLoop], [connect] and
    [scheduleReconnect] from one program point to the next, given the
    world's answer.  The code between two program points runs as one
    step; a caller's [Connect] or [Close] runs between steps.  [None]
    when the answer does not belong to the program point; [Do] on a
    cancelled context can only report the cancellation, and the
    [select] can only receive from [c.ctx.Done()] once it is cancelled.

    These are the executions in which no other thread runs while a
    goroutine is between two blocking calls.  [SseFine] below has the
    same code with every lock section as a step of its own; each step
    here is a sequence of steps there.  What depends on how [Close]
    and the goroutines interleave is stated there.

    - at the loop head: [connectLoop] tests [closed]; [connect] reports
      Connecting, builds the request and sets the headers, calls [Do];
    - after [Do]: an error or a status other than 200 goes to the
      [err != nil] branch of [connectLoop]; on 200 [connect] logs,
      reports Connected, resets the delay and enters the read loop;
    - after [ReadString]: on an error [connect] reports Disconnected
      and calls [scheduleReconnect] unless closed, and returns nil; a
      line is handled by [connect_line];
    - after the [select]: [scheduleReconnect] doubles the delay on the
      timer and returns; [connectLoop] goes round. *)
Definition task_step (c : SseClient) (pc : Pc) (e : Env)
    : option (SseClient * Pc * list Obs) :=
  match pc, e with
  | PcLoopTop, ENewRequestErr msg =>
    if closed c then Some (c, PcExit, [])
    else
      let '(c1, o1) := updateStatus c StatusConnecting in
      let '(c2, pc', o2) := connectLoop_onError c1 msg in
      Some (c2, pc', (o1 ++ o2)%list)
  | PcLoopTop, ERequest order =>
    if closed c then Some (c, PcExit, [])
    else if bool_decide (order ≡ₚ map_to_list (telemetryHeaders c)) then
      let '(c1, o1) := updateStatus c StatusConnecting in
      let url := baseURL c1 +:+ "/api/v1/flags/events" in
      Some (c1, PcDo, (o1 ++ [ORequest url (requestHeaders c1 order)])%list)
    else None
  | PcDo, EDoErr msg => Some (connectLoop_onError c msg)
  | PcDo, EResponse code =>
    if ctxDone c then None
    else if negb (code =? Http.StatusOK) then
      Some (connectLoop_onError c (sseError code))
    else
      let '(c1, o1) := updateStatus c StatusConnected in
      let c2 := set_retryDelay c1 minRetryDelay in
      Some (c2, readLoop_head c2 "" "", OLog LogEstablished :: o1)
  | PcRead et ed, EReadErr =>
    if negb (closed c) then
      let '(c1, o1) := updateStatus c StatusDisconnected in
      let '(pc', o2) := scheduleReconnect_enter c1 in
      Some (c1, pc', (OLog LogConnectionClosed :: o1) ++ o2)%list
    else Some (c, PcLoopTop, [])
  | PcRead et ed, ELine raw =>
    let '(et', ed', o) := connect_line c et ed raw in
    Some (c, readLoop_head c et' ed', o)
  | PcWait d, ETimer =>
    let '(c1, o) := scheduleReconnect_wake c true d in
    Some (c1, PcLoopTop, o)
  | PcWait d, ECtxDone =>
    if ctxDone c then
      let '(c1, o) := scheduleReconnect_wake c false d in
      Some (c1, PcLoopTop, o)
    else None
  | _, _ => None
  end.

(** *** The client with its goroutines *)

Record Sys : Type := mkSys {
  client : SseClient;
  tasks : list Pc;
}.

Inductive Label : Type :=
| LConnect                      (* a caller runs c.Connect() *)
| LClose                        (* a caller runs c.Close() *)
| LTask (i : nat) (e : Env).    (* goroutine i takes a step *)

(** [Connect]: nothing on a closed client, otherwise one more
    goroutine running [connectLoop]. *)
Definition Connect (s : Sys) : Sys * list Obs :=
  if closed (client s) then (s, [])
  else (mkSys (client s) (tasks s ++ [PcLoopTop]), [OSpawn]).

(** [Close]: set the flag, cancel the context, report Disconnected. *)
Definition Close (s : Sys) : Sys * list Obs :=
  let c1 := set_closed (client s) true in
  let c2 := cancel c1 in
  let '(c3, o) := updateStatus c2 StatusDisconnected in
  (mkSys c3 (tasks s), o).

Definition sys_step (s : Sys) (l : Label) : option (Sys * list Obs) :=
  match l with
  | LConnect => Some (Connect s)
  | LClose => Some (Close s)
  | LTask i e =>
    match tasks s !! i with
    | Some pc =>
      match task_step (client s) pc e with
      | Some (c', pc', o) => Some (mkSys c' (<[i := pc']> (tasks s)), o)
      | None => None
      end
    | None => None
    end
  end.

Fixpoint run (s : Sys) (ls : list Label) : option (Sys * list Obs) :=
  match ls with
  | [] => Some (s, [])
  | l :: ls' =>
    match sys_step s l with
    | Some (s1, o1) =>
      match run s1 ls' with
      | Some (s2, o2) => Some (s2, (o1 ++ o2)%list)
      | None => None
      end
    | None => None
    end
  end.

(** The goroutines that have not returned. *)
Definition alive (pc : Pc) : bool :=
  match pc with PcExit => false | _ => true end.

Definition liveTasks (s : Sys) : nat := length (filter (fun pc => alive pc = true) (tasks s)).

(** A client fresh from its constructor, no goroutine yet. *)
Definition start (c : SseClient) : Sys := mkSys c [].

(** *** Vocabulary for schedules and traces *)

(** The delay before the attempt that follows [k] failures in a row:
    the minimum doubled [k] times, capped at the maximum. *)
Definition backoff (k : nat) : Z :=
  Z.min (2 ^ Z.of_nat k * minRetryDelay) maxRetryDelay.

(** The waits that ran to their end, the requests sent and the
    statuses reported, in order. *)
Definition waits (os : list Obs) : list Z :=
  omap (fun o => match o with OWaited d => Some d | _ => None end) os.

Definition requests (os : list Obs) : list string :=
  omap (fun o => match o with ORequest url _ => Some url | _ => None end) os.

Definition statuses (os : list Obs) : list ConnectionStatus :=
  omap (fun o => match o with OStatus st => Some st | _ => None end) os.

Definition flagChanges (os : list Obs) : list FlagChangeEvent :=
  omap (fun o => match o with OFlagChange ev => Some ev | _ => None end) os.

Definition logged (os : list Obs) : list LogMsg :=
  omap (fun o => match o with OLog m => Some m | _ => None end) os.

(** The ways an attempt can fail before the stream is established. *)
Inductive Failure : Type :=
| FNewRequest (msg : string)
| FDo (order : list (string * string)) (msg : string)
| FStatus (order : list (string * string)) (code : Z).

Definition failureOk (c : SseClient) (f : Failure) : Prop :=
  match f with
  | FNewRequest _ => True
  | FDo order _ => order ≡ₚ map_to_list (telemetryHeaders c)
  | FStatus order code =>
    order ≡ₚ map_to_list (telemetryHeaders c) /\ code <> Http.StatusOK
  end.

(** Goroutine [i] makes an attempt that fails as [f] and then waits
    until the timer fires. *)
Definition failedAttempt (i : nat) (f : Failure) : list Label :=
  match f with
  | FNewRequest msg => [LTask i (ENewRequestErr msg); LTask i ETimer]
  | FDo order msg =>
    [LTask i (ERequest order); LTask i (EDoErr msg); LTask i ETimer]
  | FStatus order code =>
    [LTask i (ERequest order); LTask i (EResponse code); LTask i ETimer]
  end.

(** The established stream of goroutine [i] ends and the goroutine
    waits until the timer fires. *)
Definition streamEnds (i : nat) : list Label :=
  [LTask i EReadErr; LTask i ETimer].

(** Observations that are no request, no new goroutine and no status
    other than Disconnected. *)
Definition afterCloseOnly (o : Obs) : Prop :=
  match o with
  | OStatus StatusDisconnected => True
  | OStatus _ => False
  | ORequest _ _ => False
  | OSpawn => False
  | OFlagChange _ | OLog _ | OWaited _ => True
  end.

(** A raw line that carries the field [name] (with its colon) and,
    after trimming, the value [value]. *)
Definition fieldLine (name value raw : string) : Prop :=
  exists rest, Strings.TrimSpace raw = name +:+ rest
               /\ Strings.TrimSpace rest = value.

(** Goroutine [i] reads the three lines of one frame. *)
Definition frameLines (i : nat) (r1 r2 r3 : string) : list Label :=
  [LTask i (ELine r1); LTask i (ELine r2); LTask i (ELine r3)].

(** [json.Unmarshal] fails on [data] at the type that belongs to the
    event type [et]. *)
Definition decodeFails (et data err : string) : Prop :=
  (et = "flag-updated" /\ unmarshalFlagUpdated data = Err err)
  \/ (et = "config-updated" /\ unmarshalConfigUpdated data = Err err)
  \/ (et = "api-key-rotated" /\ unmarshalApiKeyRotated data = Err err).

(** Log lines and flag changes only. *)
Definition eventOnly (o : Obs) : Prop :=
  match o with
  | OFlagChange _ | OLog _ => True
  | _ => False
  end.

(** The state after [k] failures in a row. *)
Definition afterFailures (c : SseClient) (k : nat) : SseClient :=
  set_retryDelay (set_status c StatusError) (backoff k).

(** What [Close] leaves when it returns: the flag, the cancelled
    context and the status Disconnected. *)
Definition shut (c : SseClient) : Prop :=
  closed c = true /\ ctxDone c = true /\ status c = StatusDisconnected.

End Task.

(** The payloads of the two examples. *)
Definition flagUpdatedPayload : string :=
  "{" +:+ Json.quoted "flagKey" +:+ ":" +:+ Json.quoted "beta" +:+ ","
      +:+ Json.quoted "timestamp" +:+ ":" +:+ Json.quoted "2024-03-15T10:30:00Z" +:+ "}".

Definition configUpdatedPayload : string :=
  "{" +:+ Json.quoted "timestamp" +:+ ":" +:+ Json.quoted "2024-05-20T08:00:00Z" +:+ "}".

(** A connected client reading its stream. *)
Definition reading : Sys :=
  mkSys (set_status (NewSseClient "http://localhost" "test-key" ∅ true true)
           StatusConnected)
        [PcRead "" ""].


End Sse.

(* ===================================================================== *)
(** ** provider.go: the listener registry *)
(* ===================================================================== *)

Module Provider.

(** The lines written through package [log]. *)
Inductive LogLine : Type :=
| LSse (m : Sse.LogMsg)
| LListenerError (r : string)   (* "Error in flag change listener: %v" *)
| LStale                        (* "SSE connection error, provider is stale" *)
| LRestored.                    (* "SSE connection restored" *)

(** How a Go call ends: it returns, or it panics with a value. *)
Inductive Outcome (A : Type) : Type :=
| Returned (a : A)
| Panicked (v : string).
Arguments Returned {A} a.
Arguments Panicked {A} v.

(** An address of a Go variable. *)
Definition Addr : Type := positive.

Section WithState.
(** The state the application's listeners act on. *)
Variable U : Type.

Record World : Type := mkWorld {
  logs : list LogLine;
  ustate : U;
}.

(** A Go computation: it changes the world and returns or panics;
    what it did before a panic stays done. *)
Definition Go (A : Type) : Type := World -> Outcome A * World.

Definition ret {A : Type} (a : A) : Go A := fun w => (Returned a, w).

Definition bind {A B : Type} (m : Go A) (k : A -> Go B) : Go B :=
  fun w =>
    match m w with
    | (Returned a, w1) => k a w1
    | (Panicked v, w1) => (Panicked v, w1)
    end.

Definition logPrintf (l : LogLine) : Go unit :=
  fun w => (Returned tt, mkWorld (logs w ++ [l]) (ustate w)).

(** [func() { defer func() { if r := recover(); r != nil { h(r) } }(); body }()] *)
Definition deferRecover (body : Go unit) (h : string -> Go unit) : Go unit :=
  fun w =>
    match body w with
    | (Returned tt, w1) => (Returned tt, w1)
    | (Panicked r, w1) => h r w1
    end.

(** [for _, x := range l { body }]: a panic of the body ends the loop. *)
Fixpoint forRange {A : Type} (l : list A) (body : A -> Go unit) : Go unit :=
  match l with
  | [] => ret tt
  | x :: l' => bind (body x) (fun _ => forRange l' body)
  end.

(** [type FlagChangeHandler func(event FlagChangeEvent)]. *)
Definition FlagChangeHandler : Type := FlagChangeEvent -> Go unit.

(** [type FlipswitchProvider struct], the fields the registry uses. *)
Record FlipswitchProvider : Type := mkProvider {
  enableRealtime : bool;
  flagChangeListeners : list FlagChangeHandler;
  initialized : bool;
}.

(** The listeners are copied under the read lock, then each one is
    called inside its own recovering function literal.  (The loop runs
    over the copy; listeners here act on the application state and the
    log, not on the registry.) *)
Definition handleFlagChange (p : FlipswitchProvider) (event : FlagChangeEvent)
    : Go unit :=
  let listeners := flagChangeListeners p in
  forRange listeners (fun listener =>
    deferRecover (listener event)
      (fun r => logPrintf (LListenerError r))).

Definition handleStatusChange (p : FlipswitchProvider) (status : ConnectionStatus)
    : Go unit :=
  match status with
  | StatusError => logPrintf LStale
  | StatusConnected => logPrintf LRestored
  | _ => ret tt
  end.

Definition AddFlagChangeListener (p : FlipswitchProvider) (handler : FlagChangeHandler)
    : FlipswitchProvider :=
  mkProvider (enableRealtime p) (flagChangeListeners p ++ [handler]) (initialized p).

(** The loop of [RemoveFlagChangeListener].  [pHandler] is [&handler];
    every iteration has its own variable [h], whose address [&h] is
    the next free cell.  On a match the element at index [i] is cut
    out of the slice and the function returns. *)
Fixpoint RemoveFlagChangeListener_loop (pHandler : Addr) (i : nat)
    (rest all : list FlagChangeHandler) (next : Addr)
    : list FlagChangeHandler * Addr :=
  match rest with
  | [] => (all, next)
  | h :: rest' =>
    let pH := next in
    let next' := Pos.succ next in
    if Pos.eqb pH pHandler
    then ((take i all ++ drop (S i) all)%list, next')
    else RemoveFlagChangeListener_loop pHandler (S i) rest' all next'
  end.

(** [RemoveFlagChangeListener]: the parameter [handler] is a variable
    of the call, allocated at [next]; the test in the loop is
    [&h == &handler]. *)
Definition RemoveFlagChangeListener (p : FlipswitchProvider)
    (handler : FlagChangeHandler) (next : Addr) : FlipswitchProvider * Addr :=
  let pHandler := next in
  let '(ls, next') :=
    RemoveFlagChangeListener_loop pHandler 0
      (flagChangeListeners p) (flagChangeListeners p) (Pos.succ next) in
  (mkProvider (enableRealtime p) ls (initialized p), next').

(** [startSseConnection] passes [p.handleFlagChange] and
    [p.handleStatusChange] to the client; this runs what the client
    did against the provider. *)
Definition deliver (p : FlipswitchProvider) (o : Sse.Obs) : Go unit :=
  match o with
  | Sse.OFlagChange e => handleFlagChange p e
  | Sse.OStatus s => handleStatusChange p s
  | Sse.OLog m => logPrintf (LSse m)
  | _ => ret tt
  end.

Definition deliverAll (p : FlipswitchProvider) (os : list Sse.Obs) : Go unit :=
  forRange os (deliver p).

(** One listener run in isolation: its effect, plus a log line if it
    panicked. *)
Definition runIsolated (event : FlagChangeEvent) (w : World)
    (listener : FlagChangeHandler) : World :=
  match listener event w with
  | (Returned _, w1) => w1
  | (Panicked r, w1) => mkWorld (logs w1 ++ [LListenerError r]) (ustate w1)
  end.

End WithState.

Arguments mkWorld {U} logs ustate.
Arguments logs {U} _.
Arguments ustate {U} _.
Arguments ret {U A} a.
Arguments bind {U A B} m k.
Arguments logPrintf {U} l.
Arguments deferRecover {U} body h.
Arguments forRange {U A} l body.
Arguments mkProvider {U} enableRealtime flagChangeListeners initialized.
Arguments enableRealtime {U} _.
Arguments flagChangeListeners {U} _.
Arguments initialized {U} _.
Arguments handleFlagChange {U} p event.
Arguments handleStatusChange {U} p status.
Arguments AddFlagChangeListener {U} p handler.
Arguments RemoveFlagChangeListener_loop {U} pHandler i rest all next.
Arguments RemoveFlagChangeListener {U} p handler next.
Arguments deliver {U} p o.
Arguments deliverAll {U} p os.
Arguments runIsolated {U} event w listener.

End Provider.

(* ===================================================================== *)
(** ** The polling fallback controller *)
(* ===================================================================== *)

Module Polling.

(** Modelled from the spec: the provider's polling fallback
    ([handleStatusChange] with its failure counter, [startPollingFallback],
    [stopPolling], [IsPollingActive]) is exercised by the tests but its
    source is not among the files; the controller below follows the
    spec's algorithm: every Error increments the counter, only Connected
    resets it; when the counter has reached the threshold and the
    fallback is enabled, polling is started; starting when active and
    stopping when inactive are no-ops; Connected stops polling. *)
Record Config : Type := mkConfig {
  threshold : nat;
  enabled : bool;
}.

(** Modelled from the spec: the polling state [{active,
    consecutiveFailures}]; [started] counts the periodic tasks ever
    started, [stopped] the stop signals sent. *)
Record PollingState : Type := mkState {
  active : bool;
  consecutiveFailures : nat;
  started : nat;
  stopped : nat;
}.

Definition init : PollingState := mkState false 0 0 0.

(** Modelled from the spec: starting when already active is a no-op;
    otherwise one periodic task is started. *)
Definition startPollingFallback (st : PollingState) : PollingState :=
  if active st then st
  else mkState true (consecutiveFailures st) (S (started st)) (stopped st).

(** Modelled from the spec: stopping when not active is a no-op;
    otherwise the task is signalled to stop. *)
Definition stopPolling (st : PollingState) : PollingState :=
  if active st
  then mkState false (consecutiveFailures st) (started st) (S (stopped st))
  else st.

(** Modelled from the spec: the controller's reaction to one status.
    Error increments the counter and starts polling once the counter
    has reached the threshold with the fallback enabled; Connected
    resets the counter and stops polling; any other status changes
    nothing. *)
Definition onStatus (cfg : Config) (st : PollingState) (s : ConnectionStatus)
    : PollingState :=
  match s with
  | StatusError =>
    let n := S (consecutiveFailures st) in
    let st1 := mkState (active st) n (started st) (stopped st) in
    if (threshold cfg <=? n)%nat && enabled cfg
    then startPollingFallback st1
    else st1
  | StatusConnected =>
    let st1 := mkState (active st) 0 (started st) (stopped st) in
    stopPolling st1
  | _ => st
  end.

Definition IsActive (st : PollingState) : bool := active st.

(** The controller after a sequence of statuses, oldest first. *)
Definition observe (cfg : Config) (st : PollingState)
    (ss : list ConnectionStatus) : PollingState :=
  fold_left (onStatus cfg) ss st.

(** The statuses seen after the last Connected. *)
Fixpoint sinceConnected (ss : list ConnectionStatus) : list ConnectionStatus :=
  match ss with
  | [] => []
  | s :: ss' =>
    if bool_decide (StatusConnected ∈ ss') then sinceConnected ss'
    else if bool_decide (s = StatusConnected) then ss' else s :: ss'
  end.

Definition errors (ss : list ConnectionStatus) : nat :=
  length (filter (fun s => s = StatusError) ss).

End Polling.

(* ===================================================================== *)
(** ** Invariants of the SSE client *)
(* ===================================================================== *)

Module SseInv.
Import Sse.

(** A delay between the two constants. *)
Definition delayInRange (d : Z) : Prop := minRetryDelay <= d <= maxRetryDelay.

(** A goroutine waiting in [scheduleReconnect] waits a delay in range. *)
Definition pcInRange (pc : Pc) : Prop :=
  match pc with
  | PcWait d => delayInRange d
  | _ => True
  end.

(** The client's delay and the delays being waited are in range. *)
Definition sysInRange (s : Sys) : Prop :=
  delayInRange (retryDelay (client s)) /\ Forall pcInRange (tasks s).

(** The status that goes with a program point of the only goroutine of
    an open client: Connecting while [Do] is pending, Connected while
    the stream is read, Error or Disconnected while waiting to retry. *)
Definition pcStatus (pc : Pc) (st : ConnectionStatus) : Prop :=
  match pc with
  | PcLoopTop => True
  | PcDo => st = StatusConnecting
  | PcRead _ _ => st = StatusConnected
  | PcWait _ => st = StatusError \/ st = StatusDisconnected
  | PcExit => False
  end.

(** The label is a step of a goroutine or a [Connect], not a [Close]. *)
Definition notClose (l : Label) : Prop :=
  match l with LClose => False | _ => True end.

(** The label is a step of a goroutine or a [Close], not a [Connect]. *)
Definition notConnect (l : Label) : Prop :=
  match l with LConnect => False | _ => True end.

End SseInv.

(* ===================================================================== *)
(** ** The SSE client at the grain of its lock sections *)
(* ===================================================================== *)

(** In [Sse.task_step] the code between two blocking calls is one
    step.  The client takes and releases its mutex several times in
    such a stretch, and another goroutine or a caller of [Close] can
    run in between.  Here every section under the mutex, every read of
    the context, every call of a callback or of package [log], and
    every blocking call is a step of its own; statements that touch
    only locals go with the step that follows them.  The callers of
    [Connect] and [Close] are threads like the goroutines. *)
Module SseFine.
Import Sse.

(** Where [updateStatus] returns to. *)
Inductive Cont : Type :=
| KConnect       (* connect, after updateStatus(StatusConnecting) *)
| KEstablished   (* connect, after updateStatus(StatusConnected) *)
| KError         (* connectLoop, after updateStatus(StatusError) *)
| KStreamEnd     (* connect, after updateStatus(StatusDisconnected) *)
| KClose.        (* Close, after updateStatus(StatusDisconnected) *)

(** The next thing a thread does. *)
Inductive Point : Type :=
(* connectLoop *)
| AtLoopTop                        (* RLock; closed := c.closed; RUnlock *)
| AtErrCheck (err : string)        (* err != nil: RLock; closed := c.closed; RUnlock *)
| AtErrLog (err : string)          (* log.Printf, SSE connection error *)
(* updateStatus *)
| AtStatusWrite (st : ConnectionStatus) (k : Cont)
                                   (* Lock; c.status = status; Unlock *)
| AtStatusCall (st : ConnectionStatus) (k : Cont)
                                   (* if c.onStatusChange != nil, call it *)
(* connect *)
| AtRequest                        (* NewRequestWithContext, the headers, call Do *)
| AtDo                             (* blocked in c.httpClient.Do *)
| AtLogEstablished                 (* log.Println, SSE connection established *)
| AtResetDelay                     (* Lock; c.retryDelay = minRetryDelay; Unlock *)
| AtReadHead (eventType eventData : string)
                                   (* select on c.ctx.Done() with default *)
| AtRead (eventType eventData : string)
                                   (* blocked in reader.ReadString *)
| AtReadErrCheck                   (* read error: RLock; closed := c.closed; RUnlock *)
| AtReadErrLog                     (* log.Println, SSE connection closed *)
(* scheduleReconnect *)
| AtSchedule                       (* RLock; closed, delay := ...; RUnlock *)
| AtScheduleLog (delay : Z)        (* log.Printf, Scheduling SSE reconnect *)
| AtWait (delay : Z)               (* blocked in the select *)
| AtDouble                         (* Lock; double c.retryDelay up to the cap; Unlock *)
(* Connect *)
| AtConnectTest                    (* Lock; test c.closed; Unlock *)
| AtConnectGo                      (* go c.connectLoop() *)
(* Close *)
| AtCloseFlag                      (* Lock; c.closed = true; Unlock *)
| AtCloseCancel                    (* c.cancel() *)
(* the function has returned *)
| AtEnd.

Definition resume (k : Cont) : Point :=
  match k with
  | KConnect => AtRequest
  | KEstablished => AtResetDelay
  | KError => AtSchedule
  | KStreamEnd => AtSchedule
  | KClose => AtEnd
  end.

(** The locked section at the end of [scheduleReconnect]. *)
Definition doubleDelay (c : SseClient) : SseClient :=
  if retryDelay c <? maxRetryDelay then
    let d2 := Duration.mul (retryDelay c) 2 in
    if d2 >? maxRetryDelay then set_retryDelay c maxRetryDelay
    else set_retryDelay c d2
  else c.

Section Step.
Context `{JsonUnmarshal}.

(** One step of a thread.  A blocked thread moves when the world
    answers ([Some e]); every other step needs no answer ([None]).
    The result is [None] when the answer does not belong to the point.
    The world may answer a pending [Do] or [ReadString] with anything
    at any time, also after the context was cancelled; the [select] of
    [scheduleReconnect] can receive from the timer at any time and
    from [c.ctx.Done()] once the context is cancelled.

    After [connect] returns, [connectLoop] is at [AtErrCheck] with the
    error or, on nil, at the loop head; [scheduleReconnect] returns to
    a place from which [connectLoop] goes to the loop head in both of
    its callers. *)
Definition point_step (c : SseClient) (p : Point) (a : option Env)
    : option (SseClient * Point * list Obs) :=
  match p, a with
  | AtLoopTop, None =>
    Some (c, if closed c then AtEnd else AtStatusWrite StatusConnecting KConnect, [])
  | AtErrCheck err, None =>
    Some (c, if negb (closed c) then AtErrLog err else AtLoopTop, [])
  | AtErrLog err, None =>
    Some (c, AtStatusWrite StatusError KError, [OLog (LogConnectionError err)])
  | AtStatusWrite st k, None =>
    Some (set_status c st, AtStatusCall st k, [])
  | AtStatusCall st k, None =>
    Some (c, resume k, if onStatusChange c then [OStatus st] else [])
  | AtRequest, Some (ENewRequestErr msg) =>
    Some (c, AtErrCheck msg, [])
  | AtRequest, Some (ERequest order) =>
    if bool_decide (order ≡ₚ map_to_list (telemetryHeaders c)) then
      let url := baseURL c +:+ "/api/v1/flags/events" in
      Some (c, AtDo, [ORequest url (requestHeaders c order)])
    else None
  | AtDo, Some (EDoErr msg) =>
    Some (c, AtErrCheck msg, [])
  | AtDo, Some (EResponse code) =>
    Some (c, if negb (code =? Http.StatusOK) then AtErrCheck (sseError code)
             else AtLogEstablished, [])
  | AtLogEstablished, None =>
    Some (c, AtStatusWrite StatusConnected KEstablished, [OLog LogEstablished])
  | AtResetDelay, None =>
    Some (set_retryDelay c minRetryDelay, AtReadHead "" "", [])
  | AtReadHead et ed, None =>
    Some (c, if ctxDone c then AtLoopTop else AtRead et ed, [])
  | AtRead et ed, Some (ELine raw) =>
    let '(et', ed', o) := connect_line c et ed raw in
    Some (c, AtReadHead et' ed', o)
  | AtRead et ed, Some EReadErr =>
    Some (c, AtReadErrCheck, [])
  | AtReadErrCheck, None =>
    Some (c, if negb (closed c) then AtReadErrLog else AtLoopTop, [])
  | AtReadErrLog, None =>
    Some (c, AtStatusWrite StatusDisconnected KStreamEnd, [OLog LogConnectionClosed])
  | AtSchedule, None =>
    Some (c, if closed c then AtLoopTop else AtScheduleLog (retryDelay c), [])
  | AtScheduleLog delay, None =>
    Some (c, AtWait delay, [OLog (LogScheduling delay)])
  | AtWait delay, Some ETimer =>
    Some (c, AtDouble, [OWaited delay])
  | AtWait delay, Some ECtxDone =>
    if ctxDone c then Some (c, AtLoopTop, []) else None
  | AtDouble, None =>
    Some (doubleDelay c, AtLoopTop, [])
  | AtConnectTest, None =>
    Some (c, if closed c then AtEnd else AtConnectGo, [])
  | AtConnectGo, None =>
    Some (c, AtEnd, [OSpawn])
  | AtCloseFlag, None =>
    Some (set_closed c true, AtCloseCancel, [])
  | AtCloseCancel, None =>
    Some (cancel c, AtStatusWrite StatusDisconnected KClose, [])
  | _, _ => None
  end.

(** The client and its threads: goroutines running [connectLoop] and
    callers inside [Connect] or [Close]. *)
Record Threads : Type := mkThreads {
  shared : SseClient;
  threads : list Point;
}.

Inductive Move : Type :=
| MConnect                          (* a caller enters c.Connect() *)
| MClose                            (* a caller enters c.Close() *)
| MStep (i : nat) (a : option Env). (* thread i takes a step *)

(** The thread a step starts: [go c.connectLoop()] starts a goroutine
    at the loop head. *)
Definition spawned (p : Point) : list Point :=
  match p with
  | AtConnectGo => [AtLoopTop]
  | _ => []
  end.

Definition move (s : Threads) (m : Move) : option (Threads * list Obs) :=
  match m with
  | MConnect => Some (mkThreads (shared s) (threads s ++ [AtConnectTest]), [])
  | MClose => Some (mkThreads (shared s) (threads s ++ [AtCloseFlag]), [])
  | MStep i a =>
    match threads s !! i with
    | Some p =>
      match point_step (shared s) p a with
      | Some (c', p', o) =>
        Some (mkThreads c' (<[i := p']> (threads s) ++ spawned p), o)
      | None => None
      end
    | None => None
    end
  end.

Fixpoint exec (s : Threads) (ms : list Move) : option (Threads * list Obs) :=
  match ms with
  | [] => Some (s, [])
  | m :: ms' =>
    match move s m with
    | Some (s1, o1) =>
      match exec s1 ms' with
      | Some (s2, o2) => Some (s2, (o1 ++ o2)%list)
      | None => None
      end
    | None => None
    end
  end.

(** One thread on its own, given the answers it needs in order. *)
Fixpoint alone (c : SseClient) (p : Point) (ans : list (option Env))
    : option (SseClient * Point * list Obs) :=
  match ans with
  | [] => Some (c, p, [])
  | a :: ans' =>
    match point_step c p a with
    | Some (c1, p1, o1) =>
      match alone c1 p1 ans' with
      | Some (c2, p2, o2) => Some (c2, p2, (o1 ++ o2)%list)
      | None => None
      end
    | None => None
    end
  end.

End Step.

(** The point of this semantics at which a goroutine of
    [Sse.task_step] is. *)
Definition pointOf (pc : Pc) : Point :=
  match pc with
  | PcLoopTop => AtLoopTop
  | PcDo => AtDo
  | PcRead et ed => AtRead et ed
  | PcWait d => AtWait d
  | PcExit => AtEnd
  end.

(** A goroutine between the closed test of [connectLoop] and its call
    of [Do]: it will make one more attempt whatever happens to the
    client meanwhile. *)
Definition committed (p : Point) : bool :=
  match p with
  | AtStatusWrite _ KConnect | AtStatusCall _ KConnect | AtRequest => true
  | _ => false
  end.

Definition committedThreads (s : Threads) : nat :=
  length (filter (fun p => committed p = true) (threads s)).

(** A bound on the steps a thread can still take once the client is
    closed and its context cancelled. *)
Definition stepsLeft (p : Point) : nat :=
  match p with
  | AtEnd => 0
  | AtLoopTop => 1
  | AtErrCheck _ | AtSchedule | AtReadErrCheck | AtDouble | AtReadHead _ _ => 2
  | AtWait _ | AtRead _ _ | AtResetDelay => 3
  | AtScheduleLog _ => 4
  | AtStatusCall _ k =>
    match k with
    | KClose => 1 | KError | KStreamEnd => 3 | KEstablished => 4 | KConnect => 9
    end
  | AtStatusWrite _ k =>
    match k with
    | KClose => 2 | KError | KStreamEnd => 4 | KEstablished => 5 | KConnect => 10
    end
  | AtErrLog _ | AtReadErrLog => 5
  | AtLogEstablished => 6
  | AtDo => 7
  | AtRequest => 8
  | AtConnectGo => 2
  | AtConnectTest => 3
  | AtCloseCancel => 3
  | AtCloseFlag => 4
  end.

Definition totalStepsLeft (s : Threads) : nat :=
  sum_list_with stepsLeft (threads s).

(** A step of a thread, not the arrival of a new caller. *)
Definition isStep (m : Move) : Prop :=
  match m with MStep _ _ => True | _ => False end.

(** The points of a goroutine running [connectLoop], its return
    included. *)
Definition loopPoint (p : Point) : bool :=
  match p with
  | AtConnectTest | AtConnectGo | AtCloseFlag | AtCloseCancel => false
  | AtStatusWrite _ KClose | AtStatusCall _ KClose => false
  | _ => true
  end.

(** Only steps of thread 0. *)
Definition onlyThread0 (m : Move) : Prop :=
  match m with MStep O _ => True | _ => False end.

(** The status [GetStatus] returns while a single goroutine runs the
    client: during the call of the callback the one being reported,
    otherwise the one reported last. *)
Definition expectedStatus (p : Point) (os : list Obs) : ConnectionStatus :=
  match p with
  | AtStatusCall st _ => st
  | _ => default StatusDisconnected (last (statuses os))
  end.

(** The schedule in which [Close] overtakes a goroutine that has just
    passed the closed test: [Connect] starts the goroutine, the
    goroutine tests [closed], a caller runs [Close] from beginning to
    end, and the goroutine goes on into [connect], where [Do] fails
    on the cancelled context. *)
Definition closeOvertakes : list Move :=
  [MConnect; MStep 0 None; MStep 0 None;      (* Connect: test, go *)
   MStep 1 None;                              (* goroutine: closed is false *)
   MClose; MStep 2 None; MStep 2 None;        (* Close: flag, cancel *)
   MStep 2 None; MStep 2 None;                (* Close: status write, callback *)
   MStep 1 None; MStep 1 None;                (* goroutine: Connecting, callback *)
   MStep 1 (Some (ERequest []));              (* goroutine: calls Do *)
   MStep 1 (Some (EDoErr "context canceled"));
   MStep 1 None; MStep 1 None].               (* goroutine: closed, returns *)

(** The schedule in which two writers report in the opposite order of
    their writes, for a goroutine blocked in [Do]: the goroutine
    writes Error, a caller's [Close] writes and reports Disconnected,
    then the goroutine reports Error and returns. *)
Definition reportsCross : list Move :=
  [MStep 0 (Some (EDoErr "refused"));         (* goroutine: Do fails *)
   MStep 0 None; MStep 0 None; MStep 0 None;  (* closed is false, log, write Error *)
   MClose; MStep 1 None; MStep 1 None;        (* Close: flag, cancel *)
   MStep 1 None; MStep 1 None;                (* Close: write, report Disconnected *)
   MStep 0 None;                              (* goroutine: report Error *)
   MStep 0 None; MStep 0 None].               (* closed in scheduleReconnect, at the loop head *)

End SseFine.

(* ===================================================================== *)
(** ** types.go: decimal strings and flag evaluations *)
(* ===================================================================== *)

(** [func int64ToString(i int64) string { return intToString(int(i)) }];
    [int] and [int64] are both 64 bits wide. *)
Definition int64ToString (i : Z) : string := intToString i.

(** The number a string of decimal digits denotes, read from the left
    with [acc] as the value so far; [None] when a byte is not a digit. *)
Fixpoint decimalValue (acc : Z) (s : string) : option Z :=
  match s with
  | EmptyString => Some acc
  | String a r =>
    let n := Z.of_N (N_of_ascii a) in
    if (48 <=? n) && (n <=? 57) then decimalValue (10 * acc + (n - 48)) r
    else None
  end.

Module Values.

Section WithFloat.
(** Go's [float64]; its arithmetic is not part of this development. *)
Variable float64 : Type.

(** [func floatToString(f float64) string], taken as given. *)
Variable floatToString : float64 -> string.

#[local] Set Warnings "-register-all".

(** A value of type [interface{}] by its dynamic type: nil, [bool],
    [int], [int64], [float64], [string], [[]interface{}],
    [map[string]interface{}], or any other type. *)
Inductive GoValue : Type :=
| VNil
| VBool (b : bool)
| VInt (i : Z)
| VInt64 (i : Z)
| VFloat64 (f : float64)
| VString (s : string)
| VSlice (vs : list GoValue)
| VMap (m : gmap string GoValue)
| VOther.

(** [type FlagEvaluation struct]. *)
Record FlagEvaluation : Type := mkFlagEvaluation {
  Key : string;
  Value : GoValue;
  ValueType : string;
  Reason : string;
  Variant : string;
}.

Definition AsBoolean (e : FlagEvaluation) : bool :=
  match Value e with
  | VBool b => b
  | _ => false
  end.

Definition AsString (e : FlagEvaluation) : string :=
  match Value e with
  | VString s => s
  | _ => ""
  end.

Definition stringValue (v : GoValue) : string :=
  match v with
  | VString val => val
  | VBool val => if val then "true" else "false"
  | VInt val => intToString val
  | VInt64 val => int64ToString val
  | VFloat64 val => floatToString val
  | _ => ""
  end.

Definition GetValueAsString (e : FlagEvaluation) : string :=
  match Value e with
  | VNil => "null"
  | VString v => String Json.dquote (v +:+ String Json.dquote EmptyString)
  | VBool v => if v then "true" else "false"
  | v => stringValue v
  end.

(** The dynamic types [stringValue] has no case for. *)
Definition unprintable (v : GoValue) : Prop :=
  match v with
  | VSlice _ | VMap _ | VOther => True
  | _ => False
  end.

(** The dynamic types [json.Unmarshal] produces in an [interface{}]. *)
Definition jsonTyped (v : GoValue) : Prop :=
  match v with
  | VInt _ | VInt64 _ | VOther => False
  | _ => True
  end.

(** *** provider.go: reading an evaluation response *)

Definition inferType (value : GoValue) : string :=
  match value with
  | VNil => "null"
  | VBool _ => "boolean"
  | VInt _ | VInt64 _ => "integer"
  | VFloat64 _ => "number"
  | VString _ => "string"
  | VSlice _ => "array"
  | VMap _ => "object"
  | VOther => "unknown"
  end.

(** [data[key]]: the nil interface when the key is missing. *)
Definition index (data : gmap string GoValue) (key : string) : GoValue :=
  default VNil (data !! key).

Definition getFlagType (data : gmap string GoValue) : string :=
  let fallback := inferType (index data "value") in
  match index data "metadata" with
  | VMap metadata =>
    match index metadata "flagType" with
    | VString flagType =>
      if String.eqb flagType "boolean" then "boolean"
      else if String.eqb flagType "string" then "string"
      else if String.eqb flagType "integer" then "integer"
      else if String.eqb flagType "decimal" then "number"
      else fallback
    | _ => fallback
    end
  | _ => fallback
  end.

Definition getString (data : gmap string GoValue) (key defaultValue : string)
    : string :=
  match index data key with
  | VString v => v
  | _ => defaultValue
  end.

Definition isSuccess (statusCode : Z) : bool :=
  (200 <=? statusCode) && (statusCode <? 300).

(** What the HTTP exchange of an evaluation call comes to: the request
    cannot be built, [Do] fails, or a response arrives with its status
    and its body ([None] when [io.ReadAll] fails). *)
Inductive Exchange : Type :=
| XNewRequestErr (msg : string)
| XDoErr (msg : string)
| XResponse (code : Z) (body : option string).

(** The log lines of the two evaluation functions. *)
Inductive EvalLog : Type :=
| LogEvalError (msg : string)       (* "Error evaluating ...: %v" *)
| LogEvalFailed (code : Z)          (* "Failed to evaluate ...: %d" *)
| LogReadError                      (* "Error reading response: %v" *)
| LogParseError (msg : string).     (* "Error parsing response: %v" *)

(** [json.Unmarshal(respBody, &data)] with [data map[string]interface{}],
    taken as given. *)
Variable unmarshalObject : string -> result (gmap string GoValue).

(** The loop of [EvaluateAllFlags] over the elements of [flags]. *)
Fixpoint collectFlags (flags : list GoValue) (results : list FlagEvaluation)
    : list FlagEvaluation :=
  match flags with
  | [] => results
  | f :: rest =>
    match f with
    | VMap flag =>
      match index flag "key" with
      | VString key =>
        collectFlags rest
          (results ++ [mkFlagEvaluation key (index flag "value") (getFlagType flag)
                         (getString flag "reason" "") (getString flag "variant" "")])
      | _ => collectFlags rest results
      end
    | _ => collectFlags rest results
    end
  end.

Definition EvaluateAllFlags (x : Exchange) : list FlagEvaluation * list EvalLog :=
  let results := [] in
  match x with
  | XNewRequestErr msg => (results, [LogEvalError msg])
  | XDoErr msg => (results, [LogEvalError msg])
  | XResponse code body =>
    if negb (isSuccess code) then (results, [LogEvalFailed code])
    else
      match body with
      | None => (results, [LogReadError])
      | Some respBody =>
        match unmarshalObject respBody with
        | Err msg => (results, [LogParseError msg])
        | Ok data =>
          match index data "flags" with
          | VSlice flags => (collectFlags flags results, [])
          | _ => (results, [])
          end
        end
      end
  end.

Definition EvaluateFlag (flagKey : string) (x : Exchange)
    : option FlagEvaluation * list EvalLog :=
  match x with
  | XNewRequestErr msg => (None, [LogEvalError msg])
  | XDoErr msg => (None, [LogEvalError msg])
  | XResponse code body =>
    if code =? 404 then (None, [])
    else if negb (isSuccess code) then (None, [LogEvalFailed code])
    else
      match body with
      | None => (None, [LogReadError])
      | Some respBody =>
        match unmarshalObject respBody with
        | Err msg => (None, [LogParseError msg])
        | Ok data =>
          (Some (mkFlagEvaluation (getString data "key" flagKey) (index data "value")
                   (getFlagType data) (getString data "reason" "")
                   (getString data "variant" "")), [])
        end
      end
  end.

(** [transformContext]: a fresh map receives the entries of [evalCtx]
    one by one, in the order the [range] yields them. *)
Definition transformContext (order : list (string * GoValue))
    : gmap string GoValue :=
  fold_left (fun result kv => <[kv.1 := kv.2]> result) order ∅.

(** The key of an element of [flags] that yields a result. *)
Definition flagKeyOf (f : GoValue) : option string :=
  match f with
  | VMap flag => match index flag "key" with VString key => Some key | _ => None end
  | _ => None
  end.

(** The decoded body of an exchange that succeeded: a 2xx status, a
    body that could be read and that unmarshals. *)
Definition responseData (x : Exchange) : option (gmap string GoValue) :=
  match x with
  | XResponse code (Some respBody) =>
    if isSuccess code then
      match unmarshalObject respBody with
      | Ok data => Some data
      | Err _ => None
      end
    else None
  | _ => None
  end.

(** The elements of [data["flags"]] when it is a slice. *)
Definition flagsOf (data : gmap string GoValue) : list GoValue :=
  match index data "flags" with
  | VSlice flags => flags
  | _ => []
  end.

(** The names [getFlagType] can return. *)
Definition typeNames : list string :=
  ["boolean"; "string"; "integer"; "number"; "null"; "array"; "object"; "unknown"].

End WithFloat.

Arguments VNil {float64}.
Arguments VBool {float64} b.
Arguments VInt {float64} i.
Arguments VInt64 {float64} i.
Arguments VFloat64 {float64} f.
Arguments VString {float64} s.
Arguments VSlice {float64} vs.
Arguments VMap {float64} m.
Arguments VOther {float64}.
Arguments mkFlagEvaluation {float64} Key Value ValueType Reason Variant.
Arguments Key {float64} _.
Arguments Value {float64} _.
Arguments ValueType {float64} _.
Arguments Reason {float64} _.
Arguments Variant {float64} _.
Arguments AsBoolean {float64} e.
Arguments AsString {float64} e.
Arguments stringValue {float64} floatToString v.
Arguments GetValueAsString {float64} floatToString e.
Arguments unprintable {float64} v.
Arguments jsonTyped {float64} v.
Arguments inferType {float64} value.
Arguments index {float64} data key.
Arguments getFlagType {float64} data.
Arguments getString {float64} data key defaultValue.
Arguments collectFlags {float64} flags results.
Arguments EvaluateAllFlags {float64} unmarshalObject x.
Arguments EvaluateFlag {float64} unmarshalObject flagKey x.
Arguments flagKeyOf {float64} f.
Arguments transformContext {float64} order.
Arguments responseData {float64} unmarshalObject x.
Arguments flagsOf {float64} data.

(** A reference for [json.Unmarshal] into [map[string]interface{}],
    built on the reference parser; a number is kept as its literal. *)
Fixpoint fromJson (j : Json.json) : GoValue string :=
  match j with
  | Json.JNull => VNil
  | Json.JBool b => VBool b
  | Json.JNumber lit => VFloat64 lit
  | Json.JString s => VString s
  | Json.JArray vs => VSlice (map fromJson vs)
  | Json.JObject kvs =>
    VMap (list_to_map (rev (map (fun kv => let '(k, v) := kv in (k, fromJson v)) kvs)))
  end.

Definition referenceObject (body : string)
    : result (gmap string (GoValue string)) :=
  match Json.parse body with
  | Some Json.JNull => Ok ∅
  | Some (Json.JObject kvs) =>
    match fromJson (Json.JObject kvs) with
    | VMap m => Ok m
    | _ => Err Json.syntaxError
    end
  | Some _ => Err (Json.typeError "")
  | None => Err Json.syntaxError
  end.

(** The body of a bulk evaluation with a flag, a stray number and a
    flag without a key, and what it decodes to. *)
Definition bulkBody : string :=
  "{" +:+ Json.quoted "flags" +:+ ":[{" +:+ Json.quoted "key" +:+ ":"
      +:+ Json.quoted "dark-mode" +:+ "," +:+ Json.quoted "value" +:+ ":true},"
      +:+ "7,{" +:+ Json.quoted "value" +:+ ":1}]}".

Definition bulkData : gmap string (GoValue string) :=
  {["flags" := VSlice [VMap (<["value" := VBool true]> {["key" := VString "dark-mode"]});
                       VFloat64 "7";
                       VMap {["value" := VFloat64 "1"]}]]}.

(** The body of a single evaluation that carries no key. *)
Definition singleBody : string :=
  "{" +:+ Json.quoted "value" +:+ ":" +:+ Json.quoted "on" +:+ "}".

Definition singleData : gmap string (GoValue string) :=
  {["value" := VString "on"]}.

End Values.

(* ===================================================================== *)
(** ** provider.go: construction, Init, Shutdown, ReconnectSse *)
(* ===================================================================== *)

Module ProviderTrace.

(** The log line an observation of the SSE client leads to when no
    listener is involved: the client's own lines, and the two lines of
    [handleStatusChange]. *)
Definition logOf (o : Sse.Obs) : option Provider.LogLine :=
  match o with
  | Sse.OLog m => Some (Provider.LSse m)
  | Sse.OStatus StatusError => Some Provider.LStale
  | Sse.OStatus StatusConnected => Some Provider.LRestored
  | _ => None
  end.

End ProviderTrace.

Module Lifecycle.

(** [const defaultBaseURL]. *)
Definition defaultBaseURL : string := "https://api.flipswitch.io".

(** What [ofrep.NewProvider] is given: the base URL and the value of
    the X-API-Key header. *)
Record Ofrep : Type := mkOfrep {
  ofrepBaseURL : string;
  ofrepApiKey : string;
}.

(** How the request of [validateAPIKey] ends. *)
Inductive Validation : Type :=
| VNewRequestErr (msg : string)
| VDoErr (msg : string)
| VStatus (code : Z).

(** The exchanges [validateAPIKey] lets pass: a response whose status
    is below 500 and neither 401 nor 403. *)
Definition accepted (v : Validation) : Prop :=
  match v with
  | VStatus code => code < 500 /\ code <> 401 /\ code <> 403
  | _ => False
  end.

(** The errors [validateAPIKey] returns. *)
Inductive InitError : Type :=
| ErrNewRequest (msg : string)    (* the error of http.NewRequest *)
| ErrConnect (msg : string)       (* "failed to connect to Flipswitch: %w" *)
| ErrInvalidKey                   (* "invalid API key" *)
| ErrServer (code : Z).           (* "failed to connect to Flipswitch: %d" *)

(** What the provider's own functions write or cause: a log line of
    the provider, or something client [i] did. *)
Inductive Out : Type :=
| OutInitialized (realtime : bool)   (* "Provider initialized (realtime=%v)" *)
| OutShutDown                        (* "Provider shut down" *)
| OutSse (i : nat) (o : Sse.Obs).

(** The options a caller can build with [WithBaseURL], [WithRealtime]
    and [WithHTTPClient]. *)
Inductive Setting : Type :=
| SetBaseURL (url : string)
| SetRealtime (enabled : bool)
| SetHTTPClient (client : nat).

(** The last value a list of settings gives for each field. *)
Definition lastBaseURL (ss : list Setting) : option string :=
  last (omap (fun s => match s with SetBaseURL u => Some u | _ => None end) ss).

Definition lastRealtime (ss : list Setting) : option bool :=
  last (omap (fun s => match s with SetRealtime b => Some b | _ => None end) ss).

Definition lastHTTPClient (ss : list Setting) : option nat :=
  last (omap (fun s => match s with SetHTTPClient c => Some c | _ => None end) ss).

Section WithState.
Variable U : Type.

(** [type FlipswitchProvider struct].  [core] holds [enableRealtime],
    [flagChangeListeners] and [initialized]; [httpClient] is the
    identity of the [*http.Client]; [sseClient] is nil or the address
    of a client in the heap. *)
Record FlipswitchProvider : Type := mkProvider {
  baseURL : string;
  apiKey : string;
  httpClient : nat;
  ofrepProvider : option Ofrep;
  core : Provider.FlipswitchProvider U;
  sseClient : option nat;
}.

(** The provider and the SSE clients allocated so far, each with its
    goroutines; a client's address is its position. *)
Record Prog : Type := mkProg {
  prov : FlipswitchProvider;
  heap : list Sse.Sys;
}.

Definition set_core (p : FlipswitchProvider) (k : Provider.FlipswitchProvider U)
    : FlipswitchProvider :=
  mkProvider (baseURL p) (apiKey p) (httpClient p) (ofrepProvider p) k (sseClient p).

Definition set_sseClient (p : FlipswitchProvider) (c : option nat)
    : FlipswitchProvider :=
  mkProvider (baseURL p) (apiKey p) (httpClient p) (ofrepProvider p) (core p) c.

Definition set_initialized (p : FlipswitchProvider) (b : bool) : FlipswitchProvider :=
  set_core p (Provider.mkProvider (Provider.enableRealtime (core p))
                (Provider.flagChangeListeners (core p)) b).

(** [type Option]: a function that updates the provider in place. *)
Definition Option_ : Type := FlipswitchProvider -> FlipswitchProvider.

Definition WithBaseURL (url : string) : Option_ :=
  fun p => mkProvider url (apiKey p) (httpClient p) (ofrepProvider p) (core p)
             (sseClient p).

Definition WithRealtime (enabled : bool) : Option_ :=
  fun p => set_core p (Provider.mkProvider enabled
                         (Provider.flagChangeListeners (core p))
                         (Provider.initialized (core p))).

Definition WithHTTPClient (client : nat) : Option_ :=
  fun p => mkProvider (baseURL p) (apiKey p) client (ofrepProvider p) (core p)
             (sseClient p).

Definition toOption (s : Setting) : Option_ :=
  match s with
  | SetBaseURL url => WithBaseURL url
  | SetRealtime enabled => WithRealtime enabled
  | SetHTTPClient client => WithHTTPClient client
  end.

(** [NewProvider]; [client0] is the fresh [&http.Client{}]. *)
Definition NewProvider (client0 : nat) (apiKey : string) (opts : list Option_)
    : result FlipswitchProvider :=
  if String.eqb apiKey "" then Err "apiKey is required"
  else
    let p := mkProvider defaultBaseURL apiKey client0 None
               (Provider.mkProvider true [] false) None in
    let p := fold_left (fun p opt => opt p) opts p in
    match p with
    | mkProvider url key client _ k sse =>
      let b := Strings.TrimSuffix url "/" in
      Ok (mkProvider b key client (Some (mkOfrep (b +:+ "/ofrep/v1") key)) k sse)
    end.

Definition validateAPIKey (v : Validation) : option InitError :=
  match v with
  | VNewRequestErr msg => Some (ErrNewRequest msg)
  | VDoErr msg => Some (ErrConnect msg)
  | VStatus code =>
    if (code =? 401) || (code =? 403) then Some ErrInvalidKey
    else if code >=? 500 then Some (ErrServer code)
    else None
  end.

(** The constructor [startSseConnection] calls takes four arguments:
    it is the one of the earlier SSE client source, which has no
    telemetry headers and whose [handleEvent] knows other event types,
    and is otherwise the client above line by line.  It is taken here
    as the client above without telemetry headers; nothing proved
    about the provider's life cycle depends on [handleEvent]. *)
Definition NewSseClient (baseURL apiKey : string) (onFlagChange onStatusChange : bool)
    : Sse.SseClient :=
  Sse.NewSseClient baseURL apiKey ∅ onFlagChange onStatusChange.

(** [startSseConnection]: a new client with the provider's two
    handlers becomes the current one and is connected. *)
Definition startSseConnection (g : Prog) : Prog * list Out :=
  let p := prov g in
  let c := NewSseClient (baseURL p) (apiKey p) true true in
  let i := length (heap g) in
  let '(s, o) := Sse.Connect (Sse.start c) in
  (mkProg (set_sseClient p (Some i)) (heap g ++ [s]), map (OutSse i) o).

(** [Init]. *)
Definition Init (v : Validation) (g : Prog) : option InitError * Prog * list Out :=
  match validateAPIKey v with
  | Some err => (Some err, g, [])
  | None =>
    let '(g1, o1) :=
      if Provider.enableRealtime (core (prov g)) then startSseConnection g
      else (g, []) in
    let realtime := Provider.enableRealtime (core (prov g1)) in
    (None, mkProg (set_initialized (prov g1) true) (heap g1),
     o1 ++ [OutInitialized realtime])
  end.

(** [p.sseClient.Close()] on the client at address [i]. *)
Definition closeClient (i : nat) (h : list Sse.Sys) : list Sse.Sys * list Out :=
  match h !! i with
  | Some s => let '(s', o) := Sse.Close s in (<[i:=s']> h, map (OutSse i) o)
  | None => (h, [])
  end.

(** [Shutdown]. *)
Definition Shutdown (g : Prog) : Prog * list Out :=
  let '(g1, o1) :=
    match sseClient (prov g) with
    | Some i =>
      let '(h, o) := closeClient i (heap g) in
      (mkProg (set_sseClient (prov g) None) h, o)
    | None => (g, [])
    end in
  (mkProg (set_initialized (prov g1) false) (heap g1), o1 ++ [OutShutDown]).

(** [GetSseStatus]. *)
Definition GetSseStatus (g : Prog) : ConnectionStatus :=
  match sseClient (prov g) with
  | Some i =>
    match heap g !! i with
    | Some s => Sse.GetStatus (Sse.client s)
    | None => StatusDisconnected
    end
  | None => StatusDisconnected
  end.

(** [ReconnectSse]. *)
Definition ReconnectSse (g : Prog) : Prog * list Out :=
  match Provider.enableRealtime (core (prov g)), sseClient (prov g) with
  | true, Some i =>
    let '(h, o1) := closeClient i (heap g) in
    let '(g2, o2) := startSseConnection (mkProg (prov g) h) in
    (g2, o1 ++ o2)
  | _, _ => (g, [])
  end.

(** What can happen to a program: a call of one of the provider's
    functions, or a step of client [i] (one of its goroutines moves). *)
Inductive Op : Type :=
| OpInit (v : Validation)
| OpShutdown
| OpReconnectSse
| OpClient (i : nat) (j : nat) (e : Sse.Env).

Section Steps.
Context `{JsonUnmarshal}.

Definition step (g : Prog) (op : Op) : option Prog :=
  match op with
  | OpInit v => Some (Init v g).1.2
  | OpShutdown => Some (Shutdown g).1
  | OpReconnectSse => Some (ReconnectSse g).1
  | OpClient i j e =>
    match heap g !! i with
    | Some s =>
      match Sse.sys_step s (Sse.LTask j e) with
      | Some (s', _) => Some (mkProg (prov g) (<[i:=s']> (heap g)))
      | None => None
      end
    | None => None
    end
  end.

Fixpoint steps (g : Prog) (ops : list Op) : option Prog :=
  match ops with
  | [] => Some g
  | op :: ops' =>
    match step g op with
    | Some g1 => steps g1 ops'
    | None => None
    end
  end.

(** Along [ops], [Init] is only called while no client is current. *)
Fixpoint initWhenIdle (g : Prog) (ops : list Op) : Prop :=
  match ops with
  | [] => True
  | op :: ops' =>
    match op with
    | OpInit _ => sseClient (prov g) = None
    | _ => True
    end
    /\ match step g op with
       | Some g1 => initWhenIdle g1 ops'
       | None => True
       end
  end.

End Steps.

(** A program fresh from [NewProvider]: no client allocated. *)
Definition boot (p : FlipswitchProvider) : Prog := mkProg p [].

(** The current client, if any. *)
Definition current (g : Prog) : option Sse.Sys :=
  match sseClient (prov g) with
  | Some i => heap g !! i
  | None => None
  end.

(** [Close] has set the flag of the client and cancelled its context.
    Nothing in the client resets either of them. *)
Definition closedForGood (c : Sse.SseClient) : Prop :=
  Sse.closed c = true /\ Sse.ctxDone c = true.

(** Every client that is no longer the current one has been closed. *)
Definition othersShut (g : Prog) : Prop :=
  forall i s, heap g !! i = Some s -> sseClient (prov g) <> Some i ->
              closedForGood (Sse.client s).

(** The current client, if any, is in the heap. *)
Definition currentValid (g : Prog) : Prop :=
  match sseClient (prov g) with
  | Some i => (i < length (heap g))%nat
  | None => True
  end.

End WithState.

Arguments mkProvider {U} baseURL apiKey httpClient ofrepProvider core sseClient.
Arguments baseURL {U} _.
Arguments apiKey {U} _.
Arguments httpClient {U} _.
Arguments ofrepProvider {U} _.
Arguments core {U} _.
Arguments sseClient {U} _.
Arguments mkProg {U} prov heap.
Arguments prov {U} _.
Arguments heap {U} _.
Arguments set_core {U} p k.
Arguments set_sseClient {U} p c.
Arguments set_initialized {U} p b.
Arguments WithBaseURL {U} url _.
Arguments WithRealtime {U} enabled _.
Arguments WithHTTPClient {U} client _.
Arguments toOption {U} s _.
Arguments NewProvider {U} client0 apiKey opts.
Arguments startSseConnection {U} g.
Arguments Init {U} v g.
Arguments Shutdown {U} g.
Arguments GetSseStatus {U} g.
Arguments ReconnectSse {U} g.
Arguments step {U H} g op.
Arguments steps {U H} g ops.
Arguments initWhenIdle {U H} g ops.
Arguments boot {U} p.
Arguments current {U} g.
Arguments othersShut {U} g.
Arguments currentValid {U} g.

End Lifecycle.

(* ===================================================================== *)
(** * Properties *)
(* ===================================================================== *)

(** ** The polling fallback controller *)

Module PollingFacts.
Import Polling.

Lemma sinceConnected_snoc (ss : list ConnectionStatus) (s : ConnectionStatus) :
  sinceConnected (ss ++ [s]) =
  if bool_decide (s = StatusConnected) then [] else (sinceConnected ss ++ [s])%list.
Proof.
  induction ss as [|a ss IH]; cbn [sinceConnected app].
  - rewrite (bool_decide_eq_false_2 (StatusConnected ∈ [])) by apply not_elem_of_nil.
    repeat case_bool_decide; done.
  - rewrite IH.
    destruct (decide (s = StatusConnected)) as [->|Hs].
    + rewrite (bool_decide_eq_true_2 (StatusConnected ∈ ss ++ [StatusConnected]))
        by (apply elem_of_app; right; apply list_elem_of_singleton; done).
      by rewrite bool_decide_eq_true_2.
    + rewrite (bool_decide_eq_false_2 (s = StatusConnected)) by done.
      destruct (decide (StatusConnected ∈ ss)) as [Hin|Hin].
      * rewrite (bool_decide_eq_true_2 (StatusConnected ∈ ss ++ [s]))
          by (apply elem_of_app; by left).
        by rewrite (bool_decide_eq_true_2 (StatusConnected ∈ ss)).
      * rewrite (bool_decide_eq_false_2 (StatusConnected ∈ ss ++ [s])).
        2:{ intros [H1|H1]%elem_of_app; [done|].
            apply list_elem_of_singleton in H1. done. }
        rewrite (bool_decide_eq_false_2 (StatusConnected ∈ ss)) by done.
        destruct (bool_decide (a = StatusConnected)); reflexivity.
Qed.

Lemma errors_snoc (ss : list ConnectionStatus) (s : ConnectionStatus) :
  errors (ss ++ [s]) =
  (errors ss + if bool_decide (s = StatusError) then 1 else 0)%nat.
Proof.
  unfold errors. rewrite filter_app, length_app.
  f_equal. rewrite filter_cons, filter_nil.
  destruct (decide (s = StatusError)).
  - by rewrite bool_decide_eq_true_2.
  - by rewrite bool_decide_eq_false_2.
Qed.

Lemma observe_snoc (cfg : Config) (st : PollingState)
    (ss : list ConnectionStatus) (s : ConnectionStatus) :
  observe cfg st (ss ++ [s]) = onStatus cfg (observe cfg st ss) s.
Proof. unfold observe. by rewrite fold_left_app. Qed.

(** For any positive threshold: the counter is the number of errors
    since the last Connected, polling is active exactly when the
    counter has reached the threshold with the fallback enabled, and
    at most one task is running. *)
Lemma controller_invariant (cfg : Config) (ss : list ConnectionStatus) :
  (1 <= threshold cfg)%nat ->
  let st := observe cfg init ss in
  consecutiveFailures st = errors (sinceConnected ss)
  /\ active st = (threshold cfg <=? consecutiveFailures st)%nat && enabled cfg
  /\ started st = (stopped st + if active st then 1 else 0)%nat.
Proof.
  intros Hthr. induction ss as [|s ss IH] using rev_ind.
  - simpl. repeat split.
    destruct (threshold cfg <=? 0)%nat eqn:E; [apply Nat.leb_le in E; lia|done].
  - cbv zeta in *. rewrite observe_snoc, sinceConnected_snoc.
    destruct IH as (Hcf & Hact & Hst).
    set (st := observe cfg init ss) in *.
    destruct s; simpl.
    + rewrite errors_snoc. simpl. repeat split; [lia|done|done].
    + unfold stopPolling; simpl. unfold errors; simpl.
      destruct (active st) eqn:Ea; simpl.
      * repeat split; [|lia].
        destruct (threshold cfg <=? 0)%nat eqn:E; [apply Nat.leb_le in E; lia|done].
      * repeat split; [|lia].
        destruct (threshold cfg <=? 0)%nat eqn:E; [apply Nat.leb_le in E; lia|done].
    + rewrite errors_snoc. simpl. repeat split; [lia|done|done].
    + rewrite errors_snoc. simpl.
      destruct ((threshold cfg <=? S (consecutiveFailures st))%nat && enabled cfg) eqn:E.
      * unfold startPollingFallback; simpl.
        destruct (active st) eqn:Ea; simpl; rewrite ?E; repeat split; lia.
      * simpl. rewrite E. repeat split; [lia| |done].
        rewrite Hact.
        destruct (enabled cfg); [|by rewrite !andb_false_r].
        rewrite andb_true_r in *.
        apply Nat.leb_gt in E.
        apply Nat.leb_gt. lia.
Qed.

(** After [n] Errors in a row on the initial controller. *)
Lemma errors_in_a_row (cfg : Config) (n : nat) :
  sinceConnected (replicate n StatusError) = replicate n StatusError
  /\ errors (replicate n StatusError) = n.
Proof.
  induction n as [|n [IH1 IH2]]; [done|].
  split.
  - cbn [sinceConnected replicate].
    rewrite (bool_decide_eq_false_2 (StatusConnected ∈ replicate n StatusError)).
    + by rewrite (bool_decide_eq_false_2 (StatusError = StatusConnected)).
    + intros [? _]%elem_of_replicate; done.
  - unfold errors in *. cbn [replicate]. rewrite filter_cons.
    destruct (decide (StatusError = StatusError)); [simpl; lia|done].
Qed.

(** [sinceConnected] is the part of the history after the last
    Connected. *)
Lemma sinceConnected_suffix (ss : list ConnectionStatus) :
  (StatusConnected ∉ sinceConnected ss)
  /\ (sinceConnected ss = ss
      \/ exists pre, ss = pre ++ StatusConnected :: sinceConnected ss).
Proof.
  induction ss as [|s ss IH] using rev_ind.
  - split; [apply not_elem_of_nil|by left].
  - rewrite sinceConnected_snoc. destruct IH as [Hn Hs].
    destruct (decide (s = StatusConnected)) as [->|Hne].
    + rewrite bool_decide_eq_true_2 by done.
      split; [apply not_elem_of_nil|]. right. by exists ss.
    + rewrite bool_decide_eq_false_2 by done. split.
      * intros [H1|H1]%elem_of_app; [done|].
        apply list_elem_of_singleton in H1. done.
      * destruct Hs as [Hs|[pre Hs]].
        -- left. by rewrite Hs.
        -- right. exists pre. rewrite Hs at 1. by rewrite <- app_assoc.
Qed.

(** With threshold 3 and the fallback enabled, the controller after
    [n] Errors in a row from its initial state. *)
Lemma errors_only (n : nat) :
  observe (mkConfig 3 true) init (replicate n StatusError) =
  mkState (3 <=? n)%nat n (if (3 <=? n)%nat then 1 else 0)%nat 0.
Proof.
  induction n as [|n IH]; [done|].
  rewrite replicate_S_end, observe_snoc, IH.
  unfold onStatus, startPollingFallback; simpl.
  destruct n as [|[|[|n]]]; done.
Qed.

(** C1.  The controller with threshold 3 and the fallback enabled.
    Two Errors do not activate polling; three or more Errors in a row
    leave it active with exactly one periodic task ever started, so a
    fourth Error starts no second task.  From every reachable state a
    Connected makes [IsActive] false and resets the counter to 0.  In
    every reachable state the counter is the number of Errors seen
    since the last Connected, and [IsActive] holds exactly when that
    counter has reached the threshold with the fallback enabled; the
    tasks started never exceed the tasks stopped by more than one. *)
Theorem polling_fallback_max3 :
  let cfg := mkConfig 3 true in
  IsActive (observe cfg init (replicate 2 StatusError)) = false
  /\ (forall k : nat,
        let st := observe cfg init (replicate (3 + k) StatusError) in
        IsActive st = true /\ started st = 1%nat)
  /\ (forall ss : list ConnectionStatus,
        let st := onStatus cfg (observe cfg init ss) StatusConnected in
        IsActive st = false /\ consecutiveFailures st = 0%nat)
  /\ (forall ss : list ConnectionStatus,
        let st := observe cfg init ss in
        consecutiveFailures st = errors (sinceConnected ss)
        /\ (StatusConnected ∉ sinceConnected ss)
        /\ (IsActive st = true <->
            (threshold cfg <= consecutiveFailures st)%nat /\ enabled cfg = true)
        /\ (started st <= stopped st + 1)%nat).
Proof.
  intros cfg. split; [reflexivity|]. split; [|split].
  - intros k st. subst st cfg. rewrite errors_only. simpl. done.
  - intros ss st. subst st. unfold onStatus, stopPolling; simpl.
    destruct (active (observe cfg init ss)); done.
  - intros ss st.
    destruct (controller_invariant cfg ss) as (Hcf & Hact & Hst);
      [simpl; lia|].
    fold st in Hcf, Hact, Hst.
    split; [done|]. split; [apply sinceConnected_suffix|]. split.
    + unfold IsActive. rewrite Hact.
      change (enabled cfg) with true. rewrite andb_true_r.
      rewrite Nat.leb_le. split; [intros Hle; by split|by intros [Hle _]].
    + destruct (active st); lia.
Qed.

End PollingFacts.

(** ** The SSE client *)

Module SseFacts.
Import Sse.

Lemma wrap64_small (z : Z) :
  - 2 ^ 63 <= z < 2 ^ 63 -> Duration.wrap64 z = z.
Proof.
  intros Hz. unfold Duration.wrap64.
  rewrite Z.mod_small by lia. lia.
Qed.

Lemma backoff_bounds (k : nat) :
  minRetryDelay <= backoff k <= maxRetryDelay.
Proof.
  unfold backoff, minRetryDelay, maxRetryDelay, Duration.Second.
  assert (1 <= 2 ^ Z.of_nat k) by (apply Z.pow_le_mono_r with (b := 0); lia).
  lia.
Qed.

Lemma backoff_S (k : nat) :
  backoff (S k) = Z.min (2 * backoff k) maxRetryDelay.
Proof.
  unfold backoff. rewrite Nat2Z.inj_succ, Z.pow_succ_r by lia.
  unfold minRetryDelay, maxRetryDelay, Duration.Second.
  assert (1 <= 2 ^ Z.of_nat k) by (apply Z.pow_le_mono_r with (b := 0); lia).
  lia.
Qed.

(** The doubling in [scheduleReconnect] follows [backoff]. *)
Lemma wake_backoff (c : SseClient) (d : Z) (k : nat) :
  retryDelay c = backoff k ->
  scheduleReconnect_wake c true d = (set_retryDelay c (backoff (S k)), [OWaited d]).
Proof.
  intros Hk. unfold scheduleReconnect_wake.
  pose proof (backoff_bounds k) as Hb.
  rewrite backoff_S. rewrite Hk.
  unfold Duration.mul. rewrite wrap64_small.
  2:{ unfold minRetryDelay, maxRetryDelay, Duration.Second in Hb. lia. }
  destruct (backoff k <? maxRetryDelay) eqn:E1.
  - apply Z.ltb_lt in E1.
    destruct (backoff k * 2 >? maxRetryDelay) eqn:E2.
    + f_equal. f_equal. lia.
    + f_equal. f_equal. lia.
  - apply Z.ltb_ge in E1. f_equal.
    replace (Z.min (2 * backoff k) maxRetryDelay) with (retryDelay c).
    + by destruct c.
    + unfold minRetryDelay, maxRetryDelay, Duration.Second in *. lia.
Qed.

(** A status is not in an explicit list of other statuses. *)
Ltac notin_statuses :=
  repeat (apply not_elem_of_cons; split; [discriminate|]);
  apply not_elem_of_nil.

Section Runs.
Context `{JsonUnmarshal}.

Lemma run_app (s : Sys) (l1 l2 : list Label) :
  run s (l1 ++ l2) =
  match run s l1 with
  | Some (s1, o1) =>
    match run s1 l2 with
    | Some (s2, o2) => Some (s2, o1 ++ o2)
    | None => None
    end
  | None => None
  end.
Proof.
  revert s. induction l1 as [|l l1 IH]; intros s; simpl.
  - destruct (run s l2) as [[s2 o2]|]; reflexivity.
  - destruct (sys_step s l) as [[s1 o1]|]; [|reflexivity].
    rewrite IH. destruct (run s1 l1) as [[s2 o2]|]; [|reflexivity].
    destruct (run s2 l2) as [[s3 o3]|]; [|reflexivity].
    by rewrite app_assoc.
Qed.

Lemma waits_app (o1 o2 : list Obs) : waits (o1 ++ o2) = waits o1 ++ waits o2.
Proof. apply omap_app. Qed.

Lemma statuses_app (o1 o2 : list Obs) :
  statuses (o1 ++ o2) = statuses o1 ++ statuses o2.
Proof. apply omap_app. Qed.

(** One failed attempt: the goroutine reports Connecting and Error,
    waits the current delay and doubles it. *)
Lemma failedAttempt_run (s : Sys) (i : nat) (f : Failure) (k : nat) :
  closed (client s) = false ->
  ctxDone (client s) = false ->
  retryDelay (client s) = backoff k ->
  tasks s !! i = Some PcLoopTop ->
  failureOk (client s) f ->
  exists os,
    run s (failedAttempt i f)
    = Some (mkSys (afterFailures (client s) (S k)) (tasks s), os)
    /\ waits os = [backoff k]
    /\ StatusConnected ∉ statuses os.
Proof.
  destruct s as [c ts]. simpl. intros Hcl Hctx Hd Hpc Hok.
  destruct c as [bu ak th ofc osc stt rd cl cd]. simpl in *. subst cl cd rd.
  assert (Hins : <[i:=PcLoopTop]> ts = ts) by (by apply list_insert_id).
  assert (Hlk : forall pc1 (l : list Pc), l !! i = Some PcLoopTop -> <[i:=pc1]> l !! i = Some pc1).
  { intros pc1 l Hl. apply list_lookup_insert_eq. by eapply lookup_lt_Some. }
  destruct f as [msg|order msg|order code]; simpl in Hok.
  - (* NewRequestWithContext fails *)
    unfold failedAttempt, run, sys_step. simpl tasks. rewrite Hpc.
    cbn [task_step client closed].
    unfold updateStatus, connectLoop_onError, scheduleReconnect_enter, updateStatus.
    cbn [closed set_status negb retryDelay onStatusChange client tasks].
    rewrite ?list_insert_insert_eq, (Hlk _ _ Hpc). cbn [task_step].
    erewrite wake_backoff by reflexivity.
    rewrite ?list_insert_insert_eq, Hins.
    eexists. split; [reflexivity|].
    destruct osc; cbn; (split; [reflexivity|]); notin_statuses.
  - (* Do fails *)
    unfold failedAttempt, run, sys_step. simpl tasks. rewrite Hpc.
    cbn [task_step client closed telemetryHeaders].
    rewrite bool_decide_eq_true_2 by done.
    unfold updateStatus. cbn [set_status onStatusChange client tasks baseURL].
    rewrite ?list_insert_insert_eq, (Hlk _ _ Hpc). cbn [task_step].
    unfold connectLoop_onError, scheduleReconnect_enter, updateStatus.
    cbn [closed set_status negb retryDelay onStatusChange client tasks].
    rewrite ?list_insert_insert_eq, (Hlk _ _ Hpc). cbn [task_step].
    erewrite wake_backoff by reflexivity.
    rewrite ?list_insert_insert_eq, Hins.
    eexists. split; [reflexivity|].
    destruct osc; cbn; (split; [reflexivity|]); notin_statuses.
  - (* a response other than 200 *)
    destruct Hok as [Hperm Hcode].
    unfold failedAttempt, run, sys_step. simpl tasks. rewrite Hpc.
    cbn [task_step client closed telemetryHeaders].
    rewrite bool_decide_eq_true_2 by done.
    unfold updateStatus. cbn [set_status onStatusChange client tasks baseURL].
    rewrite (Hlk _ _ Hpc). cbn [task_step ctxDone set_status].
    replace (code =? Http.StatusOK) with false by (symmetry; by apply Z.eqb_neq).
    cbn [negb].
    unfold connectLoop_onError, scheduleReconnect_enter, updateStatus.
    cbn [closed set_status negb retryDelay onStatusChange client tasks].
    rewrite ?list_insert_insert_eq, (Hlk _ _ Hpc). cbn [task_step].
    erewrite wake_backoff by reflexivity.
    rewrite ?list_insert_insert_eq, Hins.
    eexists. split; [reflexivity|].
    destruct osc; cbn; (split; [reflexivity|]); notin_statuses.
Qed.

Lemma failureOk_headers (c c' : SseClient) (f : Failure) :
  telemetryHeaders c' = telemetryHeaders c -> failureOk c f -> failureOk c' f.
Proof. intros Hth. destruct f; simpl; by rewrite ?Hth. Qed.

(** Failed attempts in a row, starting with the delay of round [k]. *)
Lemma failures_run (fs : list Failure) :
  forall (s : Sys) (i : nat) (k : nat),
  closed (client s) = false ->
  ctxDone (client s) = false ->
  retryDelay (client s) = backoff k ->
  tasks s !! i = Some PcLoopTop ->
  Forall (failureOk (client s)) fs ->
  exists s' os,
    run s (concat (map (failedAttempt i) fs)) = Some (s', os)
    /\ tasks s' = tasks s
    /\ closed (client s') = false
    /\ retryDelay (client s') = backoff (k + length fs)
    /\ waits os = map backoff (seq k (length fs))
    /\ StatusConnected ∉ statuses os.
Proof.
  induction fs as [|f fs IH]; intros s i k Hcl Hctx Hd Hpc Hok.
  - exists s, []. simpl. rewrite Nat.add_0_r.
    repeat split; try done. apply not_elem_of_nil.
  - apply Forall_cons in Hok as [Hf Hfs].
    destruct (failedAttempt_run s i f k Hcl Hctx Hd Hpc Hf)
      as (os1 & Hrun1 & Hw1 & Hs1).
    set (s1 := mkSys (afterFailures (client s) (S k)) (tasks s)) in *.
    destruct (IH s1 i (S k)) as (s2 & os2 & Hrun2 & Ht2 & Hcl2 & Hd2 & Hw2 & Hs2).
    + subst s1. by destruct s as [[]].
    + subst s1. by destruct s as [[]].
    + subst s1. by destruct s as [[]].
    + done.
    + eapply Forall_impl; [exact Hfs|]. intros f'.
      apply failureOk_headers. subst s1. by destruct s as [[]].
    + exists s2, (os1 ++ os2).
      cbn [map concat]. rewrite run_app, Hrun1, Hrun2.
      split; [done|]. split; [done|]. split; [done|].
      split; [|split].
      * rewrite Hd2. f_equal. simpl. lia.
      * rewrite waits_app, Hw1, Hw2. reflexivity.
      * rewrite statuses_app. intros [Hin|Hin]%elem_of_app; tauto.
Qed.

(** The established stream ends: Disconnected is reported, the
    goroutine waits the current delay and doubles it. *)
Lemma streamEnds_run (s : Sys) (i : nat) (et ed : string) (k : nat) :
  closed (client s) = false ->
  retryDelay (client s) = backoff k ->
  tasks s !! i = Some (PcRead et ed) ->
  exists os,
    run s (streamEnds i)
    = Some (mkSys (set_retryDelay (set_status (client s) StatusDisconnected)
                     (backoff (S k)))
                  (<[i:=PcLoopTop]> (tasks s)), os)
    /\ waits os = [backoff k]
    /\ StatusConnected ∉ statuses os.
Proof.
  destruct s as [c ts]. simpl. intros Hcl Hd Hpc.
  destruct c as [bu ak th ofc osc stt rd cl cd]. simpl in *. subst cl rd.
  unfold streamEnds, run, sys_step. simpl tasks. rewrite Hpc.
  cbn [task_step client closed negb].
  unfold updateStatus, scheduleReconnect_enter.
  cbn [closed set_status negb retryDelay onStatusChange client tasks].
  rewrite list_lookup_insert_eq by (by eapply lookup_lt_Some).
  cbn [task_step].
  erewrite wake_backoff by reflexivity.
  rewrite list_insert_insert_eq.
  eexists. split; [reflexivity|].
  destruct osc; cbn; (split; [reflexivity|]); notin_statuses.
Qed.

(** [handleEvent] only logs and reports flag changes. *)
Lemma handleEvent_eventOnly (c : SseClient) (et data : string) :
  Forall eventOnly (handleEvent c et data).
Proof.
  unfold handleEvent.
  repeat match goal with
         | |- context [if ?b then _ else _] => destruct b
         | |- context [match ?x with Ok _ => _ | Err _ => _ end] => destruct x
         end; repeat constructor.
Qed.

Lemma connect_line_eventOnly (c : SseClient) (et ed raw et' ed' : string)
    (o : list Obs) :
  connect_line c et ed raw = (et', ed', o) -> Forall eventOnly o.
Proof.
  unfold connect_line.
  repeat match goal with
         | |- context [if ?b then _ else _] => destruct b
         end; intros [= <- <- <-]; try constructor.
  apply handleEvent_eventOnly.
Qed.

Lemma eventOnly_statuses (o : list Obs) : Forall eventOnly o -> statuses o = [].
Proof.
  induction 1 as [|x o Hx _ IH]; [done|].
  destruct x; simpl in *; done.
Qed.

Lemma connect_line_statuses (c : SseClient) (et ed raw et' ed' : string)
    (o : list Obs) :
  connect_line c et ed raw = (et', ed', o) -> statuses o = [].
Proof. intros Hl. eapply eventOnly_statuses, connect_line_eventOnly, Hl. Qed.

(** Whenever a step reports or reaches Connected, it leaves the
    delay at the minimum. *)
Lemma connected_resets (c c' : SseClient) (pc pc' : Pc) (e : Env) (os : list Obs) :
  task_step c pc e = Some (c', pc', os) ->
  StatusConnected ∈ statuses os
  \/ (status c <> StatusConnected /\ status c' = StatusConnected) ->
  retryDelay c' = minRetryDelay.
Proof.
  intros Hstep Hconn.
  destruct c as [bu ak th ofc osc stt rd cl cd].
  destruct pc, e; cbn [task_step] in Hstep; try discriminate.
  all: try solve
    [ (* a line of the stream *)
      destruct (connect_line _ _ _ _) as [[et' ed'] o] eqn:Hl;
      apply connect_line_statuses in Hl;
      injection Hstep as <- <- <-; rewrite Hl in Hconn;
      exfalso; destruct Hconn as [Hin|[Hne Heq]]; [|done];
      by apply not_elem_of_nil in Hin ].
  all: unfold connectLoop_onError, updateStatus, scheduleReconnect_enter,
         scheduleReconnect_wake, readLoop_head in Hstep; cbn in Hstep.
  all: repeat match type of Hstep with
       | context [if ?b then _ else _] => destruct b eqn:?; cbn in Hstep
       end; try discriminate.
  all: injection Hstep as <- <- <-; simpl in *.
  all: try reflexivity.
  all: exfalso; destruct Hconn as [Hin|[Hne Heq]];
       [revert Hin; cbn; notin_statuses|congruence].
Qed.

Lemma shut_Close (s : Sys) :
  shut (client (Close s).1) /\ tasks (Close s).1 = tasks s
  /\ Forall afterCloseOnly (Close s).2
  /\ retryDelay (client (Close s).1) = retryDelay (client s).
Proof.
  destruct s as [[bu ak th ofc osc stt rd cl cd] ts].
  unfold Close, updateStatus; simpl.
  repeat split. destruct osc; repeat constructor.
Qed.

End Runs.



Lemma backoff_0 : backoff 0 = minRetryDelay.
Proof. reflexivity. Qed.

Lemma backoff_capped (k : nat) : (5 <= k)%nat -> backoff k = maxRetryDelay.
Proof.
  intros Hk. unfold backoff, minRetryDelay, maxRetryDelay, Duration.Second.
  assert (2 ^ 5 <= 2 ^ Z.of_nat k) by (apply Z.pow_le_mono_r; lia).
  lia.
Qed.

(** C3.  A goroutine of a client that is not closed stands at the head
    of its loop with the delay at the minimum (as after the constructor
    or after Connected).  For every sequence [fs] of attempts that fail
    before the stream is established, with the timer firing after each:
    the completed waits are [backoff 0, backoff 1, ...], one per
    failure, the delay left for the next failure is [backoff (length fs)],
    and Connected is never reported in between.  The same holds when
    the first failure is the end of an established stream.  [backoff]
    is 1, 2, 4, 8, 16, 30, 30 seconds and stays at 30 times the minimum;
    the constructor sets the minimum; and every step that reports or
    reaches Connected leaves the delay at the minimum. *)
Theorem backoff_sequence `{JsonUnmarshal} (s : Sys) (i : nat) (fs : list Failure) :
  closed (client s) = false ->
  ctxDone (client s) = false ->
  retryDelay (client s) = minRetryDelay ->
  tasks s !! i = Some PcLoopTop ->
  Forall (failureOk (client s)) fs ->
  (exists s' os,
      run s (concat (map (failedAttempt i) fs)) = Some (s', os)
      /\ waits os = map backoff (seq 0 (length fs))
      /\ retryDelay (client s') = backoff (length fs)
      /\ StatusConnected ∉ statuses os)
  /\ (forall et ed : string,
        exists s' os,
          run (mkSys (client s) (<[i:=PcRead et ed]> (tasks s)))
              (streamEnds i ++ concat (map (failedAttempt i) fs)) = Some (s', os)
          /\ waits os = map backoff (seq 0 (S (length fs)))
          /\ retryDelay (client s') = backoff (S (length fs))
          /\ StatusConnected ∉ statuses os)
  /\ map backoff (seq 0 7)
     = map (fun n => n * Duration.Second) [1; 2; 4; 8; 16; 30; 30]
  /\ (forall k : nat, (5 <= k)%nat -> backoff k = 30 * minRetryDelay)
  /\ (forall b a t f1 f2,
        retryDelay (NewSseClient b a t f1 f2) = 1 * Duration.Second)
  /\ (forall c c' pc pc' e os,
        task_step c pc e = Some (c', pc', os) ->
        StatusConnected ∈ statuses os
        \/ (status c <> StatusConnected /\ status c' = StatusConnected) ->
        retryDelay c' = minRetryDelay).
Proof.
  intros Hcl Hctx Hd Hpc Hok.
  split; [|split; [|split; [|split; [|split]]]].
  - destruct (failures_run fs s i 0 Hcl Hctx Hd Hpc Hok)
      as (s' & os & Hrun & _ & _ & Hd' & Hw & Hs).
    exists s', os. done.
  - intros et ed.
    set (s0 := mkSys (client s) (<[i:=PcRead et ed]> (tasks s))).
    assert (Hlt : (i < length (tasks s))%nat) by (by eapply lookup_lt_Some).
    destruct (streamEnds_run s0 i et ed 0) as (os1 & Hrun1 & Hw1 & Hs1);
      [done|done|by apply list_lookup_insert_eq|].
    subst s0. cbn [client tasks] in Hrun1.
    rewrite list_insert_insert_eq in Hrun1.
    rewrite (list_insert_id _ _ _ Hpc) in Hrun1.
    set (s1 := mkSys _ (tasks s)) in Hrun1.
    destruct (failures_run fs s1 i 1) as (s' & os & Hrun & _ & _ & Hd' & Hw & Hs).
    + subst s1. by destruct s as [[]].
    + subst s1. destruct s as [[]]. simpl in *. done.
    + subst s1. by destruct s as [[]].
    + done.
    + eapply Forall_impl; [exact Hok|]. intros f'.
      apply failureOk_headers. subst s1. by destruct s as [[]].
    + exists s', (os1 ++ os).
      rewrite run_app, Hrun1, Hrun.
      split; [done|]. split; [|split].
      * rewrite waits_app, Hw1, Hw. reflexivity.
      * rewrite Hd'. reflexivity.
      * rewrite statuses_app. intros [Hin|Hin]%elem_of_app; tauto.
  - reflexivity.
  - intros k Hk. rewrite backoff_capped by done. reflexivity.
  - reflexivity.
  - intros c c' pc pc' e os. apply connected_resets.
Qed.

(** The constructor's client after [Connect], three failures of the
    three kinds: the waits are 1 s, 2 s and 4 s. *)
Lemma backoff_sequence_witness :
  let s := mkSys (NewSseClient "http://localhost" "test-key" ∅ true true) [PcLoopTop] in
  let fs := [FNewRequest "bad url"; FDo [] "connection refused"; FStatus [] 503] in
  exists s' os,
    run (H := Json.reference) s (concat (map (failedAttempt 0) fs)) = Some (s', os)
    /\ waits os = [1000000000; 2000000000; 4000000000]
    /\ retryDelay (client s') = 8000000000.
Proof.
  intros s fs.
  destruct (backoff_sequence (H := Json.reference) s 0 fs) as [Hseq _].
  - reflexivity.
  - reflexivity.
  - reflexivity.
  - reflexivity.
  - repeat constructor; simpl; rewrite ?map_to_list_empty; done.
  - destruct Hseq as (s' & os & Hrun & Hw & Hd & _).
    exists s', os. split; [exact Hrun|]. split; [exact Hw|exact Hd].
Defined.

Lemma liveTasks_spawn (s : Sys) :
  liveTasks (mkSys (client s) (tasks s ++ [PcLoopTop])) = S (liveTasks s).
Proof.
  unfold liveTasks; simpl. rewrite filter_app, length_app. simpl. lia.
Qed.

Lemma Connect_open (s : Sys) :
  closed (client s) = false ->
  Connect s = (mkSys (client s) (tasks s ++ [PcLoopTop]), [OSpawn]).
Proof. intros Hcl. unfold Connect. by rewrite Hcl. Qed.

Lemma Connect_iter (n : nat) (s : Sys) :
  closed (client s) = false ->
  closed (client (Nat.iter n (fun s => (Connect s).1) s)) = false
  /\ liveTasks (Nat.iter n (fun s => (Connect s).1) s) = (liveTasks s + n)%nat.
Proof.
  intros Hcl. induction n as [|n [IH1 IH2]]; simpl.
  - split; [done|lia].
  - rewrite (Connect_open _ IH1). simpl. split; [done|].
    rewrite liveTasks_spawn. lia.
Qed.

(** C2, as stated, fails: on the constructor's client the second
    [Connect] is not a no-op; it starts a second goroutine, and two
    goroutines are then running [connectLoop]. *)
Lemma Connect_twice_two_goroutines :
  let s1 := (Connect (start (NewSseClient "http://localhost" "test-key" ∅ true true))).1 in
  (Connect s1).1 <> s1
  /\ (Connect s1).2 = [OSpawn]
  /\ liveTasks s1 = 1%nat
  /\ liveTasks (Connect s1).1 = 2%nat.
Proof.
  intros s1. split; [|split; [|split]]; try reflexivity.
  intros Heq. apply (f_equal (fun s => length (tasks s))) in Heq.
  vm_compute in Heq. discriminate.
Qed.

(** C2, amended.  [Connect] on a closed client, in particular after
    [Close], changes nothing and starts nothing.  On a client that is
    not closed, every [Connect] starts one more goroutine running
    [connectLoop] and leaves the client's fields as they were, so [n]
    calls add [n] goroutines: the code keeps no record of a goroutine
    already started. *)
Theorem Connect_spawns (s : Sys) :
  (closed (client s) = true -> Connect s = (s, []))
  /\ Connect (Close s).1 = ((Close s).1, [])
  /\ (closed (client s) = false ->
      Connect s = (mkSys (client s) (tasks s ++ [PcLoopTop]), [OSpawn])
      /\ liveTasks (Connect s).1 = S (liveTasks s))
  /\ (forall n : nat,
        closed (client s) = false ->
        liveTasks (Nat.iter n (fun s => (Connect s).1) s) = (liveTasks s + n)%nat).
Proof.
  split; [|split; [|split]].
  - intros Hcl. unfold Connect. by rewrite Hcl.
  - unfold Connect. destruct (shut_Close s) as ((Hcl & _) & _).
    by rewrite Hcl.
  - intros Hcl. rewrite (Connect_open _ Hcl). split; [done|].
    apply liveTasks_spawn.
  - intros n Hcl. by apply Connect_iter.
Qed.

Lemma Connect_spawns_witness :
  let s := start (NewSseClient "http://localhost" "test-key" ∅ true true) in
  closed (client s) = false
  /\ liveTasks (Nat.iter 3 (fun s => (Connect s).1) s) = 3%nat
  /\ Connect (Close s).1 = ((Close s).1, []).
Proof.
  intros s. split; [reflexivity|].
  pose proof (Connect_spawns s) as (_ & Hclosed & _ & Hn).
  split; [|exact Hclosed].
  exact (Hn 3%nat eq_refl).
Defined.

(** ** Frames and [handleEvent] *)

Lemma substring_all (s : string) : String.substring 0 (String.length s) s = s.
Proof. induction s as [|a s IH]; simpl; [done|by rewrite IH]. Qed.

Lemma sliceFrom_event (rest : string) :
  Strings.sliceFrom 6 ("event:" +:+ rest) = rest.
Proof. unfold Strings.sliceFrom. simpl. rewrite Nat.sub_0_r. apply substring_all. Qed.

Lemma sliceFrom_data (rest : string) :
  Strings.sliceFrom 5 ("data:" +:+ rest) = rest.
Proof. unfold Strings.sliceFrom. simpl. rewrite Nat.sub_0_r. apply substring_all. Qed.

Section Frames.
Context `{JsonUnmarshal}.

Lemma connect_line_event (c : SseClient) (et ed raw v : string) :
  fieldLine "event:" v raw -> connect_line c et ed raw = (v, ed, []).
Proof.
  intros (rest & Ht & Hv). unfold connect_line. rewrite Ht.
  change (Strings.HasPrefix ("event:" +:+ rest) "event:") with true.
  cbn iota. by rewrite sliceFrom_event, Hv.
Qed.

Lemma connect_line_data (c : SseClient) (et ed raw v : string) :
  fieldLine "data:" v raw -> connect_line c et ed raw = (et, v, []).
Proof.
  intros (rest & Ht & Hv). unfold connect_line. rewrite Ht.
  change (Strings.HasPrefix ("data:" +:+ rest) "event:") with false.
  change (Strings.HasPrefix ("data:" +:+ rest) "data:") with true.
  cbn iota. by rewrite sliceFrom_data, Hv.
Qed.

Lemma connect_line_blank (c : SseClient) (et ed raw : string) :
  Strings.TrimSpace raw = "" -> ed <> "" ->
  connect_line c et ed raw = ("", "", handleEvent c et ed).
Proof.
  intros Ht Hed. unfold connect_line. rewrite Ht.
  change (Strings.HasPrefix "" "event:") with false.
  change (Strings.HasPrefix "" "data:") with false.
  apply String.eqb_neq in Hed. by rewrite Hed.
Qed.

(** The three lines of a frame end in one call of [handleEvent];
    the client is as before and the loop's locals are empty again. *)
Lemma frame_run (s : Sys) (i : nat) (et0 ed0 r1 r2 r3 et data : string) :
  ctxDone (client s) = false ->
  tasks s !! i = Some (PcRead et0 ed0) ->
  fieldLine "event:" et r1 ->
  fieldLine "data:" data r2 ->
  Strings.TrimSpace r3 = "" ->
  data <> "" ->
  run s (frameLines i r1 r2 r3)
  = Some (mkSys (client s) (<[i:=PcRead "" ""]> (tasks s)),
          handleEvent (client s) et data).
Proof.
  intros Hctx Hpc H1 H2 H3 Hd.
  assert (Hlt : (i < length (tasks s))%nat) by (by eapply lookup_lt_Some).
  unfold frameLines, run, sys_step. rewrite Hpc.
  cbn [task_step]. rewrite (connect_line_event _ _ _ _ _ H1).
  unfold readLoop_head. rewrite Hctx. cbn [client tasks].
  rewrite list_lookup_insert_eq by done.
  cbn [task_step]. rewrite (connect_line_data _ _ _ _ _ H2).
  unfold readLoop_head. rewrite Hctx. cbn [client tasks].
  rewrite list_lookup_insert_eq by (by rewrite length_insert).
  cbn [task_step]. rewrite (connect_line_blank _ _ _ _ H3 Hd).
  unfold readLoop_head. rewrite Hctx. cbn [client tasks].
  rewrite !list_insert_insert_eq. by rewrite app_nil_r.
Qed.

End Frames.

(** C6.  A frame of three lines (an [event:] line, a [data:] line
    with a non-empty payload, a blank line) read by a goroutine of a
    client with a flag-change callback.  If the event type is
    flag-updated and the payload unmarshals to [{flagKey: K, timestamp: T}],
    [handleEvent] calls the callback exactly once, with
    [FlagChangeEvent{K, T}]; if it is config-updated and the payload
    unmarshals to [{timestamp: T}], the callback gets the event with
    the empty flag key and timestamp [T].  Nothing else is observed
    and the goroutine goes on reading. *)
Theorem frames_delivered `{JsonUnmarshal} (s : Sys) (i : nat)
    (et0 ed0 r1 r2 r3 data K T : string) :
  onFlagChange (client s) = true ->
  ctxDone (client s) = false ->
  tasks s !! i = Some (PcRead et0 ed0) ->
  fieldLine "data:" data r2 ->
  Strings.TrimSpace r3 = "" ->
  data <> "" ->
  (fieldLine "event:" "flag-updated" r1 ->
   unmarshalFlagUpdated data = Ok (mkFlagUpdatedEvent K T) ->
   handleEvent (client s) "flag-updated" data
   = [OFlagChange (mkFlagChangeEvent K T)]
   /\ run s (frameLines i r1 r2 r3)
      = Some (mkSys (client s) (<[i:=PcRead "" ""]> (tasks s)),
              [OFlagChange (mkFlagChangeEvent K T)]))
  /\ (fieldLine "event:" "config-updated" r1 ->
      unmarshalConfigUpdated data = Ok (mkConfigUpdatedEvent T) ->
      handleEvent (client s) "config-updated" data
      = [OFlagChange (mkFlagChangeEvent "" T)]
      /\ run s (frameLines i r1 r2 r3)
         = Some (mkSys (client s) (<[i:=PcRead "" ""]> (tasks s)),
                 [OFlagChange (mkFlagChangeEvent "" T)])).
Proof.
  intros Hcb Hctx Hpc H2 H3 Hd. split.
  - intros H1 Hu.
    assert (Hh : handleEvent (client s) "flag-updated" data
                 = [OFlagChange (mkFlagChangeEvent K T)]).
    { unfold handleEvent. cbn [String.eqb Ascii.eqb Bool.eqb].
      rewrite Hu, Hcb. reflexivity. }
    split; [exact Hh|].
    rewrite (frame_run s i et0 ed0 r1 r2 r3 "flag-updated" data) by done.
    by rewrite Hh.
  - intros H1 Hu.
    assert (Hh : handleEvent (client s) "config-updated" data
                 = [OFlagChange (mkFlagChangeEvent "" T)]).
    { unfold handleEvent. cbn [String.eqb Ascii.eqb Bool.eqb].
      rewrite Hu, Hcb. reflexivity. }
    split; [exact Hh|].
    rewrite (frame_run s i et0 ed0 r1 r2 r3 "config-updated" data) by done.
    by rewrite Hh.
Qed.

Lemma fieldLine_intro (name value raw rest : string) :
  Strings.TrimSpace raw = name +:+ rest ->
  Strings.TrimSpace rest = value ->
  fieldLine name value raw.
Proof. intros H1 H2. by exists rest. Qed.

Lemma frames_delivered_witness :
  run (H := Json.reference) reading
      (frameLines 0 (Strings.line "event: flag-updated")
                    (Strings.line ("data: " +:+ flagUpdatedPayload))
                    Strings.nl)
  = Some (reading, [OFlagChange (mkFlagChangeEvent "beta" "2024-03-15T10:30:00Z")])
  /\ run (H := Json.reference) reading
      (frameLines 0 (Strings.line "event: config-updated")
                    (Strings.line ("data: " +:+ configUpdatedPayload))
                    Strings.nl)
     = Some (reading, [OFlagChange (mkFlagChangeEvent "" "2024-05-20T08:00:00Z")]).
Proof.
  split.
  - refine (proj2 (proj1 (frames_delivered (H := Json.reference) reading 0 "" ""
      (Strings.line "event: flag-updated")
      (Strings.line ("data: " +:+ flagUpdatedPayload)) Strings.nl
      flagUpdatedPayload "beta" "2024-03-15T10:30:00Z" _ _ _ _ _ _) _ _)).
    + reflexivity.
    + reflexivity.
    + reflexivity.
    + apply (fieldLine_intro _ _ _ (" " +:+ flagUpdatedPayload)); vm_compute; reflexivity.
    + vm_compute; reflexivity.
    + discriminate.
    + apply (fieldLine_intro _ _ _ " flag-updated"); vm_compute; reflexivity.
    + vm_compute; reflexivity.
  - refine (proj2 (proj2 (frames_delivered (H := Json.reference) reading 0 "" ""
      (Strings.line "event: config-updated")
      (Strings.line ("data: " +:+ configUpdatedPayload)) Strings.nl
      configUpdatedPayload "" "2024-05-20T08:00:00Z" _ _ _ _ _ _) _ _)).
    + reflexivity.
    + reflexivity.
    + reflexivity.
    + apply (fieldLine_intro _ _ _ (" " +:+ configUpdatedPayload)); vm_compute; reflexivity.
    + vm_compute; reflexivity.
    + discriminate.
    + apply (fieldLine_intro _ _ _ " config-updated"); vm_compute; reflexivity.
    + vm_compute; reflexivity.
Defined.

(** C7.  For an api-key-rotated event with any payload, [handleEvent]
    does one thing: it writes one log line (the warning, or the
    parse failure).  It never calls the flag-change callback, so when
    the client's observations are run against a provider with any set
    of listeners, no listener runs: the listeners' state is untouched
    and the log gains exactly that line. *)
Theorem apiKeyRotated_log_only `{JsonUnmarshal} (c : SseClient) (data : string) :
  exists m,
    handleEvent c "api-key-rotated" data = [OLog m]
    /\ flagChanges (handleEvent c "api-key-rotated" data) = []
    /\ forall (U : Type) (p : Provider.FlipswitchProvider U) (w : Provider.World U),
         Provider.deliverAll p (handleEvent c "api-key-rotated" data) w
         = (Provider.Returned tt,
            Provider.mkWorld (Provider.logs w ++ [Provider.LSse m])
                             (Provider.ustate w)).
Proof.
  unfold handleEvent. cbn [String.eqb Ascii.eqb Bool.eqb].
  destruct (unmarshalApiKeyRotated data) as [parsed|err];
    eexists; (split; [reflexivity|]); (split; [reflexivity|]);
    intros U p w; reflexivity.
Qed.

(** C9.  A frame whose payload does not unmarshal at the type of its
    event type (flag-updated, config-updated or api-key-rotated):
    [handleEvent] writes one log line, the parse failure, and nothing
    else; no flag change is reported; the client is exactly as before;
    the goroutine stands at [ReadString] again with empty locals, and
    whatever follows on the stream is processed as it would be on a
    goroutine that never saw the frame. *)
Theorem malformed_payload_dropped `{JsonUnmarshal} (s : Sys) (i : nat)
    (et0 ed0 r1 r2 r3 et data err : string) :
  ctxDone (client s) = false ->
  tasks s !! i = Some (PcRead et0 ed0) ->
  fieldLine "event:" et r1 ->
  fieldLine "data:" data r2 ->
  Strings.TrimSpace r3 = "" ->
  data <> "" ->
  decodeFails et data err ->
  let s' := mkSys (client s) (<[i:=PcRead "" ""]> (tasks s)) in
  handleEvent (client s) et data = [OLog (LogParseFailed et err)]
  /\ run s (frameLines i r1 r2 r3) = Some (s', [OLog (LogParseFailed et err)])
  /\ flagChanges [OLog (LogParseFailed et err)] = []
  /\ forall rest : list Label,
       run s (frameLines i r1 r2 r3 ++ rest)
       = match run s' rest with
         | Some (s2, o2) => Some (s2, OLog (LogParseFailed et err) :: o2)
         | None => None
         end.
Proof.
  intros Hctx Hpc H1 H2 H3 Hd Hfail s'.
  assert (Hh : handleEvent (client s) et data = [OLog (LogParseFailed et err)]).
  { unfold handleEvent.
    destruct Hfail as [[-> Hu]|[[-> Hu]|[-> Hu]]];
      cbn [String.eqb Ascii.eqb Bool.eqb]; by rewrite Hu. }
  assert (Hrun : run s (frameLines i r1 r2 r3)
                 = Some (s', [OLog (LogParseFailed et err)])).
  { rewrite (frame_run s i et0 ed0 r1 r2 r3 et data) by done. by rewrite Hh. }
  split; [exact Hh|]. split; [exact Hrun|]. split; [reflexivity|].
  intros rest. rewrite run_app, Hrun.
  destruct (run s' rest) as [[s2 o2]|]; reflexivity.
Qed.

Lemma malformed_payload_dropped_witness :
  run (H := Json.reference) reading
      (frameLines 0 (Strings.line "event: flag-updated")
                    (Strings.line "data: {not valid json}")
                    Strings.nl)
  = Some (reading, [OLog (LogParseFailed "flag-updated" Json.syntaxError)]).
Proof.
  refine (proj1 (proj2 (malformed_payload_dropped (H := Json.reference) reading 0 "" ""
    (Strings.line "event: flag-updated")
    (Strings.line "data: {not valid json}") Strings.nl
    "flag-updated" "{not valid json}" Json.syntaxError _ _ _ _ _ _ _))).
  - reflexivity.
  - reflexivity.
  - apply (fieldLine_intro _ _ _ " flag-updated"); vm_compute; reflexivity.
  - apply (fieldLine_intro _ _ _ " {not valid json}"); vm_compute; reflexivity.
  - vm_compute; reflexivity.
  - discriminate.
  - left. split; [reflexivity|vm_compute; reflexivity].
Defined.

(** ** The request headers *)

(** After a run of [Set] calls, a name holds the value of the entries
    that canonicalise to it, when they agree on it. *)
Lemma fold_Set_lookup (order : list (string * string)) (h : Http.Header)
    (k v : string) :
  (k, v) ∈ order ->
  Forall (fun kv => Http.CanonicalMIMEHeaderKey kv.1 = Http.CanonicalMIMEHeaderKey k
                    -> kv.2 = v) order ->
  fold_left (fun h kv => Http.Set_ h kv.1 kv.2) order h
    !! Http.CanonicalMIMEHeaderKey k = Some [v].
Proof.
  induction order as [|[k0 v0] order IH] using rev_ind; intros Hin Hall.
  - by apply elem_of_nil in Hin.
  - rewrite fold_left_app. cbn [fold_left fst snd]. unfold Http.Set_ at 1.
    apply Forall_app in Hall as [Hall H0].
    apply Forall_cons in H0 as [H0 _]. cbn [fst snd] in H0.
    destruct (decide (Http.CanonicalMIMEHeaderKey k0 = Http.CanonicalMIMEHeaderKey k))
      as [Heq|Hne].
    + rewrite Heq, lookup_insert_eq. by rewrite (H0 Heq).
    + rewrite lookup_insert_ne by done.
      apply IH; [|done].
      apply elem_of_app in Hin as [Hin|Hin]; [done|].
      apply list_elem_of_singleton in Hin. congruence.
Qed.

(** C10.  A telemetry header [k] with value [v], the only telemetry
    entry for its canonical name (or one of several that agree on the
    value): whatever order [range] visits the map in, the request that
    [connect] hands to [Do] carries [v] under that name.  In
    particular, when [k] names X-API-Key, Accept or Cache-Control, the
    request carries the caller's value and not the client's own,
    because the telemetry headers are set after the client's. *)
Theorem telemetry_header_wins (c : SseClient) (order : list (string * string))
    (k v : string) :
  order ≡ₚ map_to_list (telemetryHeaders c) ->
  telemetryHeaders c !! k = Some v ->
  Forall (fun kv => Http.CanonicalMIMEHeaderKey kv.1 = Http.CanonicalMIMEHeaderKey k
                    -> kv.2 = v) order ->
  requestHeaders c order !! Http.CanonicalMIMEHeaderKey k = Some [v]
  /\ Http.Get (requestHeaders c order) k = v
  /\ (forall name : string,
        name ∈ ["X-API-Key"; "Accept"; "Cache-Control"] ->
        Http.CanonicalMIMEHeaderKey k = Http.CanonicalMIMEHeaderKey name ->
        Http.Get (requestHeaders c order) name = v)
  /\ (forall `{JsonUnmarshal},
        closed c = false ->
        exists c1 pre h,
          task_step c PcLoopTop (ERequest order)
          = Some (c1, PcDo, pre ++ [ORequest (baseURL c +:+ "/api/v1/flags/events") h])
          /\ Http.Get h k = v).
Proof.
  intros Hperm Hk Hall.
  assert (Hin : (k, v) ∈ order).
  { rewrite Hperm. by apply elem_of_map_to_list. }
  assert (Hlk : requestHeaders c order !! Http.CanonicalMIMEHeaderKey k = Some [v]).
  { unfold requestHeaders. by apply fold_Set_lookup. }
  assert (Hget : Http.Get (requestHeaders c order) k = v).
  { unfold Http.Get. by rewrite Hlk. }
  split; [exact Hlk|]. split; [exact Hget|]. split.
  - intros name _ Hcan. unfold Http.Get. by rewrite <- Hcan, Hlk.
  - intros HJ Hcl. cbn [task_step]. rewrite Hcl.
    rewrite bool_decide_eq_true_2 by done.
    unfold updateStatus. cbn [baseURL set_status].
    eexists _, _, _. split; [reflexivity|].
    replace (requestHeaders (set_status c StatusConnecting) order)
      with (requestHeaders c order) by (by destruct c).
    exact Hget.
Qed.

(** The caller passes its own [x-api-key]: the request carries it. *)
Lemma telemetry_header_wins_witness :
  let c := NewSseClient "http://localhost" "test-key"
             {["x-api-key" := "caller-key"]} true true in
  Http.Get (requestHeaders c [("x-api-key", "caller-key")]) "X-API-Key" = "caller-key".
Proof.
  intros c.
  refine (proj1 (proj2 (proj2
    (telemetry_header_wins c [("x-api-key", "caller-key")] "x-api-key" "caller-key"
       _ _ _))) "X-API-Key" _ _).
  - subst c. cbn [telemetryHeaders NewSseClient]. by rewrite map_to_list_singleton.
  - subst c. cbn [telemetryHeaders NewSseClient]. apply lookup_singleton_eq.
  - repeat constructor.
  - apply list_elem_of_here.
  - vm_compute; reflexivity.
Defined.

End SseFacts.

(** ** The listener registry *)

Module ProviderFacts.
Import Provider.

Section WithState.
Context {U : Type}.

(** The loop of [handleFlagChange] runs every listener in isolation
    and returns. *)
Lemma forRange_isolated (event : FlagChangeEvent)
    (ls : list (FlagChangeHandler U)) :
  forall w : World U,
  forRange ls (fun listener =>
    deferRecover (listener event) (fun r => logPrintf (LListenerError r))) w
  = (Returned tt, fold_left (runIsolated event) ls w).
Proof.
  induction ls as [|l ls IH]; intros w; [reflexivity|].
  cbn [forRange fold_left]. unfold bind, deferRecover at 1, runIsolated at 2.
  destruct (l event w) as [[[]|r] w1]; cbn; apply IH.
Qed.

(** C8.  [handleFlagChange] always returns: no panic of a listener
    reaches its caller.  Its effect is that of running every
    registered listener once, in registration order, each on the
    world the previous one left, where a listener that panics
    contributes what it did before the panic plus one log line.  So
    when a listener [bad] panics, all listeners registered after it
    still run with the same event. *)
Theorem handleFlagChange_isolates (p : FlipswitchProvider U)
    (event : FlagChangeEvent) (w : World U) :
  handleFlagChange p event w
  = (Returned tt, fold_left (runIsolated event) (flagChangeListeners p) w)
  /\ forall (before after : list (FlagChangeHandler U)) (bad : FlagChangeHandler U)
            (r : string) (w2 : World U),
       flagChangeListeners p = before ++ bad :: after ->
       bad event (fold_left (runIsolated event) before w) = (Panicked r, w2) ->
       handleFlagChange p event w
       = (Returned tt,
          fold_left (runIsolated event) after
            (mkWorld (logs w2 ++ [LListenerError r]) (ustate w2))).
Proof.
  assert (Hall : handleFlagChange p event w
    = (Returned tt, fold_left (runIsolated event) (flagChangeListeners p) w))
    by apply forRange_isolated.
  split; [exact Hall|].
  intros before after bad r w2 Hls Hbad.
  rewrite Hall, Hls, fold_left_app. cbn [fold_left].
  unfold runIsolated at 2. by rewrite Hbad.
Qed.

(** The loop of [RemoveFlagChangeListener] never finds [&handler]:
    the loop variables are allocated after it. *)
Lemma RemoveFlagChangeListener_loop_all (pHandler : Addr)
    (rest all : list (FlagChangeHandler U)) :
  forall (i : nat) (next : Addr),
  (pHandler < next)%positive ->
  (RemoveFlagChangeListener_loop pHandler i rest all next).1 = all.
Proof.
  induction rest as [|h rest IH]; intros i next Hlt; [reflexivity|].
  cbn [RemoveFlagChangeListener_loop].
  destruct (Pos.eqb_spec next pHandler) as [Heq|Hne]; [lia|].
  apply IH. lia.
Qed.

(** C4.  [RemoveFlagChangeListener] leaves the provider as it was,
    for every list of registered listeners, every handler passed and
    every allocation state: the comparison [&h == &handler] is
    between two distinct variables and never succeeds.  Every
    dispatch after the call therefore runs the same listeners as
    before; in particular a handler that was added and then
    "removed" is still registered. *)
Theorem RemoveFlagChangeListener_noop (p : FlipswitchProvider U)
    (handler : FlagChangeHandler U) (next : Addr) :
  (RemoveFlagChangeListener p handler next).1 = p
  /\ flagChangeListeners (RemoveFlagChangeListener p handler next).1
     = flagChangeListeners p
  /\ (forall (event : FlagChangeEvent) (w : World U),
        handleFlagChange (RemoveFlagChangeListener p handler next).1 event w
        = handleFlagChange p event w)
  /\ flagChangeListeners
       (RemoveFlagChangeListener (AddFlagChangeListener p handler) handler next).1
     = flagChangeListeners p ++ [handler].
Proof.
  assert (Hp : forall q : FlipswitchProvider U,
            (RemoveFlagChangeListener q handler next).1 = q).
  { intros q. unfold RemoveFlagChangeListener.
    pose proof (RemoveFlagChangeListener_loop_all next
      (flagChangeListeners q) (flagChangeListeners q) 0 (Pos.succ next)) as Hl.
    destruct (RemoveFlagChangeListener_loop _ _ _ _ _) as [ls next'].
    cbn [fst] in *. rewrite Hl by lia. by destruct q. }
  split; [apply Hp|]. split; [by rewrite Hp|].
  split; [intros; by rewrite Hp|].
  by rewrite Hp.
Qed.

End WithState.

(** The isolation test: a listener that panics, then one that records
    the event; the second still records it and the panic is logged. *)
Lemma handleFlagChange_isolates_witness :
  let panics : FlagChangeHandler (list FlagChangeEvent) :=
    fun _ w => (Panicked "listener error", w) in
  let records : FlagChangeHandler (list FlagChangeEvent) :=
    fun ev w => (Returned tt, mkWorld (logs w) (ustate w ++ [ev])) in
  let p := mkProvider true [panics; records] true in
  let ev := mkFlagChangeEvent "test" "2024-01-01T00:00:00Z" in
  handleFlagChange p ev (mkWorld [] [])
  = (Returned tt, mkWorld [LListenerError "listener error"] [ev]).
Proof.
  intros panics records p ev.
  exact (proj2 (handleFlagChange_isolates p ev (mkWorld [] []))
           [] [records] panics "listener error" (mkWorld [] [])
           eq_refl eq_refl).
Defined.

End ProviderFacts.

(** ** More on the SSE client *)

Module SseMoreFacts.
Import Sse SseInv.

(** Inversion of one goroutine step: every case of [task_step] with its
    result, the conditions in the context. *)
Ltac step_inv Hstep :=
  unfold connectLoop_onError, updateStatus, scheduleReconnect_enter,
    scheduleReconnect_wake, readLoop_head in Hstep; cbn in Hstep;
  repeat match type of Hstep with
         | context [if ?b then _ else _] => destruct b eqn:?; cbn in Hstep
         end;
  try discriminate;
  injection Hstep as <- <- <-.

Section Invariants.
Context `{JsonUnmarshal}.

Lemma wrap64_in_range (d : Z) :
  delayInRange d -> Duration.wrap64 (d * 2) = d * 2.
Proof.
  unfold delayInRange, minRetryDelay, maxRetryDelay, Duration.Second.
  intros Hd. unfold Duration.wrap64. rewrite Z.mod_small by lia. lia.
Qed.

Lemma task_step_inRange (c c' : SseClient) (pc pc' : Pc) (e : Env) (os : list Obs) :
  delayInRange (retryDelay c) -> pcInRange pc ->
  task_step c pc e = Some (c', pc', os) ->
  delayInRange (retryDelay c') /\ pcInRange pc'
  /\ Forall delayInRange (waits os).
Proof.
  intros Hd Hpc Hstep.
  destruct c as [bu ak th ofc osc stt rd cl cd]. cbn [retryDelay] in Hd.
  destruct pc, e; cbn [task_step] in Hstep; try discriminate.
  all: try solve
    [ destruct (connect_line _ _ _ _) as [[et' ed'] o] eqn:Hl;
      apply SseFacts.connect_line_eventOnly in Hl;
      injection Hstep as <- <- <-;
      split; [exact Hd|]; split; [unfold readLoop_head; by destruct (ctxDone _)|];
      clear -Hl; induction Hl as [|x o Hx _ IH]; [constructor|];
      destruct x; simpl in *; done ].
  all: step_inv Hstep; cbn [retryDelay set_retryDelay pcInRange].
  all: unfold Duration.mul in *; rewrite ?(wrap64_in_range _ Hd) in *.
  all: split; [|split].
  all: try exact Hd; try exact I; try exact Hpc.
  all: try (simpl; repeat constructor; done).
  all: try (apply Forall_cons; split; [exact Hpc|constructor]).
  all: unfold delayInRange, minRetryDelay, maxRetryDelay, Duration.Second in *; lia.
Qed.

Lemma sys_step_inRange (s s' : Sys) (l : Label) (os : list Obs) :
  sysInRange s ->
  sys_step s l = Some (s', os) ->
  sysInRange s' /\ Forall delayInRange (waits os).
Proof.
  intros [Hd Hts] Hstep. destruct l as [| |i e]; cbn [sys_step] in Hstep.
  - unfold Connect in Hstep.
    destruct (closed (client s)); injection Hstep as <- <-.
    + split; [by split|constructor].
    + split; [|constructor]. split; [exact Hd|].
      apply Forall_app; split; [exact Hts|]. by repeat constructor.
  - assert (Hc : Close s = (s', os)) by congruence.
    destruct (SseFacts.shut_Close s) as (_ & Ht & Ho & Hr).
    rewrite Hc in Ht, Ho, Hr. cbn [fst snd] in *.
    split; [split|].
    + by rewrite Hr.
    + by rewrite Ht.
    + replace os with (Close s).2 by (by rewrite Hc).
      unfold Close, updateStatus; cbn.
      destruct (onStatusChange (client s)); constructor.
  - destruct (tasks s !! i) as [pc|] eqn:Hpc; [|done].
    destruct (task_step (client s) pc e) as [[[c' pc'] o]|] eqn:Ht; [|done].
    injection Hstep as <- <-.
    destruct (task_step_inRange _ _ _ _ _ _ Hd (Forall_lookup_1 _ _ _ _ Hts Hpc) Ht)
      as (Hd' & Hpc' & Hw).
    split; [split|]; cbn [client tasks]; [exact Hd'| |exact Hw].
    by apply Forall_insert.
Qed.

Lemma run_inRange (ls : list Label) :
  forall (s s' : Sys) (os : list Obs),
  sysInRange s ->
  run s ls = Some (s', os) ->
  sysInRange s' /\ Forall delayInRange (waits os).
Proof.
  induction ls as [|l ls IH]; intros s s' os Hs Hrun; simpl in Hrun.
  - injection Hrun as <- <-. split; [done|constructor].
  - destruct (sys_step s l) as [[s1 o1]|] eqn:Hs1; [|done].
    destruct (run s1 ls) as [[s2 o2]|] eqn:Hr; [|done].
    injection Hrun as <- <-.
    destruct (sys_step_inRange _ _ _ _ Hs Hs1) as [Hin1 Hw1].
    destruct (IH _ _ _ Hin1 Hr) as [Hin2 Hw2].
    split; [done|]. rewrite SseFacts.waits_app. by apply Forall_app.
Qed.

(** X1.  Whatever callers and goroutines do with a client made by the
    constructor (any schedule of [Connect], [Close] and goroutine
    steps, any number of goroutines), the retry delay stays between
    [minRetryDelay] and [maxRetryDelay], and so does every delay that a
    goroutine waited to its end. *)
Theorem delay_always_in_range (b a : string) (t : gmap string string)
    (f1 f2 : bool) (ls : list Label) (s' : Sys) (os : list Obs) :
  run (start (NewSseClient b a t f1 f2)) ls = Some (s', os) ->
  minRetryDelay <= retryDelay (client s') <= maxRetryDelay
  /\ Forall (fun d => minRetryDelay <= d <= maxRetryDelay) (waits os).
Proof.
  intros Hrun.
  destruct (run_inRange ls (start (NewSseClient b a t f1 f2)) s' os) as [[Hd _] Hw].
  - split; [|constructor].
    unfold delayInRange, start, NewSseClient; cbn [client retryDelay].
    unfold minRetryDelay, maxRetryDelay, Duration.Second. lia.
  - exact Hrun.
  - split; [exact Hd|exact Hw].
Qed.

(** *** An open client's goroutines never return *)

Lemma task_step_open (c c' : SseClient) (pc pc' : Pc) (e : Env) (os : list Obs) :
  closed c = false ->
  task_step c pc e = Some (c', pc', os) ->
  closed c' = false /\ alive pc' = true.
Proof.
  intros Hcl Hstep.
  destruct c as [bu ak th ofc osc stt rd cl cd]. cbn [closed] in Hcl. subst cl.
  destruct pc, e; cbn [task_step] in Hstep; try discriminate.
  all: try solve
    [ destruct (connect_line _ _ _ _) as [[et' ed'] o];
      injection Hstep as <- <- <-;
      split; [done|unfold readLoop_head; by destruct (ctxDone _)] ].
  all: step_inv Hstep; by split.
Qed.

Lemma sys_step_open (s s' : Sys) (l : Label) (os : list Obs) :
  closed (client s) = false ->
  Forall (fun pc => alive pc = true) (tasks s) ->
  notClose l ->
  sys_step s l = Some (s', os) ->
  closed (client s') = false
  /\ Forall (fun pc => alive pc = true) (tasks s')
  /\ (length (tasks s) <= length (tasks s'))%nat.
Proof.
  intros Hcl Hts Hl Hstep. destruct l as [| |i e]; cbn [sys_step] in Hstep.
  - unfold Connect in Hstep. rewrite Hcl in Hstep. injection Hstep as <- <-.
    cbn [client tasks]. split; [done|]. split.
    + apply Forall_app; split; [done|]. by repeat constructor.
    + rewrite length_app. lia.
  - destruct Hl.
  - destruct (tasks s !! i) as [pc|] eqn:Hpc; [|done].
    destruct (task_step (client s) pc e) as [[[c' pc'] o]|] eqn:Ht; [|done].
    injection Hstep as <- <-. cbn [client tasks].
    destruct (task_step_open _ _ _ _ _ _ Hcl Ht) as [Hcl' Hpc'].
    split; [done|]. split; [by apply Forall_insert|].
    rewrite length_insert. lia.
Qed.

(** X2.  As long as nobody calls [Close], no goroutine of an open
    client ever returns from [connectLoop], whatever fails and however
    often: over any schedule of [Connect] calls and goroutine steps
    the client stays open, every goroutine is still running, and none
    has been lost. *)
Theorem open_client_never_gives_up (ls : list Label) :
  forall (s s' : Sys) (os : list Obs),
  closed (client s) = false ->
  Forall (fun pc => alive pc = true) (tasks s) ->
  Forall notClose ls ->
  run s ls = Some (s', os) ->
  closed (client s') = false
  /\ Forall (fun pc => alive pc = true) (tasks s')
  /\ liveTasks s' = length (tasks s')
  /\ (length (tasks s) <= length (tasks s'))%nat.
Proof.
  induction ls as [|l ls IH]; intros s s' os Hcl Hts Hls Hrun; simpl in Hrun.
  - injection Hrun as <- <-. split; [done|]. split; [done|]. split; [|lia].
    unfold liveTasks. f_equal. clear -Hts.
    induction Hts as [|pc ts Hpc _ IHts]; [done|].
    rewrite filter_cons_True by done. by f_equal.
  - apply Forall_cons in Hls as [Hl Hls].
    destruct (sys_step s l) as [[s1 o1]|] eqn:Hs1; [|done].
    destruct (run s1 ls) as [[s2 o2]|] eqn:Hr; [|done].
    injection Hrun as <- <-.
    destruct (sys_step_open _ _ _ _ Hcl Hts Hl Hs1) as (Hcl1 & Hts1 & Hlen1).
    destruct (IH _ _ _ Hcl1 Hts1 Hls Hr) as (Hcl2 & Hts2 & Hlive & Hlen2).
    split; [done|]. split; [done|]. split; [done|lia].
Qed.

(** *** A closed client's goroutines return *)


(** *** The status and what the observer was told *)

(** *** The status machine of a single goroutine *)

Lemma task_step_pcStatus (c c' : SseClient) (pc pc' : Pc) (e : Env) (os : list Obs) :
  closed c = false ->
  pcStatus pc (status c) ->
  task_step c pc e = Some (c', pc', os) ->
  pcStatus pc' (status c').
Proof.
  intros Hcl Hinv Hstep.
  destruct c as [bu ak th ofc osc stt rd cl cd]. cbn [closed] in Hcl. subst cl.
  cbn [status] in Hinv.
  destruct pc, e; cbn [task_step] in Hstep; try discriminate.
  all: try solve
    [ destruct (connect_line _ _ _ _) as [[et' ed'] o];
      injection Hstep as <- <- <-;
      unfold readLoop_head; destruct (ctxDone _); [exact I|exact Hinv] ].
  all: step_inv Hstep; cbn; auto.
Qed.

(** X5.  A client with its one goroutine and no second [Connect]: as
    long as it is not closed, the status follows the goroutine:
    Connecting while the handshake is pending, Connected while the
    stream is read, Error or Disconnected while it waits to retry; and
    the goroutine has not returned. *)
Theorem status_follows_goroutine (ls : list Label) :
  forall (s s' : Sys) (os : list Obs) (pc : Pc),
  tasks s = [pc] ->
  (closed (client s) = false -> pcStatus pc (status (client s))) ->
  Forall notConnect ls ->
  run s ls = Some (s', os) ->
  exists pc', tasks s' = [pc']
    /\ (closed (client s') = false -> pcStatus pc' (GetStatus (client s'))).
Proof.
  induction ls as [|l ls IH]; intros s s' os pc Hts Hinv Hls Hrun; simpl in Hrun.
  - injection Hrun as <- <-. by exists pc.
  - apply Forall_cons in Hls as [Hl Hls].
    destruct (sys_step s l) as [[s1 o1]|] eqn:Hs1; [|done].
    destruct (run s1 ls) as [[s2 o2]|] eqn:Hr; [|done].
    injection Hrun as <- <-.
    assert (exists pc1, tasks s1 = [pc1]
              /\ (closed (client s1) = false -> pcStatus pc1 (status (client s1))))
      as (pc1 & Hts1 & Hinv1).
    { destruct l as [| |i e]; cbn [sys_step] in Hs1.
      - destruct Hl.
      - assert (Hc : Close s = (s1, o1)) by congruence.
        destruct (SseFacts.shut_Close s) as ((Hcl & _) & Ht & _).
        rewrite Hc in Hcl, Ht. cbn [fst] in *.
        exists pc. split; [by rewrite Ht|]. intros Hopen. congruence.
      - destruct (tasks s !! i) as [pc0|] eqn:Hpc; [|done].
        destruct (task_step (client s) pc0 e) as [[[c' pc'] o]|] eqn:Ht; [|done].
        injection Hs1 as <- <-. cbn [client tasks].
        rewrite Hts in Hpc |- *.
        destruct i as [|i]; [|done]. injection Hpc as <-.
        exists pc'. split; [done|]. intros Hopen.
        destruct (closed (client s)) eqn:Hcl.
        + exfalso.
          assert (Hcl' : closed c' = true).
          { clear -Ht Hcl. destruct (client s) as [bu ak th ofc osc stt rd cl cd].
            cbn [closed] in Hcl. subst cl.
            destruct pc, e; cbn [task_step] in Ht; try discriminate.
            all: try solve [ destruct (connect_line _ _ _ _) as [[et' ed'] o0];
                             by injection Ht as <- <- <- ].
            all: step_inv Ht; done. }
          congruence.
        + eapply task_step_pcStatus; [exact Hcl|by apply Hinv|exact Ht]. }
    by eapply IH.
Qed.

End Invariants.

Lemma delay_always_in_range_witness :
  let ls := [LConnect; LTask 0 (ENewRequestErr "bad url"); LTask 0 ETimer;
             LConnect; LTask 1 (ERequest []); LTask 0 (ENewRequestErr "bad url");
             LTask 0 ETimer] in
  exists s' os,
    run (H := Json.reference)
        (start (NewSseClient "http://localhost" "test-key" ∅ true true)) ls
    = Some (s', os)
    /\ minRetryDelay <= retryDelay (client s') <= maxRetryDelay.
Proof.
  intros ls. eexists _, _. split; [vm_compute; reflexivity|].
  refine (proj1 (delay_always_in_range (H := Json.reference)
    "http://localhost" "test-key" ∅ true true ls _ _ _)).
  vm_compute; reflexivity.
Defined.

Lemma open_client_never_gives_up_witness :
  let s := mkSys (NewSseClient "http://localhost" "test-key" ∅ true true)
                 [PcLoopTop] in
  let ls := [LTask 0 (ERequest []); LTask 0 (EResponse 500); LTask 0 ETimer;
             LTask 0 (ERequest []); LTask 0 (EDoErr "refused"); LTask 0 ETimer] in
  exists s' os,
    run (H := Json.reference) s ls = Some (s', os)
    /\ closed (client s') = false
    /\ liveTasks s' = 1%nat.
Proof.
  intros s ls. eexists _, _. split; [vm_compute; reflexivity|].
  refine (let R := open_client_never_gives_up (H := Json.reference) ls s _ _ _ _ _ _ in
          conj (proj1 R) (proj1 (proj2 (proj2 R)))).
  - reflexivity.
  - repeat constructor.
  - repeat constructor.
  - vm_compute; reflexivity.
Defined.


Lemma status_follows_goroutine_witness :
  let s := mkSys (NewSseClient "http://localhost" "test-key" ∅ true true)
                 [PcLoopTop] in
  let ls := [LTask 0 (ERequest []); LTask 0 (EResponse 200)] in
  exists s' os,
    run (H := Json.reference) s ls = Some (s', os)
    /\ exists pc', tasks s' = [pc']
         /\ (closed (client s') = false -> pcStatus pc' (GetStatus (client s'))).
Proof.
  intros s ls. eexists _, _. split; [vm_compute; reflexivity|].
  refine (status_follows_goroutine (H := Json.reference) ls s _ _ PcLoopTop _ _ _ _).
  - reflexivity.
  - intros _. exact I.
  - repeat constructor.
  - vm_compute; reflexivity.
Defined.

(** *** How the read loop assembles frames *)

Section FrameAssembly.
Context `{JsonUnmarshal}.

Lemma connect_line_blank_nodata (c : SseClient) (et raw : string) :
  Strings.TrimSpace raw = "" -> connect_line c et "" raw = (et, "", []).
Proof. intros Ht. unfold connect_line. by rewrite Ht. Qed.

Lemma connect_line_other (c : SseClient) (et ed raw : string) :
  Strings.HasPrefix (Strings.TrimSpace raw) "event:" = false ->
  Strings.HasPrefix (Strings.TrimSpace raw) "data:" = false ->
  Strings.TrimSpace raw <> "" ->
  connect_line c et ed raw = (et, ed, []).
Proof.
  intros H1 H2 H3. unfold connect_line. rewrite H1, H2.
  apply String.eqb_neq in H3. by rewrite H3.
Qed.

(** One line read by goroutine [i] of a client whose context is live. *)
Lemma line_step (s : Sys) (i : nat) (et ed raw et' ed' : string) (o : list Obs) :
  ctxDone (client s) = false ->
  tasks s !! i = Some (PcRead et ed) ->
  connect_line (client s) et ed raw = (et', ed', o) ->
  sys_step s (LTask i (ELine raw))
  = Some (mkSys (client s) (<[i:=PcRead et' ed']> (tasks s)), o).
Proof.
  intros Hctx Hpc Hl. cbn [sys_step]. rewrite Hpc. cbn [task_step].
  rewrite Hl. unfold readLoop_head. by rewrite Hctx.
Qed.

(** X6.  A frame without a [data:] line is not dispatched, and its
    event type is not forgotten: after an [event:] line and a blank
    line nothing has been observed and the goroutine still holds the
    type; when a later frame brings only a [data:] line, [handleEvent]
    is called with the earlier type and that payload. *)
Theorem dataless_frame_keeps_type (s : Sys) (i : nat)
    (et0 r1 r2 r3 r4 et data : string) :
  ctxDone (client s) = false ->
  tasks s !! i = Some (PcRead et0 "") ->
  fieldLine "event:" et r1 ->
  Strings.TrimSpace r2 = "" ->
  fieldLine "data:" data r3 ->
  Strings.TrimSpace r4 = "" ->
  data <> "" ->
  run s [LTask i (ELine r1); LTask i (ELine r2)]
  = Some (mkSys (client s) (<[i:=PcRead et ""]> (tasks s)), [])
  /\ run s [LTask i (ELine r1); LTask i (ELine r2);
            LTask i (ELine r3); LTask i (ELine r4)]
     = Some (mkSys (client s) (<[i:=PcRead "" ""]> (tasks s)),
             handleEvent (client s) et data).
Proof.
  intros Hctx Hpc H1 H2 H3 H4 Hd.
  assert (Hlt : (i < length (tasks s))%nat) by (by eapply lookup_lt_Some).
  pose proof (line_step s i et0 "" r1 et "" [] Hctx Hpc
                (SseFacts.connect_line_event _ _ _ _ _ H1)) as S1.
  set (s1 := mkSys (client s) (<[i:=PcRead et ""]> (tasks s))) in *.
  assert (Hpc1 : tasks s1 !! i = Some (PcRead et "")).
  { subst s1. cbn [tasks]. by apply list_lookup_insert_eq. }
  pose proof (line_step s1 i et "" r2 et "" [] Hctx Hpc1
                (connect_line_blank_nodata _ _ _ H2)) as S2.
  assert (Hs1 : mkSys (client s1) (<[i:=PcRead et ""]> (tasks s1)) = s1).
  { subst s1. cbn [client tasks]. by rewrite list_insert_insert_eq. }
  rewrite Hs1 in S2.
  pose proof (line_step s1 i et "" r3 et data [] Hctx Hpc1
                (SseFacts.connect_line_data _ _ _ _ _ H3)) as S3.
  set (s3 := mkSys (client s1) (<[i:=PcRead et data]> (tasks s1))) in *.
  assert (Hpc3 : tasks s3 !! i = Some (PcRead et data)).
  { subst s3 s1. cbn [tasks]. apply list_lookup_insert_eq. by rewrite length_insert. }
  pose proof (line_step s3 i et data r4 "" "" _ Hctx Hpc3
                (SseFacts.connect_line_blank _ _ _ _ H4 Hd)) as S4.
  assert (Hend : mkSys (client s3) (<[i:=PcRead "" ""]> (tasks s3))
                 = mkSys (client s) (<[i:=PcRead "" ""]> (tasks s))).
  { subst s3 s1. cbn [client tasks]. by rewrite !list_insert_insert_eq. }
  rewrite Hend in S4.
  split.
  - cbn [run]. rewrite S1, S2. reflexivity.
  - cbn [run]. rewrite S1, S2, S3, S4. cbn [app].
    by rewrite app_nil_r.
Qed.

(** X7.  Within one frame the last [data:] line replaces the earlier
    ones (they are not joined), and lines that are neither [event:],
    [data:] nor blank are skipped: after two [data:] lines with a
    skipped line between them, the blank line dispatches the second
    payload; if the second payload is empty, nothing is dispatched. *)
Theorem last_data_line_wins (s : Sys) (i : nat)
    (et0 ed0 r1 r2 r3 r4 d1 d2 : string) :
  ctxDone (client s) = false ->
  tasks s !! i = Some (PcRead et0 ed0) ->
  fieldLine "data:" d1 r1 ->
  Strings.HasPrefix (Strings.TrimSpace r2) "event:" = false ->
  Strings.HasPrefix (Strings.TrimSpace r2) "data:" = false ->
  Strings.TrimSpace r2 <> "" ->
  fieldLine "data:" d2 r3 ->
  Strings.TrimSpace r4 = "" ->
  (d2 <> "" ->
   run s [LTask i (ELine r1); LTask i (ELine r2);
          LTask i (ELine r3); LTask i (ELine r4)]
   = Some (mkSys (client s) (<[i:=PcRead "" ""]> (tasks s)),
           handleEvent (client s) et0 d2))
  /\ (d2 = "" ->
      run s [LTask i (ELine r1); LTask i (ELine r2);
             LTask i (ELine r3); LTask i (ELine r4)]
      = Some (mkSys (client s) (<[i:=PcRead et0 ""]> (tasks s)), [])).
Proof.
  intros Hctx Hpc H1 H2a H2b H2c H3 H4.
  assert (Hlt : (i < length (tasks s))%nat) by (by eapply lookup_lt_Some).
  pose proof (line_step s i et0 ed0 r1 et0 d1 [] Hctx Hpc
                (SseFacts.connect_line_data _ _ _ _ _ H1)) as S1.
  set (s1 := mkSys (client s) (<[i:=PcRead et0 d1]> (tasks s))) in *.
  assert (Hpc1 : tasks s1 !! i = Some (PcRead et0 d1)).
  { subst s1. cbn [tasks]. by apply list_lookup_insert_eq. }
  pose proof (line_step s1 i et0 d1 r2 et0 d1 [] Hctx Hpc1
                (connect_line_other _ _ _ _ H2a H2b H2c)) as S2.
  assert (Hs1 : mkSys (client s1) (<[i:=PcRead et0 d1]> (tasks s1)) = s1).
  { subst s1. cbn [client tasks]. by rewrite list_insert_insert_eq. }
  rewrite Hs1 in S2.
  pose proof (line_step s1 i et0 d1 r3 et0 d2 [] Hctx Hpc1
                (SseFacts.connect_line_data _ _ _ _ _ H3)) as S3.
  set (s3 := mkSys (client s1) (<[i:=PcRead et0 d2]> (tasks s1))) in *.
  assert (Hpc3 : tasks s3 !! i = Some (PcRead et0 d2)).
  { subst s3 s1. cbn [tasks]. apply list_lookup_insert_eq. by rewrite length_insert. }
  split.
  - intros Hd.
    pose proof (line_step s3 i et0 d2 r4 "" "" _ Hctx Hpc3
                  (SseFacts.connect_line_blank _ _ _ _ H4 Hd)) as S4.
    assert (Hend : mkSys (client s3) (<[i:=PcRead "" ""]> (tasks s3))
                   = mkSys (client s) (<[i:=PcRead "" ""]> (tasks s))).
    { subst s3 s1. cbn [client tasks]. by rewrite !list_insert_insert_eq. }
    rewrite Hend in S4.
    cbn [run]. rewrite S1, S2, S3, S4. cbn [app]. by rewrite app_nil_r.
  - intros ->.
    pose proof (line_step s3 i et0 "" r4 et0 "" [] Hctx Hpc3
                  (connect_line_blank_nodata _ _ _ H4)) as S4.
    assert (Hend : mkSys (client s3) (<[i:=PcRead et0 ""]> (tasks s3))
                   = mkSys (client s) (<[i:=PcRead et0 ""]> (tasks s))).
    { subst s3 s1. cbn [client tasks]. by rewrite !list_insert_insert_eq. }
    rewrite Hend in S4.
    cbn [run]. rewrite S1, S2, S3, S4. reflexivity.
Qed.

(** X8.  What [handleEvent] can do, for every event type and payload:
    it makes at most one observation, a log line or a flag change; a
    flag change needs a callback and the type flag-updated or
    config-updated; the event of a config-updated frame always has the
    empty flag key; and a type outside flag-updated, config-updated and
    api-key-rotated (heartbeat included) is passed over in silence. *)
Theorem handleEvent_shape (c : SseClient) (et data : string) :
  (length (handleEvent c et data) <= 1)%nat
  /\ Forall eventOnly (handleEvent c et data)
  /\ (flagChanges (handleEvent c et data) <> [] ->
      onFlagChange c = true /\ (et = "flag-updated" \/ et = "config-updated"))
  /\ Forall (fun ev => FlagKey ev = "")
            (flagChanges (handleEvent c "config-updated" data))
  /\ (et <> "flag-updated" -> et <> "config-updated" -> et <> "api-key-rotated" ->
      handleEvent c et data = []).
Proof.
  split; [|split; [apply SseFacts.handleEvent_eventOnly|split; [|split]]].
  - unfold handleEvent.
    repeat match goal with
           | |- context [if ?b then _ else _] => destruct b
           | |- context [match ?x with Ok _ => _ | Err _ => _ end] => destruct x
           end; simpl; lia.
  - unfold handleEvent.
    destruct (String.eqb_spec et "heartbeat"); [done|].
    destruct (String.eqb_spec et "flag-updated") as [->|].
    { destruct (unmarshalFlagUpdated data); [|done].
      destruct (onFlagChange c); [auto|done]. }
    destruct (String.eqb_spec et "config-updated") as [->|].
    { destruct (unmarshalConfigUpdated data); [|done].
      destruct (onFlagChange c); [auto|done]. }
    destruct (String.eqb_spec et "api-key-rotated") as [->|]; [|done].
    destruct (unmarshalApiKeyRotated data); done.
  - unfold handleEvent. cbn [String.eqb Ascii.eqb Bool.eqb].
    destruct (unmarshalConfigUpdated data); [|constructor].
    destruct (onFlagChange c); repeat constructor.
  - intros N1 N2 N3. unfold handleEvent.
    apply String.eqb_neq in N1, N2, N3. rewrite N1, N2, N3.
    by destruct (String.eqb et "heartbeat").
Qed.

End FrameAssembly.

Lemma dataless_frame_keeps_type_witness :
  run (H := Json.reference) reading
      [LTask 0 (ELine (Strings.line "event: flag-updated")); LTask 0 (ELine Strings.nl);
       LTask 0 (ELine (Strings.line ("data: " +:+ flagUpdatedPayload)));
       LTask 0 (ELine Strings.nl)]
  = Some (reading, [OFlagChange (mkFlagChangeEvent "beta" "2024-03-15T10:30:00Z")]).
Proof.
  refine (proj2 (dataless_frame_keeps_type (H := Json.reference) reading 0 ""
    (Strings.line "event: flag-updated") Strings.nl
    (Strings.line ("data: " +:+ flagUpdatedPayload)) Strings.nl
    "flag-updated" flagUpdatedPayload _ _ _ _ _ _ _)).
  - reflexivity.
  - reflexivity.
  - apply (SseFacts.fieldLine_intro _ _ _ " flag-updated"); vm_compute; reflexivity.
  - vm_compute; reflexivity.
  - apply (SseFacts.fieldLine_intro _ _ _ (" " +:+ flagUpdatedPayload)); vm_compute; reflexivity.
  - vm_compute; reflexivity.
  - discriminate.
Defined.

Lemma last_data_line_wins_witness :
  run (H := Json.reference) reading
      [LTask 0 (ELine (Strings.line "data: {not valid json}"));
       LTask 0 (ELine (Strings.line ": keep-alive"));
       LTask 0 (ELine (Strings.line ("data: " +:+ configUpdatedPayload)));
       LTask 0 (ELine Strings.nl)]
  = Some (reading, handleEvent (H := Json.reference) (client reading) "" configUpdatedPayload).
Proof.
  refine (proj1 (last_data_line_wins (H := Json.reference) reading 0 "" ""
    (Strings.line "data: {not valid json}") (Strings.line ": keep-alive")
    (Strings.line ("data: " +:+ configUpdatedPayload)) Strings.nl
    "{not valid json}" configUpdatedPayload _ _ _ _ _ _ _ _) _).
  - reflexivity.
  - reflexivity.
  - apply (SseFacts.fieldLine_intro _ _ _ " {not valid json}"); vm_compute; reflexivity.
  - vm_compute; reflexivity.
  - vm_compute; reflexivity.
  - discriminate.
  - apply (SseFacts.fieldLine_intro _ _ _ (" " +:+ configUpdatedPayload)); vm_compute; reflexivity.
  - vm_compute; reflexivity.
  - discriminate.
Defined.

Lemma handleEvent_shape_witness :
  handleEvent (H := Json.reference) (client reading) "heartbeat" "{}" = []
  /\ handleEvent (H := Json.reference) (client reading) "flag-change" flagUpdatedPayload = [].
Proof.
  split.
  - refine (proj2 (proj2 (proj2 (proj2
      (handleEvent_shape (H := Json.reference) (client reading) "heartbeat" "{}")))) _ _ _);
      discriminate.
  - refine (proj2 (proj2 (proj2 (proj2
      (handleEvent_shape (H := Json.reference) (client reading) "flag-change"
         flagUpdatedPayload)))) _ _ _); discriminate.
Defined.

End SseMoreFacts.

(** ** types.go and the evaluation helpers of provider.go *)

Module ValuesFacts.
Import Values.

Lemma digit_code (d : Z) :
  0 <= d < 10 ->
  Z.of_N (N_of_ascii (ascii_of_N (48 + Z.to_N d))) = 48 + d.
Proof.
  intros Hd. rewrite N_ascii_embedding by lia. lia.
Qed.

Lemma intToString_loop_value (fuel : nat) :
  forall (i : Z) (rest : string),
  0 <= i < 10 ^ Z.of_nat fuel ->
  decimalValue 0 (intToString_loop fuel i rest) = decimalValue i rest.
Proof.
  induction fuel as [|fuel IH]; intros i rest Hi.
  - simpl in *. by replace i with 0 by lia.
  - cbn [intToString_loop]. destruct (i >? 0) eqn:Hpos.
    + rewrite IH.
      2:{ rewrite Nat2Z.inj_succ, Z.pow_succ_r in Hi by lia.
          split; [apply Z.div_pos; lia|].
          apply Z.div_lt_upper_bound; lia. }
      cbn [decimalValue].
      pose proof (Z.mod_pos_bound i 10 ltac:(lia)) as Hm.
      rewrite (digit_code _ Hm).
      replace ((48 <=? 48 + i mod 10) && (48 + i mod 10 <=? 57)) with true
        by (symmetry; apply andb_true_intro; split; apply Z.leb_le; lia).
      f_equal. pose proof (Z.div_mod i 10 ltac:(lia)). lia.
    + by replace i with 0 by lia.
Qed.

Lemma intToString_loop_nonempty (fuel : nat) :
  forall (i : Z) (rest : string),
  rest <> "" -> intToString_loop fuel i rest <> "".
Proof.
  induction fuel as [|fuel IH]; intros i rest Hr; [done|].
  cbn [intToString_loop]. destruct (i >? 0); [|done].
  by apply IH.
Qed.

Lemma intToString_loop_pos (fuel : nat) (i : Z) (rest : string) :
  0 < i -> intToString_loop (S fuel) i rest <> "".
Proof.
  intros Hi.
  change (intToString_loop (S fuel) i rest)
    with (if i >? 0
          then intToString_loop fuel (i / 10)
                 (String (ascii_of_N (48 + Z.to_N (i mod 10))) rest)
          else rest).
  replace (i >? 0) with true by (symmetry; apply Z.gtb_lt; lia).
  by apply intToString_loop_nonempty.
Qed.

Lemma intToString_nonempty (i : Z) : intToString i <> "".
Proof.
  unfold intToString. destruct (i =? 0) eqn:E0; [done|].
  destruct (i <? 0) eqn:Eneg; [done|].
  apply Z.eqb_neq in E0. apply Z.ltb_ge in Eneg.
  apply (intToString_loop_pos 19). lia.
Qed.

Lemma intToString_loop_zero (fuel : nat) (rest : string) :
  intToString_loop fuel 0 rest = rest.
Proof. by destruct fuel. Qed.

Lemma intToString_loop_head (fuel : nat) :
  forall (i : Z) (rest : string),
  0 < i < 10 ^ Z.of_nat fuel ->
  exists c r, intToString_loop fuel i rest = String c r
              /\ 49 <= Z.of_N (N_of_ascii c) <= 57.
Proof.
  induction fuel as [|fuel IH]; intros i rest Hi.
  - simpl in Hi. lia.
  - change (intToString_loop (S fuel) i rest)
      with (if i >? 0
            then intToString_loop fuel (i / 10)
                   (String (ascii_of_N (48 + Z.to_N (i mod 10))) rest)
            else rest).
    replace (i >? 0) with true by (symmetry; apply Z.gtb_lt; lia).
    destruct (Z.eq_dec (i / 10) 0) as [E|E].
    + rewrite E, intToString_loop_zero. eexists _, _. split; [reflexivity|].
      assert (i mod 10 = i) as ->.
      { pose proof (Z.div_mod i 10 ltac:(lia)). lia. }
      assert (0 <= i < 10) as Hd.
      { pose proof (Z.div_mod i 10 ltac:(lia)).
        pose proof (Z.mod_pos_bound i 10 ltac:(lia)). lia. }
      rewrite (digit_code _ Hd). lia.
    + apply IH. rewrite Nat2Z.inj_succ, Z.pow_succ_r in Hi by lia.
      split.
      * pose proof (Z.div_pos i 10 ltac:(lia) ltac:(lia)). lia.
      * apply Z.div_lt_upper_bound; lia.
Qed.

(** X9.  [intToString] writes the decimal numeral of every [int] but
    the least one ([int] taken as 64 bits wide): for [0 <= i] the
    result consists of digits only and denotes [i], and for [0 < i] it
    starts with a digit from 1 to 9; for a negative [i] above the least
    value it is a minus sign followed by the numeral of [-i]; for the
    least value, whose negation wraps around, it is the bare minus
    sign.  The result is never empty, and [int64ToString] gives the
    same. *)
Theorem intToString_decimal (i : Z) :
  - 2 ^ 63 <= i < 2 ^ 63 ->
  (0 <= i -> decimalValue 0 (intToString i) = Some i)
  /\ (0 < i -> exists c r, intToString i = String c r
                          /\ 49 <= Z.of_N (N_of_ascii c) <= 57)
  /\ (- 2 ^ 63 < i < 0 -> intToString i = String "-"%char (intToString (- i)))
  /\ (i = - 2 ^ 63 -> intToString i = "-")
  /\ intToString i <> ""
  /\ int64ToString i = intToString i.
Proof.
  intros Hi. change (2 ^ 63) with 9223372036854775808 in *.
  split; [|split; [|split; [|split; [|split]]]].
  - intros Hpos. unfold intToString.
    destruct (i =? 0) eqn:E0.
    + apply Z.eqb_eq in E0. by subst.
    + replace (i <? 0) with false by (symmetry; apply Z.ltb_ge; lia).
      rewrite intToString_loop_value; [done|].
      change (10 ^ Z.of_nat 20) with 100000000000000000000. lia.
  - intros Hpos. unfold intToString.
    replace (i =? 0) with false by (symmetry; apply Z.eqb_neq; lia).
    replace (i <? 0) with false by (symmetry; apply Z.ltb_ge; lia).
    apply intToString_loop_head.
    change (10 ^ Z.of_nat 20) with 100000000000000000000. lia.
  - intros Hneg. unfold intToString.
    replace (i =? 0) with false by (symmetry; apply Z.eqb_neq; lia).
    replace (- i =? 0) with false by (symmetry; apply Z.eqb_neq; lia).
    replace (i <? 0) with true by (symmetry; apply Z.ltb_lt; lia).
    replace (- i <? 0) with false by (symmetry; apply Z.ltb_ge; lia).
    rewrite SseFacts.wrap64_small by lia. reflexivity.
  - intros ->. reflexivity.
  - apply intToString_nonempty.
  - reflexivity.
Qed.

Lemma intToString_decimal_witness :
  decimalValue 0 (intToString 503) = Some 503
  /\ intToString (- 42) = String "-"%char (intToString 42).
Proof.
  split.
  - refine (proj1 (intToString_decimal 503 _) _); lia.
  - refine (proj1 (proj2 (proj2 (intToString_decimal (- 42) _))) _); lia.
Defined.

Section WithFloat.
Context {float64 : Type}.
Variable floatToString : float64 -> string.
Variable unmarshalObject : string -> result (gmap string (GoValue float64)).

(** X10.  [GetValueAsString] returns the empty string exactly for a
    slice, a map or a value of a type it has no case for (given that
    the float formatter never returns the empty string); a string is
    shown between double quotes, and an [int] or [int64] as
    [intToString] writes it. *)
Theorem GetValueAsString_empty (e : FlagEvaluation float64) :
  (forall f, floatToString f <> "") ->
  (GetValueAsString floatToString e = "" <-> unprintable (Value e))
  /\ (forall s, Value e = VString s ->
        GetValueAsString floatToString e = Json.quoted s)
  /\ (forall i, Value e = VInt i \/ Value e = VInt64 i ->
        GetValueAsString floatToString e = intToString i).
Proof.
  intros Hf. unfold GetValueAsString, stringValue, unprintable, int64ToString.
  split; [|split].
  - destruct (Value e) as [|b|i|i|f|s|vs|m|]; try (split; done).
    + destruct b; split; done.
    + pose proof (intToString_nonempty i). tauto.
    + pose proof (intToString_nonempty i). tauto.
    + specialize (Hf f). tauto.
  - by intros s ->.
  - by intros i [-> | ->].
Qed.

Lemma index_Some (data : gmap string (GoValue float64)) (k : string)
    (v : GoValue float64) :
  data !! k = Some v -> index data k = v.
Proof. unfold index. by intros ->. Qed.

Lemma index_None (data : gmap string (GoValue float64)) (k : string) :
  data !! k = None -> index data k = VNil.
Proof. unfold index. by intros ->. Qed.

Lemma inferType_typeNames (v : GoValue float64) : inferType v ∈ typeNames.
Proof.
  unfold typeNames. destruct v; cbn [inferType];
    repeat (first [apply list_elem_of_here | apply list_elem_of_further]).
Qed.

Lemma getFlagType_typeNames (data : gmap string (GoValue float64)) :
  getFlagType data ∈ typeNames.
Proof.
  unfold getFlagType.
  destruct (index data "metadata") as [| | | | | | |metadata|];
    try apply inferType_typeNames.
  destruct (index metadata "flagType") as [| | | | |ft| | |];
    try apply inferType_typeNames.
  repeat match goal with
         | |- context [if ?b then _ else _] => destruct b
         end; try apply inferType_typeNames;
    unfold typeNames;
    repeat (first [apply list_elem_of_here | apply list_elem_of_further]).
Qed.

(** X11.  [getFlagType] names a type from a fixed list.  A [flagType] of
    boolean, string, integer or decimal in the metadata decides the
    name (decimal giving number) whatever the value is; in every other
    case (no metadata, metadata that is not an object, no [flagType],
    a [flagType] that is not a string or is another word) the name is
    the one [inferType] gives for the value.  For a value as
    [json.Unmarshal] produces it, the name is never unknown, and it is
    integer only on the word of the metadata. *)
Theorem getFlagType_names (data : gmap string (GoValue float64)) :
  getFlagType data ∈ typeNames
  /\ (forall (metadata : gmap string (GoValue float64)) (flagType name : string),
        data !! "metadata" = Some (VMap metadata) ->
        metadata !! "flagType" = Some (VString flagType) ->
        (flagType, name) ∈ [("boolean", "boolean"); ("string", "string");
                            ("integer", "integer"); ("decimal", "number")] ->
        getFlagType data = name)
  /\ ((forall (metadata : gmap string (GoValue float64)) (flagType : string),
         data !! "metadata" = Some (VMap metadata) ->
         metadata !! "flagType" = Some (VString flagType) ->
         flagType ∉ ["boolean"; "string"; "integer"; "decimal"]) ->
      getFlagType data = inferType (index data "value"))
  /\ (jsonTyped (index data "value") ->
      getFlagType data <> "unknown"
      /\ (getFlagType data = "integer" ->
          exists metadata, data !! "metadata" = Some (VMap metadata)
            /\ metadata !! "flagType" = Some (VString "integer"))).
Proof.
  assert (Hjson : forall v : GoValue float64, jsonTyped v ->
            inferType v <> "unknown" /\ inferType v <> "integer").
  { intros v Hv. destruct v; cbn in Hv |- *; try done. }
  split; [|split; [|split]].
  - apply getFlagType_typeNames.
  - intros metadata flagType name Hm Hft Hin.
    unfold getFlagType. rewrite (index_Some _ _ _ Hm), (index_Some _ _ _ Hft).
    repeat (apply elem_of_cons in Hin as [Hin|Hin]; [by injection Hin as -> ->|]).
    by apply elem_of_nil in Hin.
  - intros Hother. unfold getFlagType.
    destruct (data !! "metadata") as [[| | | | | | |metadata|]|] eqn:Hm;
      first [rewrite (index_Some _ _ _ Hm) | rewrite (index_None _ _ Hm)];
      try reflexivity.
    destruct (metadata !! "flagType") as [[| | | | |ft| | |]|] eqn:Hft;
      first [rewrite (index_Some _ _ _ Hft) | rewrite (index_None _ _ Hft)];
      try reflexivity.
    specialize (Hother metadata ft eq_refl Hft).
    destruct (String.eqb_spec ft "boolean") as [->|];
      [exfalso; apply Hother; apply list_elem_of_here|].
    destruct (String.eqb_spec ft "string") as [->|];
      [exfalso; apply Hother; do 1 apply list_elem_of_further; apply list_elem_of_here|].
    destruct (String.eqb_spec ft "integer") as [->|];
      [exfalso; apply Hother; do 2 apply list_elem_of_further; apply list_elem_of_here|].
    destruct (String.eqb_spec ft "decimal") as [->|];
      [exfalso; apply Hother; do 3 apply list_elem_of_further; apply list_elem_of_here|].
    reflexivity.
  - intros Hv. destruct (Hjson _ Hv) as [Hu Hi].
    unfold getFlagType.
    destruct (data !! "metadata") as [[| | | | | | |metadata|]|] eqn:Hm;
      first [rewrite (index_Some _ _ _ Hm) | rewrite (index_None _ _ Hm)];
      try (split; [exact Hu|intros; congruence]).
    destruct (metadata !! "flagType") as [[| | | | |ft| | |]|] eqn:Hft;
      first [rewrite (index_Some _ _ _ Hft) | rewrite (index_None _ _ Hft)];
      try (split; [exact Hu|intros; congruence]).
    destruct (String.eqb_spec ft "boolean"); [split; [done|done]|].
    destruct (String.eqb_spec ft "string"); [split; [done|done]|].
    destruct (String.eqb_spec ft "integer") as [->|].
    { split; [done|]. intros _. by exists metadata. }
    destruct (String.eqb_spec ft "decimal"); [split; [done|done]|].
    split; [exact Hu|intros; congruence].
Qed.

Lemma collectFlags_keys (flags : list (GoValue float64)) :
  forall acc : list (FlagEvaluation float64),
  map Key (collectFlags flags acc) = map Key acc ++ omap flagKeyOf flags
  /\ (Forall (fun r => ValueType r ∈ typeNames) acc ->
      Forall (fun r => ValueType r ∈ typeNames) (collectFlags flags acc)).
Proof.
  induction flags as [|f flags IH]; intros acc.
  - cbn. by rewrite app_nil_r.
  - cbn [collectFlags omap list_omap].
    destruct f as [| | | | | | |flag|]; cbn [flagKeyOf]; [apply IH..| |apply IH].
    destruct (index flag "key") as [| | | | |key| | |]; [apply IH..| |apply IH|apply IH|apply IH].
    destruct (IH (acc ++ [mkFlagEvaluation key (index flag "value") (getFlagType flag)
                            (getString flag "reason" "") (getString flag "variant" "")]))
      as [Hk Ht].
    split.
    + rewrite Hk, map_app, <- app_assoc. reflexivity.
    + intros Hacc. apply Ht. apply Forall_app; split; [done|].
      apply Forall_singleton. cbn [ValueType]. apply getFlagType_typeNames.
Qed.

(** X12.  [EvaluateAllFlags] never fails.  When the exchange does not
    come to a decoded body (the request cannot be sent, the status is
    not 2xx, the body cannot be read or parsed) it returns the empty
    list and writes one log line.  Otherwise it logs nothing and
    returns one evaluation for each element of [flags] that is an
    object with a string [key], in the order of [flags], with that key;
    other elements are skipped, and so is everything when [flags] is
    missing or not an array.  Every reported type is one of the fixed
    names. *)
Theorem EvaluateAllFlags_results (x : Exchange) :
  (responseData unmarshalObject x = None ->
   (EvaluateAllFlags unmarshalObject x).1 = []
   /\ length (EvaluateAllFlags unmarshalObject x).2 = 1%nat)
  /\ (forall data,
        responseData unmarshalObject x = Some data ->
        (EvaluateAllFlags unmarshalObject x).2 = []
        /\ map Key (EvaluateAllFlags unmarshalObject x).1
           = omap flagKeyOf (flagsOf data)
        /\ (length (EvaluateAllFlags unmarshalObject x).1
            <= length (flagsOf data))%nat)
  /\ Forall (fun r => ValueType r ∈ typeNames)
            (EvaluateAllFlags unmarshalObject x).1.
Proof.
  unfold responseData, EvaluateAllFlags, flagsOf.
  destruct x as [msg|msg|code [respBody|]].
  - cbn [fst snd]. split; [done|]. split; [done|]. apply Forall_nil_2.
  - cbn [fst snd]. split; [done|]. split; [done|]. apply Forall_nil_2.
  - destruct (isSuccess code); cbn [negb fst snd].
    2:{ split; [done|]. split; [done|]. apply Forall_nil_2. }
    destruct (unmarshalObject respBody) as [data|err]; cbn [fst snd].
    2:{ split; [done|]. split; [done|]. apply Forall_nil_2. }
    split; [done|]. split.
    + intros data' [= <-].
      destruct (index data "flags") as [| | | | | |flags| |]; cbn [fst snd];
        try (split; [done|split; [done|cbn; lia]]).
      destruct (collectFlags_keys flags []) as [Hk _]. cbn [map app] in Hk.
      split; [done|]. split; [exact Hk|].
      rewrite <- (length_map Key), Hk.
      clear. induction flags as [|f flags IH]; [done|].
      cbn [omap list_omap length]. destruct (flagKeyOf f); cbn [length]; lia.
    + destruct (index data "flags") as [| | | | | |flags| |]; cbn [fst snd];
        try apply Forall_nil_2.
      apply collectFlags_keys. apply Forall_nil_2.
  - destruct (isSuccess code); cbn [negb fst snd];
      (split; [done|]; split; [done|]; apply Forall_nil_2).
Qed.

(** X13.  [EvaluateFlag] returns an evaluation exactly when the
    exchange comes to a decoded body, and then logs nothing: the
    evaluation carries the body's [key] when that is a string and the
    requested key when the body has none, the body's value, the type
    [getFlagType] names, and reason and variant defaulting to the
    empty string.  In every other case it returns nil; a 404 is the
    one such case that is not logged. *)
Theorem EvaluateFlag_result (flagKey : string) (x : Exchange) :
  (forall data,
     responseData unmarshalObject x = Some data ->
     exists r,
       EvaluateFlag unmarshalObject flagKey x = (Some r, [])
       /\ Key r = getString data "key" flagKey
       /\ Value r = index data "value"
       /\ ValueType r = getFlagType data
       /\ Reason r = getString data "reason" ""
       /\ Variant r = getString data "variant" ""
       /\ (forall k, data !! "key" = Some (VString k) -> Key r = k)
       /\ (data !! "key" = None -> Key r = flagKey))
  /\ (responseData unmarshalObject x = None ->
      (EvaluateFlag unmarshalObject flagKey x).1 = None
      /\ ((EvaluateFlag unmarshalObject flagKey x).2 = []
          <-> exists body, x = XResponse 404 body)).
Proof.
  unfold responseData, EvaluateFlag.
  destruct x as [msg|msg|code body]; cbn [fst snd].
  1,2: split; [by intros ?|]; intros _; split; [done|];
       split; [done|by intros [? ?]].
  destruct (code =? 404) eqn:E404.
  { apply Z.eqb_eq in E404. subst code. cbn [isSuccess Z.leb Z.ltb andb negb].
    split.
    - intros data Hd. destruct body; done.
    - intros _. split; [done|]. split; [by exists body|done]. }
  apply Z.eqb_neq in E404.
  assert (Hnot : forall l : list EvalLog, l <> [] ->
            (l = [] <-> exists body', XResponse code body = XResponse 404 body')).
  { intros l Hl. split; [done|]. intros [b' [= ? _]]. done. }
  destruct (isSuccess code); cbn [negb].
  2:{ split; [by destruct body|]. intros _. split; [done|]. by apply Hnot. }
  destruct body as [respBody|].
  2:{ split; [done|]. intros _. split; [done|]. by apply Hnot. }
  destruct (unmarshalObject respBody) as [data|err].
  2:{ split; [done|]. intros _. split; [done|]. by apply Hnot. }
  split; [|done].
  intros data' [= <-]. eexists. split; [reflexivity|].
  cbn [Key Value ValueType Reason Variant].
  do 5 (split; [done|]). split.
  - intros k Hk. unfold getString, index. by rewrite Hk.
  - intros Hk. unfold getString, index. by rewrite Hk.
Qed.

Lemma transformContext_fold (order : list (string * GoValue float64)) :
  forall acc : gmap string (GoValue float64),
  fold_left (fun result kv => <[kv.1 := kv.2]> result) order acc
  = list_to_map (rev order) ∪ acc.
Proof.
  induction order as [|[k v] order IH]; intros acc.
  - cbn. by rewrite (left_id_L ∅ (∪)).
  - cbn [fold_left rev fst snd]. rewrite IH, list_to_map_app.
    rewrite <- (assoc_L (∪)). f_equal. cbn [list_to_map foldr fst snd].
    by rewrite <- insert_union_l, (left_id_L ∅ (∪)).
Qed.

(** X23.  [transformContext] returns a copy of the evaluation context:
    whatever order the [range] over the map yields its entries in,
    the new map has exactly those entries. *)
Theorem transformContext_copies (evalCtx : gmap string (GoValue float64))
    (order : list (string * GoValue float64)) :
  order ≡ₚ map_to_list evalCtx ->
  transformContext order = evalCtx.
Proof.
  intros Hperm. unfold transformContext.
  rewrite transformContext_fold, (right_id_L ∅ (∪)).
  assert (Hrev : rev order ≡ₚ map_to_list evalCtx).
  { rewrite <- Hperm. symmetry. apply Permutation_rev. }
  rewrite <- (list_to_map_to_list evalCtx).
  apply list_to_map_proper; [|exact Hrev].
  rewrite Hrev. apply NoDup_fst_map_to_list.
Qed.

End WithFloat.

Lemma GetValueAsString_empty_witness :
  GetValueAsString (fun lit : string => "n" +:+ lit)
    (mkFlagEvaluation "k" (VSlice [VNil]) "array" "" "") = "".
Proof.
  refine (proj2 (proj1 (GetValueAsString_empty (fun lit : string => "n" +:+ lit)
    (mkFlagEvaluation "k" (VSlice [VNil]) "array" "" "") _)) I).
  intros f. discriminate.
Defined.

Lemma getFlagType_names_witness :
  let metadata : gmap string (GoValue string) := {["flagType" := VString "decimal"]} in
  let data : gmap string (GoValue string) :=
    <["metadata" := VMap metadata]> {["value" := VFloat64 "42"]} in
  getFlagType data = "number".
Proof.
  intros metadata data.
  refine (proj1 (proj2 (getFlagType_names data)) metadata "decimal" "number" _ _ _).
  - reflexivity.
  - reflexivity.
  - repeat (first [apply list_elem_of_here | apply list_elem_of_further]).
Defined.

Lemma EvaluateAllFlags_results_witness :
  let x := XResponse 200 (Some bulkBody) in
  responseData referenceObject x = Some bulkData
  /\ omap flagKeyOf (flagsOf bulkData) = ["dark-mode"]
  /\ map Key (EvaluateAllFlags referenceObject x).1
     = omap flagKeyOf (flagsOf bulkData).
Proof.
  intros x. split; [reflexivity|]. split; [reflexivity|].
  refine (proj1 (proj2 (proj1 (proj2
    (EvaluateAllFlags_results referenceObject x)) bulkData _))).
  reflexivity.
Defined.

Lemma EvaluateFlag_result_witness :
  let x := XResponse 200 (Some singleBody) in
  exists r,
    EvaluateFlag referenceObject "beta" x = (Some r, [])
    /\ Key r = "beta".
Proof.
  intros x.
  destruct (proj1 (EvaluateFlag_result referenceObject "beta" x) singleData eq_refl)
    as (r & Hr & _ & _ & _ & _ & _ & _ & Hk).
  exists r. split; [exact Hr|]. apply Hk. reflexivity.
Defined.

Lemma transformContext_copies_witness :
  let evalCtx : gmap string (GoValue string) := {["targetingKey" := VString "user-1"]} in
  transformContext [("targetingKey", VString "user-1")] = evalCtx.
Proof.
  intros evalCtx.
  refine (transformContext_copies evalCtx [("targetingKey", VString "user-1")] _).
  subst evalCtx. by rewrite map_to_list_singleton.
Defined.

End ValuesFacts.

(** ** provider.go: construction and life cycle *)

Module LifecycleFacts.
Import Lifecycle.

(** *** Trailing slashes *)

Lemma append_cons (a : ascii) (s t : string) :
  String a s +:+ t = String a (s +:+ t).
Proof. reflexivity. Qed.

Lemma append_nil (t : string) : "" +:+ t = t.
Proof. reflexivity. Qed.

Lemma substring_split (k : nat) :
  forall s : string,
  (k <= String.length s)%nat ->
  String.substring 0 k s +:+ String.substring k (String.length s - k) s = s.
Proof.
  induction k as [|k IH]; intros s Hk.
  - rewrite Nat.sub_0_r, SseFacts.substring_all. by destruct s.
  - destruct s as [|a s]; [simpl in Hk; lia|].
    simpl in Hk. simpl. rewrite append_cons. f_equal. apply IH. lia.
Qed.

Lemma substring_append_l (s t : string) :
  String.substring 0 (String.length s) (s +:+ t) = s.
Proof.
  induction s as [|a s IH]; [by destruct t|].
  rewrite append_cons. cbn. by f_equal.
Qed.

Lemma substring_append_r (s t : string) :
  String.substring (String.length s) (String.length t) (s +:+ t) = t.
Proof.
  induction s as [|a s IH]; [apply SseFacts.substring_all|].
  rewrite append_cons. cbn. done.
Qed.

Lemma length_append (s t : string) :
  String.length (s +:+ t) = (String.length s + String.length t)%nat.
Proof.
  induction s as [|a s IH]; [done|].
  rewrite append_cons. cbn. by f_equal.
Qed.

Lemma TrimSuffix_cases (s : string) :
  (exists t, s = t +:+ "/" /\ Strings.TrimSuffix s "/" = t)
  \/ ((forall t, s <> t +:+ "/") /\ Strings.TrimSuffix s "/" = s).
Proof.
  unfold Strings.TrimSuffix. cbn [String.length].
  destruct ((1 <=? String.length s)%nat
            && String.eqb (String.substring (String.length s - 1) 1 s) "/") eqn:E.
  - left. apply andb_true_iff in E as [Hn He].
    apply Nat.leb_le in Hn. apply String.eqb_eq in He.
    exists (String.substring 0 (String.length s - 1) s). split; [|done].
    pose proof (substring_split (String.length s - 1) s ltac:(lia)) as Hs.
    replace (String.length s - (String.length s - 1))%nat with 1%nat in Hs by lia.
    rewrite He in Hs. done.
  - right. split; [|done]. intros t ->.
    rewrite length_append in E. cbn [String.length] in E.
    replace (String.length t + 1 - 1)%nat with (String.length t) in E by lia.
    pose proof (substring_append_r t "/") as Hr. cbn [String.length] in Hr.
    rewrite Hr in E.
    replace (1 <=? String.length t + 1)%nat with true in E
      by (symmetry; apply Nat.leb_le; lia).
    discriminate.
Qed.


Lemma append_slash_inj (t u : string) : t +:+ "/" = u +:+ "/" -> t = u.
Proof.
  revert u. induction t as [|a t IH]; intros [|b u] Heq.
  - done.
  - rewrite append_nil, append_cons in Heq. injection Heq as _ Heq.
    destruct u; rewrite ?append_cons in Heq; discriminate.
  - rewrite append_nil, append_cons in Heq. injection Heq as _ Heq.
    destruct t; rewrite ?append_cons in Heq; discriminate.
  - rewrite !append_cons in Heq. injection Heq as -> Heq. f_equal. by apply IH.
Qed.

Lemma TrimSuffix_slash (u : string) : Strings.TrimSuffix (u +:+ "/") "/" = u.
Proof.
  destruct (TrimSuffix_cases (u +:+ "/")) as [(t & Ht & ->) | (Hno & _)].
  - symmetry. by apply append_slash_inj.
  - by destruct (Hno u).
Qed.

Lemma TrimSuffix_none (u : string) :
  (forall t, u <> t +:+ "/") -> Strings.TrimSuffix u "/" = u.
Proof.
  intros Hno. destruct (TrimSuffix_cases u) as [(t & Ht & _) | (_ & Hu)]; [|done].
  by destruct (Hno t).
Qed.

(** *** NewProvider and its options *)

Lemma default_last_cons {A : Type} (d x : A) (l : list A) :
  default d (last (x :: l)) = default x (last l).
Proof. rewrite last_cons. by destruct (last l). Qed.

Section WithState.
Context {U : Type}.

Lemma options_fold (ss : list Setting) :
  forall p : FlipswitchProvider U,
  let q := fold_left (fun p opt => opt p) (map toOption ss) p in
  baseURL q = default (baseURL p) (lastBaseURL ss)
  /\ Provider.enableRealtime (core q)
     = default (Provider.enableRealtime (core p)) (lastRealtime ss)
  /\ httpClient q = default (httpClient p) (lastHTTPClient ss)
  /\ apiKey q = apiKey p
  /\ ofrepProvider q = ofrepProvider p
  /\ sseClient q = sseClient p
  /\ Provider.flagChangeListeners (core q) = Provider.flagChangeListeners (core p)
  /\ Provider.initialized (core q) = Provider.initialized (core p).
Proof.
  unfold lastBaseURL, lastRealtime, lastHTTPClient.
  induction ss as [|s ss IH]; intros p; [done|].
  cbn [map fold_left]. specialize (IH (toOption s p)). cbn zeta in IH |- *.
  destruct IH as (H1 & H2 & H3 & H4 & H5 & H6 & H7 & H8).
  rewrite H1, H2, H3, H4, H5, H6, H7, H8.
  destruct s as [url|enabled|client]; cbn [omap list_omap];
    rewrite ?default_last_cons; done.
Qed.

(** X14.  [NewProvider] refuses the empty API key whatever the options
    are.  With a key and options built by [WithBaseURL], [WithRealtime]
    and [WithHTTPClient] it succeeds; for each field the last option
    that sets it wins, and a field no option sets keeps its default
    (the public URL, realtime on, a fresh HTTP client).  One trailing
    slash is cut from the base URL, the OFREP provider is given that
    URL followed by /ofrep/v1 and the key, and the provider starts
    without listeners, without an SSE client and not initialized. *)
Theorem NewProvider_settings (client0 : nat) (key : string) (ss : list Setting) :
  (forall opts : list (Option_ U),
     NewProvider client0 "" opts = Err "apiKey is required")
  /\ (key <> "" ->
      exists p : FlipswitchProvider U,
        NewProvider client0 key (map toOption ss) = Ok p
        /\ apiKey p = key
        /\ baseURL p
           = Strings.TrimSuffix (default defaultBaseURL (lastBaseURL ss)) "/"
        /\ Provider.enableRealtime (core p) = default true (lastRealtime ss)
        /\ httpClient p = default client0 (lastHTTPClient ss)
        /\ ofrepProvider p = Some (mkOfrep (baseURL p +:+ "/ofrep/v1") key)
        /\ Provider.flagChangeListeners (core p) = []
        /\ Provider.initialized (core p) = false
        /\ sseClient p = None).
Proof.
  split; [done|]. intros Hkey. unfold NewProvider.
  replace (String.eqb key "") with false
    by (symmetry; by apply String.eqb_neq).
  pose proof (options_fold ss
    (mkProvider defaultBaseURL key client0 None
       (Provider.mkProvider true [] false) None)) as Hf.
  cbn zeta in Hf.
  destruct (fold_left (fun p opt => opt p) (map toOption ss) _)
    as [url key' client ofrep k sse].
  cbn [baseURL apiKey httpClient ofrepProvider core sseClient] in Hf.
  destruct Hf as (-> & H2 & -> & -> & _ & -> & H7 & H8).
  eexists. split; [reflexivity|].
  cbn [baseURL apiKey httpClient ofrepProvider core sseClient].
  rewrite H2, H7, H8. cbn. done.
Qed.

(** X24.  Each constructor cuts one trailing slash from the base URL,
    and the provider hands its own, already cut, URL to the SSE client
    it creates.  So for a configured URL with at most one trailing
    slash both hold the same URL; with two trailing slashes the
    provider (and the OFREP provider after it) keeps one of them while
    its SSE client has none. *)
Theorem base_url_trailing_slashes (client0 : nat) (key u : string) :
  key <> "" ->
  (forall t, u <> t +:+ "/") ->
  (forall b, b = u \/ b = u +:+ "/" ->
     exists p : FlipswitchProvider U,
       NewProvider client0 key [WithBaseURL b] = Ok p
       /\ baseURL p = u
       /\ ofrepProvider p = Some (mkOfrep (u +:+ "/ofrep/v1") key)
       /\ Sse.baseURL (NewSseClient (baseURL p) (apiKey p) true true) = u)
  /\ (exists p : FlipswitchProvider U,
       NewProvider client0 key [WithBaseURL (u +:+ "//")] = Ok p
       /\ baseURL p = u +:+ "/"
       /\ ofrepProvider p = Some (mkOfrep (u +:+ "//ofrep/v1") key)
       /\ Sse.baseURL (NewSseClient (baseURL p) (apiKey p) true true) = u).
Proof.
  intros Hkey Hu.
  assert (Hnew : forall b, NewProvider (U := U) client0 key [WithBaseURL b]
            = Ok (mkProvider (Strings.TrimSuffix b "/") key client0
                    (Some (mkOfrep (Strings.TrimSuffix b "/" +:+ "/ofrep/v1") key))
                    (Provider.mkProvider true [] false) None)).
  { intros b. unfold NewProvider.
    replace (String.eqb key "") with false by (symmetry; by apply String.eqb_neq).
    reflexivity. }
  split.
  - intros b Hb. eexists. split; [apply Hnew|].
    cbn [baseURL apiKey ofrepProvider NewSseClient Sse.NewSseClient Sse.baseURL].
    assert (Hcut : Strings.TrimSuffix b "/" = u).
    { destruct Hb as [-> | ->]; [by apply TrimSuffix_none|apply TrimSuffix_slash]. }
    rewrite Hcut. split; [done|]. split; [done|]. by apply TrimSuffix_none.
  - eexists. split; [apply Hnew|].
    cbn [baseURL apiKey ofrepProvider NewSseClient Sse.NewSseClient Sse.baseURL].
    assert (Hcut : Strings.TrimSuffix (u +:+ "//") "/" = u +:+ "/").
    { replace (u +:+ "//") with ((u +:+ "/") +:+ "/").
      - apply TrimSuffix_slash.
      - clear. induction u as [|a u IH]; [done|]. rewrite !append_cons. by f_equal. }
    rewrite Hcut. split; [done|]. split.
    + do 2 f_equal. clear. induction u as [|a u IH]; [done|].
      rewrite !append_cons. by f_equal.
    + apply TrimSuffix_slash.
Qed.

End WithState.

Lemma base_url_trailing_slashes_witness :
  exists p : FlipswitchProvider unit,
    NewProvider 0 "test-key" [WithBaseURL "http://localhost:8080//"] = Ok p
    /\ baseURL p = "http://localhost:8080/"
    /\ Sse.baseURL (NewSseClient (baseURL p) (apiKey p) true true)
       = "http://localhost:8080".
Proof.
  destruct (proj2 (base_url_trailing_slashes (U := unit) 0 "test-key"
    "http://localhost:8080" ltac:(discriminate)
    ltac:(intros t Ht;
          pose proof (f_equal (fun s => Strings.TrimSuffix s "/") Ht) as Ht2;
          cbv beta in Ht2; rewrite TrimSuffix_slash in Ht2;
          vm_compute in Ht2; subst t; vm_compute in Ht; discriminate Ht)))
    as (p & Hp & Hb & _ & Hs).
  exists p. split; [exact Hp|]. split; [exact Hb|exact Hs].
Defined.

Lemma NewProvider_settings_witness :
  exists p : FlipswitchProvider unit,
    NewProvider 0 "test-key"
      (map toOption [SetBaseURL "http://a.example/"; SetRealtime false;
                     SetBaseURL "http://b.example/"]) = Ok p
    /\ baseURL p = "http://b.example".
Proof.
  destruct (proj2 (NewProvider_settings (U := unit) 0 "test-key"
    [SetBaseURL "http://a.example/"; SetRealtime false;
     SetBaseURL "http://b.example/"]) ltac:(discriminate))
    as (p & Hp & _ & Hb & _).
  exists p. split; [exact Hp|]. rewrite Hb. reflexivity.
Defined.


(** *** Init, Shutdown, ReconnectSse *)

Section Calls.
Context {U : Type}.

Lemma validateAPIKey_accepted (v : Validation) :
  validateAPIKey v = None <-> accepted v.
Proof.
  destruct v as [msg|msg|code]; cbn [validateAPIKey accepted]; [done..|].
  destruct (Z.eqb_spec code 401) as [->|H1]; cbn [orb]; [split; [done|lia]|].
  destruct (Z.eqb_spec code 403) as [->|H3]; cbn [orb]; [split; [done|lia]|].
  destruct (code >=? 500) eqn:E.
  - split; [done|]. intros (Hc & _). apply Z.geb_le in E. lia.
  - split; [|done]. intros _.
    assert (~ 500 <= code) by (intros Hc; apply Z.geb_le in Hc; congruence).
    lia.
Qed.

Lemma startSseConnection_eq (g : Prog U) :
  startSseConnection g
  = (mkProg (set_sseClient (prov g) (Some (length (heap g))))
       (heap g ++ [Sse.mkSys (NewSseClient (baseURL (prov g)) (apiKey (prov g))
                                true true) [Sse.PcLoopTop]]),
     [OutSse (length (heap g)) Sse.OSpawn]).
Proof. reflexivity. Qed.

(** X15.  [Init] succeeds exactly when the validation request is
    answered with a status below 500 other than 401 and 403; so a 404
    or a 429 lets it pass.  A failed [Init] changes nothing and writes
    nothing.  A successful one marks the provider initialized and keeps
    its listeners; with realtime off it touches no SSE client, with
    realtime on it allocates one client for the provider's URL and key,
    makes it the current one and starts its goroutine, so that
    [GetSseStatus] reads Disconnected until the goroutine runs. *)
Theorem Init_outcome (v : Validation) (g : Prog U) :
  ((Init v g).1.1 = None <-> accepted v)
  /\ (~ accepted v -> (Init v g).1.2 = g /\ (Init v g).2 = [])
  /\ (accepted v ->
      Provider.initialized (core (prov (Init v g).1.2)) = true
      /\ Provider.flagChangeListeners (core (prov (Init v g).1.2))
         = Provider.flagChangeListeners (core (prov g))
      /\ (Provider.enableRealtime (core (prov g)) = false ->
          heap (Init v g).1.2 = heap g
          /\ sseClient (prov (Init v g).1.2) = sseClient (prov g)
          /\ (Init v g).2 = [OutInitialized false])
      /\ (Provider.enableRealtime (core (prov g)) = true ->
          sseClient (prov (Init v g).1.2) = Some (length (heap g))
          /\ heap (Init v g).1.2
             = heap g ++ [Sse.mkSys (NewSseClient (baseURL (prov g)) (apiKey (prov g))
                                      true true) [Sse.PcLoopTop]]
          /\ (Init v g).2 = [OutSse (length (heap g)) Sse.OSpawn; OutInitialized true]
          /\ GetSseStatus (Init v g).1.2 = StatusDisconnected)).
Proof.
  pose proof (validateAPIKey_accepted v) as Hv. unfold Init.
  destruct (validateAPIKey v) as [err|].
  - cbn [fst snd]. split; [split; [done|]|split; [done|]].
    + intros Ha. apply Hv in Ha. done.
    + intros Ha. apply Hv in Ha. done.
  - assert (Ha : accepted v) by by apply Hv.
    split; [|split; [done|]].
    { destruct (Provider.enableRealtime (core (prov g))); done. }
    intros _.
    destruct (Provider.enableRealtime (core (prov g))) eqn:Hrt.
    + rewrite startSseConnection_eq. cbn [fst snd prov heap].
      split; [done|]. split; [done|]. split; [done|]. intros _.
      split; [done|]. split; [done|]. split.
      * cbn. by rewrite Hrt.
      * unfold GetSseStatus. cbn [prov heap set_initialized set_core set_sseClient
          sseClient].
        by rewrite lookup_app_r, Nat.sub_diag by lia.
    + cbn [fst snd prov heap]. split; [done|]. split; [done|].
      split; [|done]. intros _. split; [done|]. split; [done|].
      cbn. by rewrite Hrt.
Qed.

Lemma closeClient_length (i : nat) (h : list Sse.Sys) :
  length (closeClient i h).1 = length h.
Proof.
  unfold closeClient. destruct (h !! i) as [s|]; [|done].
  destruct (Sse.Close s) as [s' o]. cbn. by rewrite length_insert.
Qed.


Lemma closeClient_other (i j : nat) (h : list Sse.Sys) :
  i <> j -> (closeClient i h).1 !! j = h !! j.
Proof.
  intros Hij. unfold closeClient. destruct (h !! i) as [s|]; [|done].
  destruct (Sse.Close s) as [s' o]. cbn. by rewrite list_lookup_insert_ne.
Qed.



End Calls.


(** *** Programs: calls of the provider interleaved with goroutine steps *)

Section Programs.
Context {U : Type} `{JsonUnmarshal}.

Lemma Init_cases (v : Validation) (g : Prog U) :
  (Init v g).1.2 = g
  \/ (Provider.enableRealtime (core (prov g)) = false
      /\ (Init v g).1.2 = mkProg (set_initialized (prov g) true) (heap g))
  \/ (Provider.enableRealtime (core (prov g)) = true
      /\ (Init v g).1.2
         = mkProg (set_initialized (set_sseClient (prov g) (Some (length (heap g))))
                     true)
             (heap g ++ [Sse.mkSys (NewSseClient (baseURL (prov g)) (apiKey (prov g))
                                      true true) [Sse.PcLoopTop]])).
Proof.
  unfold Init. destruct (validateAPIKey v); [by left|right].
  destruct (Provider.enableRealtime (core (prov g))); [right|left]; done.
Qed.

Lemma closedForGood_task_step (c c' : Sse.SseClient) (pc pc' : Sse.Pc)
    (e : Sse.Env) (os : list Sse.Obs) :
  Sse.task_step c pc e = Some (c', pc', os) ->
  Sse.closed c' = Sse.closed c /\ Sse.ctxDone c' = Sse.ctxDone c.
Proof.
  intros Hstep. destruct c as [bu ak th ofc osc stt rd cl cd].
  destruct pc, e; cbn [Sse.task_step] in Hstep; try discriminate.
  all: try solve
    [ destruct (Sse.connect_line _ _ _ _) as [[et' ed'] o];
      by injection Hstep as <- <- <- ].
  all: unfold Sse.connectLoop_onError, Sse.updateStatus, Sse.scheduleReconnect_enter,
         Sse.scheduleReconnect_wake, Sse.readLoop_head in Hstep; cbn in Hstep.
  all: repeat match type of Hstep with
       | context [if ?b then _ else _] => destruct b eqn:?; cbn in Hstep
       end; try discriminate.
  all: by injection Hstep as <- <- <-.
Qed.

Lemma closedForGood_sys_step (s s' : Sse.Sys) (i : nat) (e : Sse.Env)
    (os : list Sse.Obs) :
  closedForGood (Sse.client s) ->
  Sse.sys_step s (Sse.LTask i e) = Some (s', os) ->
  closedForGood (Sse.client s').
Proof.
  intros [Hcl Hctx] Hstep. cbn [Sse.sys_step] in Hstep.
  destruct (Sse.tasks s !! i) as [pc|]; [|done].
  destruct (Sse.task_step (Sse.client s) pc e) as [[[c' pc'] o]|] eqn:Ht; [|done].
  injection Hstep as <- <-. unfold closedForGood. cbn [Sse.client].
  destruct (closedForGood_task_step _ _ _ _ _ _ Ht) as [-> ->]. by split.
Qed.

Lemma closedForGood_Close (s : Sse.Sys) : closedForGood (Sse.client (Sse.Close s).1).
Proof.
  destruct s as [[bu ak th ofc osc stt rd cl cd] ts]. by split.
Qed.

Lemma shut_closeClient (i : nat) (h : list Sse.Sys) (k : nat) (s : Sse.Sys) :
  (closeClient i h).1 !! k = Some s ->
  (k = i /\ closedForGood (Sse.client s)) \/ (k <> i /\ h !! k = Some s).
Proof.
  intros Hk. destruct (decide (k = i)) as [->|Hne].
  - left. split; [done|]. unfold closeClient in Hk.
    destruct (h !! i) as [s0|] eqn:Hs0; [|cbn in Hk; congruence].
    pose proof (closedForGood_Close s0) as Hsh.
    destruct (Sse.Close s0) as [s' o]. cbn in Hk, Hsh.
    rewrite list_lookup_insert_eq in Hk by (by eapply lookup_lt_Some).
    by injection Hk as <-.
  - right. split; [done|]. by rewrite closeClient_other in Hk.
Qed.

Lemma Shutdown_cases (g : Prog U) :
  (Shutdown g).1
  = mkProg (set_initialized (set_sseClient (prov g) None) false)
      match sseClient (prov g) with
      | Some c => (closeClient c (heap g)).1
      | None => heap g
      end.
Proof.
  unfold Shutdown. destruct g as [[url key client ofrep k [c|]] h]; cbn.
  - by destruct (closeClient c h).
  - done.
Qed.

Lemma ReconnectSse_cases (g : Prog U) :
  (ReconnectSse g).1 = g
  \/ exists c,
       sseClient (prov g) = Some c
       /\ (ReconnectSse g).1
          = mkProg (set_sseClient (prov g)
                      (Some (length (closeClient c (heap g)).1)))
              ((closeClient c (heap g)).1
               ++ [Sse.mkSys (NewSseClient (baseURL (prov g)) (apiKey (prov g))
                                true true) [Sse.PcLoopTop]]).
Proof.
  unfold ReconnectSse.
  destruct (Provider.enableRealtime (core (prov g))); [|by left].
  destruct (sseClient (prov g)) as [c|] eqn:Hc; [|by left].
  right. exists c. split; [done|].
  destruct (closeClient c (heap g)) as [h' o]. by rewrite startSseConnection_eq.
Qed.

Lemma lookup_snoc_cases {A : Type} (l : list A) (x y : A) (i : nat) :
  (l ++ [x]) !! i = Some y -> l !! i = Some y \/ i = length l.
Proof.
  intros Hi. apply lookup_app_Some in Hi as [Hi | [Hge Hi]]; [by left|right].
  apply list_lookup_singleton_Some in Hi as [Hi _]. lia.
Qed.

Lemma step_inv (g g' : Prog U) (op : Op) :
  currentValid g -> othersShut g ->
  match op with OpInit _ => sseClient (prov g) = None | _ => True end ->
  step g op = Some g' ->
  currentValid g' /\ othersShut g'.
Proof.
  unfold currentValid, othersShut. intros Hcv Hos Hidle Hstep.
  destruct op as [v| | |i j e]; cbn [step] in Hstep.
  - injection Hstep as <-.
    destruct (Init_cases v g) as [-> | [(Hrt & ->) | (Hrt & ->)]]; [done| |];
      cbn [prov heap sseClient set_initialized set_core set_sseClient].
    + done.
    + split; [rewrite length_app; cbn; lia|].
      intros i s Hi Hne. apply lookup_snoc_cases in Hi as [Hi | ->].
      * apply (Hos i s Hi). by rewrite Hidle.
      * done.
  - injection Hstep as <-. rewrite Shutdown_cases.
    cbn [prov heap sseClient set_initialized set_core set_sseClient].
    split; [done|]. intros i s Hi _.
    destruct (sseClient (prov g)) as [c|] eqn:Hc.
    + apply shut_closeClient in Hi as [[_ Hsh] | [Hne Hi]]; [done|].
      apply (Hos i s Hi). congruence.
    + by apply (Hos i s Hi).
  - injection Hstep as <-.
    destruct (ReconnectSse_cases g) as [-> | (c & Hc & ->)]; [done|].
    cbn [prov heap sseClient set_initialized set_core set_sseClient].
    split; [rewrite length_app; cbn; lia|].
    intros i s Hi Hne. apply lookup_snoc_cases in Hi as [Hi | ->]; [|done].
    apply shut_closeClient in Hi as [[_ Hsh] | [Hne' Hi]]; [done|].
    apply (Hos i s Hi). congruence.
  - destruct (heap g !! i) as [s|] eqn:Hs; [|done].
    destruct (Sse.sys_step s (Sse.LTask j e)) as [[s' o]|] eqn:Hst; [|done].
    injection Hstep as <-. cbn [prov heap]. rewrite length_insert.
    split; [done|]. intros k sk Hk Hne.
    destruct (decide (k = i)) as [->|Hki].
    + rewrite list_lookup_insert_eq in Hk by (by eapply lookup_lt_Some).
      injection Hk as <-.
      exact (closedForGood_sys_step s s' j e o (Hos i s Hs Hne) Hst).
    + rewrite list_lookup_insert_ne in Hk by done. by apply (Hos k sk).
Qed.

Lemma steps_inv (ops : list Op) :
  forall g g' : Prog U,
  currentValid g -> othersShut g ->
  initWhenIdle g ops ->
  steps g ops = Some g' ->
  currentValid g' /\ othersShut g'.
Proof.
  induction ops as [|op ops IH]; intros g g' Hcv Hos Hidle Hsteps.
  - cbn in Hsteps. by injection Hsteps as <-.
  - cbn [steps initWhenIdle] in Hsteps, Hidle. destruct Hidle as [Hop Hrest].
    destruct (step g op) as [g1|] eqn:Hstep; [|done].
    destruct (step_inv g g1 op Hcv Hos Hop Hstep) as [Hcv1 Hos1].
    by apply (IH g1 g').
Qed.

(** X18.  A provider keeps at most one SSE client open.  Start with
    no client and let [Init], [Shutdown], [ReconnectSse] and goroutine
    steps follow each other in any order, [Init] being called only
    while no client is current: then every client other than the
    current one has its closed flag set and its context cancelled, and
    stays so, and after a final [Shutdown] that holds of every client
    the provider ever created.  (The status of such a client is not
    part of the statement: a goroutine that has passed the closed test
    can still write it.) *)
Theorem one_open_client (p : FlipswitchProvider U) (ops : list Op) (g : Prog U) :
  sseClient p = None ->
  initWhenIdle (boot p) ops ->
  steps (boot p) ops = Some g ->
  (forall i s, heap g !! i = Some s -> sseClient (prov g) <> Some i ->
               Sse.closed (Sse.client s) = true /\ Sse.ctxDone (Sse.client s) = true)
  /\ (forall i, sseClient (prov g) = Some i -> is_Some (heap g !! i))
  /\ (forall i s, heap (Shutdown g).1 !! i = Some s ->
                  Sse.closed (Sse.client s) = true
                  /\ Sse.ctxDone (Sse.client s) = true).
Proof.
  intros Hnone Hidle Hsteps.
  assert (Hcv0 : currentValid (boot p)) by (unfold currentValid; cbn; by rewrite Hnone).
  assert (Hos0 : othersShut (boot p)) by (intros i s Hi; cbn in Hi; done).
  destruct (steps_inv ops _ _ Hcv0 Hos0 Hidle Hsteps) as [Hcv Hos].
  split; [exact Hos|]. split.
  - intros i Hi. unfold currentValid in Hcv. rewrite Hi in Hcv.
    by apply lookup_lt_is_Some.
  - destruct (step_inv g (Shutdown g).1 OpShutdown Hcv Hos I eq_refl) as [_ Hos'].
    intros i s Hi. apply (Hos' i s Hi). by rewrite Shutdown_cases.
Qed.

(** X19.  [Init] is not guarded against a second call: with realtime
    on, two successful calls in a row allocate two clients, and the
    [Shutdown] that follows closes only the second.  The first client
    is left open with its goroutine running and nothing refers to it
    any more. *)
Theorem Init_twice_leaks (v1 v2 : Validation) (g : Prog U) :
  accepted v1 -> accepted v2 ->
  Provider.enableRealtime (core (prov g)) = true ->
  exists s,
    heap (Shutdown (Init v2 (Init v1 g).1.2).1.2).1 !! length (heap g) = Some s
    /\ Sse.closed (Sse.client s) = false
    /\ Sse.liveTasks s = 1%nat
    /\ sseClient (prov (Shutdown (Init v2 (Init v1 g).1.2).1.2).1) = None
    /\ length (heap (Shutdown (Init v2 (Init v1 g).1.2).1.2).1)
       = (length (heap g) + 2)%nat.
Proof.
  intros Ha1 Ha2 Hrt.
  assert (E1 : (Init v1 g).1.2
     = mkProg (set_initialized (set_sseClient (prov g) (Some (length (heap g)))) true)
         (heap g ++ [Sse.mkSys (NewSseClient (baseURL (prov g)) (apiKey (prov g))
                                  true true) [Sse.PcLoopTop]])).
  { unfold Init. apply validateAPIKey_accepted in Ha1. rewrite Ha1, Hrt.
    by rewrite startSseConnection_eq. }
  rewrite E1.
  set (g1 := mkProg _ _).
  assert (E2 : (Init v2 g1).1.2
     = mkProg (set_initialized (set_sseClient (prov g1) (Some (length (heap g1)))) true)
         (heap g1 ++ [Sse.mkSys (NewSseClient (baseURL (prov g1)) (apiKey (prov g1))
                                   true true) [Sse.PcLoopTop]])).
  { unfold Init. apply validateAPIKey_accepted in Ha2. rewrite Ha2.
    subst g1. cbn [prov heap core set_initialized set_core set_sseClient
                   Provider.enableRealtime]. rewrite Hrt.
    by rewrite startSseConnection_eq. }
  rewrite E2, Shutdown_cases.
  cbn [prov heap sseClient set_initialized set_core set_sseClient].
  set (c1 := Sse.mkSys (NewSseClient (baseURL (prov g)) (apiKey (prov g)) true true)
               [Sse.PcLoopTop]).
  assert (Hl1 : length (heap g1) = S (length (heap g))).
  { subst g1. cbn [heap]. rewrite length_app. cbn. lia. }
  assert (H1 : heap g1 !! length (heap g) = Some c1).
  { subst g1. cbn [heap]. by rewrite lookup_app_r, Nat.sub_diag by lia. }
  exists c1. split; [|split; [done|split; [done|split; [done|]]]].
  - rewrite closeClient_other by lia.
    by rewrite lookup_app_l by lia.
  - rewrite closeClient_length, length_app, Hl1. cbn [length]. lia.
Qed.

(** X20.  With realtime off no SSE client ever exists: however
    [Init], [Shutdown] and [ReconnectSse] are called on a provider
    that starts without a client, none is allocated, no goroutine step
    is possible, and [GetSseStatus] reads Disconnected throughout. *)
Theorem realtime_off_no_client (p : FlipswitchProvider U) (ops : list Op)
    (g : Prog U) :
  sseClient p = None ->
  Provider.enableRealtime (core p) = false ->
  steps (boot p) ops = Some g ->
  heap g = []
  /\ sseClient (prov g) = None
  /\ Provider.enableRealtime (core (prov g)) = false
  /\ GetSseStatus g = StatusDisconnected
  /\ Forall (fun op => match op with OpClient _ _ _ => False | _ => True end) ops.
Proof.
  intros Hnone Hrt Hsteps.
  assert (Hgen : forall ops (g0 g : Prog U),
            heap g0 = [] -> sseClient (prov g0) = None ->
            Provider.enableRealtime (core (prov g0)) = false ->
            steps g0 ops = Some g ->
            (heap g = [] /\ sseClient (prov g) = None
             /\ Provider.enableRealtime (core (prov g)) = false)
            /\ Forall (fun op => match op with OpClient _ _ _ => False | _ => True end)
                      ops).
  { clear. intros ops. induction ops as [|op ops IH]; intros g0 g Hh Hc Hr Hs.
    - cbn in Hs. injection Hs as <-. split; [done|]. apply Forall_nil_2.
    - cbn [steps] in Hs. destruct (step g0 op) as [g1|] eqn:Hst; [|done].
      assert (Hg1 : (heap g1 = [] /\ sseClient (prov g1) = None
                     /\ Provider.enableRealtime (core (prov g1)) = false)
                    /\ match op with OpClient _ _ _ => False | _ => True end).
      { destruct op as [v| | |i j e]; cbn [step] in Hst.
        - injection Hst as <-.
          destruct (Init_cases v g0) as [-> | [(_ & ->) | (Hrt & _)]];
            [done| |congruence].
          destruct g0 as [[url key client ofrep [rt ls ini] sse] h]. cbn in *. done.
        - injection Hst as <-. rewrite Shutdown_cases, Hc.
          destruct g0 as [[url key client ofrep [rt ls ini] sse] h]. cbn in *. done.
        - injection Hst as <-.
          destruct (ReconnectSse_cases g0) as [-> | (c & Hc' & _)];
            [done|congruence].
        - by rewrite Hh in Hst. }
      destruct Hg1 as [(Hh1 & Hc1 & Hr1) Hop].
      destruct (IH g1 g Hh1 Hc1 Hr1 Hs) as [Hg Hall].
      split; [done|]. by apply Forall_cons. }
  destruct (Hgen ops (boot p) g eq_refl Hnone Hrt Hsteps) as [(Hh & Hc & Hr) Hall].
  split; [done|]. split; [done|]. split; [done|]. split; [|done].
  unfold GetSseStatus. by rewrite Hc.
Qed.

End Programs.

Lemma Init_outcome_witness :
  let p : FlipswitchProvider unit :=
    mkProvider "http://localhost" "test-key" 0 None
      (Provider.mkProvider true [] false) None in
  (Init (VStatus 404) (boot p)).1.1 = None
  /\ (Init (VStatus 401) (boot p)).1.2 = boot p.
Proof.
  intros p. split.
  - apply (proj2 (proj1 (Init_outcome (VStatus 404) (boot p)))). cbn. lia.
  - refine (proj1 (proj1 (proj2 (Init_outcome (VStatus 401) (boot p))) _)).
    cbn. lia.
Defined.



Lemma one_open_client_witness :
  let p : FlipswitchProvider unit :=
    mkProvider "http://localhost" "test-key" 0 None
      (Provider.mkProvider true [] false) None in
  let ops := [OpInit (VStatus 200); OpClient 0 0 (Sse.ERequest []);
              OpReconnectSse; OpClient 0 0 (Sse.EDoErr "cancelled");
              OpShutdown] in
  exists g,
    steps (H := Json.reference) (boot p) ops = Some g
    /\ forall i s, heap (Shutdown g).1 !! i = Some s ->
                   Sse.closed (Sse.client s) = true
                   /\ Sse.ctxDone (Sse.client s) = true.
Proof.
  intros p ops. eexists. split; [reflexivity|].
  refine (proj2 (proj2 (one_open_client (H := Json.reference) p ops _ _ _ _))).
  - reflexivity.
  - cbn. repeat split.
  - reflexivity.
Defined.

Lemma Init_twice_leaks_witness :
  let p : FlipswitchProvider unit :=
    mkProvider "http://localhost" "test-key" 0 None
      (Provider.mkProvider true [] false) None in
  exists s,
    heap (Shutdown (Init (VStatus 200) (Init (VStatus 404) (boot p)).1.2).1.2).1 !! 0%nat
    = Some s
    /\ Sse.closed (Sse.client s) = false.
Proof.
  intros p.
  destruct (Init_twice_leaks (VStatus 404) (VStatus 200) (boot p))
    as (s & Hs & Hc & _).
  - cbn. lia.
  - cbn. lia.
  - reflexivity.
  - exists s. split; [exact Hs|exact Hc].
Defined.

Lemma realtime_off_no_client_witness :
  let p : FlipswitchProvider unit :=
    mkProvider "http://localhost" "test-key" 0 None
      (Provider.mkProvider false [] false) None in
  let ops := [OpInit (VStatus 200); OpReconnectSse; OpShutdown; OpInit (VStatus 200)] in
  exists g,
    steps (H := Json.reference) (boot p) ops = Some g /\ heap g = [].
Proof.
  intros p ops. eexists. split; [reflexivity|].
  refine (proj1 (realtime_off_no_client (H := Json.reference) p ops _ _ _ _));
    reflexivity.
Defined.

End LifecycleFacts.

(** ** provider.go: the listener registry and the status handler *)

Module ProviderMoreFacts.
Import Provider ProviderTrace.

Section WithState.
Context {U : Type}.

Lemma handleFlagChange_fold (p : FlipswitchProvider U) (event : FlagChangeEvent)
    (w : World U) :
  handleFlagChange p event w
  = (Returned tt, fold_left (runIsolated event) (flagChangeListeners p) w).
Proof. apply ProviderFacts.forRange_isolated. Qed.

(** X21.  [AddFlagChangeListener] puts the handler at the end: on an
    event the new listener runs after all earlier ones, on the world
    they left, and nothing else about the provider changes.  There is
    no check for duplicates: a handler added twice runs twice for
    each event. *)
Theorem AddFlagChangeListener_runs_last (p : FlipswitchProvider U)
    (handler : FlagChangeHandler U) (event : FlagChangeEvent) (w : World U) :
  handleFlagChange (AddFlagChangeListener p handler) event w
  = (Returned tt, runIsolated event (handleFlagChange p event w).2 handler)
  /\ handleFlagChange
       (AddFlagChangeListener (AddFlagChangeListener p handler) handler) event w
     = (Returned tt,
        runIsolated event
          (runIsolated event (handleFlagChange p event w).2 handler) handler)
  /\ enableRealtime (AddFlagChangeListener p handler) = enableRealtime p
  /\ initialized (AddFlagChangeListener p handler) = initialized p.
Proof.
  rewrite !handleFlagChange_fold. cbn [AddFlagChangeListener flagChangeListeners snd].
  rewrite !fold_left_app. cbn [fold_left]. done.
Qed.

(** X22.  Only flag changes reach the listeners.  Whatever else the
    SSE client does (status changes, log lines, requests, waits) is
    delivered without running a listener: the application's state is
    left as it was, the call returns, and the log gains exactly the
    client's own lines plus one line for each Error and each Connected
    status. *)
Theorem only_flag_changes_reach_listeners (p : FlipswitchProvider U)
    (os : list Sse.Obs) (w : World U) :
  Sse.flagChanges os = [] ->
  deliverAll p os w = (Returned tt, mkWorld (logs w ++ omap logOf os) (ustate w)).
Proof.
  revert w. induction os as [|o os IH]; intros w Hfc.
  - cbn. rewrite app_nil_r. by destruct w.
  - unfold deliverAll in *. cbn [forRange]. unfold bind.
    destruct o as [st|ev|m|url h|d|]; cbn [deliver].
    + unfold Sse.flagChanges in Hfc. cbn [omap list_omap] in Hfc.
      destruct st; cbn [handleStatusChange logOf omap list_omap];
        unfold logPrintf, ret; rewrite (IH _ Hfc); cbn [logs ustate];
        rewrite <- ?app_assoc; done.
    + unfold Sse.flagChanges in Hfc. cbn [omap list_omap] in Hfc. done.
    + unfold Sse.flagChanges in Hfc. cbn [omap list_omap] in Hfc.
      unfold logPrintf. rewrite (IH _ Hfc). cbn [logs ustate logOf omap list_omap].
      by rewrite <- app_assoc.
    + unfold ret. apply IH. exact Hfc.
    + unfold ret. apply IH. exact Hfc.
    + unfold ret. apply IH. exact Hfc.
Qed.

End WithState.

Lemma AddFlagChangeListener_runs_last_witness :
  let count : FlagChangeHandler nat :=
    fun _ w => (Returned tt, mkWorld (logs w) (S (ustate w))) in
  let p : FlipswitchProvider nat := mkProvider true [] true in
  handleFlagChange (AddFlagChangeListener (AddFlagChangeListener p count) count)
    (mkFlagChangeEvent "beta" "2024-03-15T10:30:00Z") (mkWorld [] 0%nat)
  = (Returned tt, mkWorld [] 2%nat).
Proof.
  intros count p.
  exact (proj1 (proj2 (AddFlagChangeListener_runs_last p count
    (mkFlagChangeEvent "beta" "2024-03-15T10:30:00Z") (mkWorld [] 0%nat)))).
Defined.

Lemma only_flag_changes_reach_listeners_witness :
  let p : FlipswitchProvider nat :=
    mkProvider true [fun _ w => (Returned tt, mkWorld (logs w) (S (ustate w)))] true in
  deliverAll p [Sse.OStatus StatusConnecting; Sse.OStatus StatusError;
                Sse.OLog (Sse.LogScheduling 1000000000)] (mkWorld [] 0%nat)
  = (Returned tt, mkWorld [LStale; LSse (Sse.LogScheduling 1000000000)] 0%nat).
Proof.
  intros p.
  exact (only_flag_changes_reach_listeners p
    [Sse.OStatus StatusConnecting; Sse.OStatus StatusError;
     Sse.OLog (Sse.LogScheduling 1000000000)] (mkWorld [] 0%nat) eq_refl).
Defined.

End ProviderMoreFacts.

(** ** The SSE client at the grain of its lock sections *)

Module SseFineFacts.
Import Sse SseFine.

(** Inversion of one fine step. *)
Ltac point_inv Hstep :=
  cbn [point_step] in Hstep;
  repeat match type of Hstep with
         | context [if ?b then _ else _] => destruct b eqn:?
         | context [connect_line ?c ?et ?ed ?raw] =>
           destruct (connect_line c et ed raw) as [[? ?] ?] eqn:?
         end;
  try discriminate;
  injection Hstep as <- <- <-.

Section Fine.
Context `{JsonUnmarshal}.

Lemma exec_app (ms1 ms2 : list Move) :
  forall s : Threads,
  exec s (ms1 ++ ms2)
  = match exec s ms1 with
    | Some (s1, o1) =>
      match exec s1 ms2 with
      | Some (s2, o2) => Some (s2, o1 ++ o2)
      | None => None
      end
    | None => None
    end.
Proof.
  induction ms1 as [|m ms1 IH]; intros s.
  - cbn. by destruct (exec s ms2) as [[s2 o2]|].
  - cbn [app exec]. destruct (move s m) as [[s1 o1]|]; [|done].
    rewrite IH. destruct (exec s1 ms1) as [[s2 o2]|]; [|done].
    destruct (exec s2 ms2) as [[s3 o3]|]; [|done].
    by rewrite app_assoc.
Qed.

(** *** The steps of [Sse.task_step] are executions *)

(** X25.  Every step of the goroutine state machine [Sse.task_step]
    (the code between two blocking calls taken as one step) is an
    execution of the same goroutine at the grain of the lock sections:
    some sequence of answers takes the thread from the same point to
    the same point, with the same client state and the same
    observations in the same order.  [Close] is the four steps of its
    caller, and [Connect] is the test of its caller followed, on an
    open client, by the [go] statement. *)
Theorem task_step_is_execution (c : SseClient) :
  (forall pc e c' pc' o,
     task_step c pc e = Some (c', pc', o) ->
     exists ans, alone c (pointOf pc) ans = Some (c', pointOf pc', o))
  /\ (forall ts,
        alone c AtCloseFlag [None; None; None; None]
        = Some (client (Close (mkSys c ts)).1, AtEnd, (Close (mkSys c ts)).2))
  /\ (forall ts,
        if closed c
        then alone c AtConnectTest [None] = Some (c, AtEnd, (Connect (mkSys c ts)).2)
        else alone c AtConnectTest [None; None]
             = Some (c, AtEnd, (Connect (mkSys c ts)).2)
             /\ alone c AtConnectTest [None] = Some (c, AtConnectGo, [])
             /\ spawned AtConnectGo = [AtLoopTop]).
Proof.
  split; [|split].
  - intros pc e c' pc' o Hstep.
    destruct c as [bu ak th ofc osc stt rd cl cd].
    destruct pc, e; cbn [task_step] in Hstep; try discriminate;
      cbn [closed ctxDone telemetryHeaders] in Hstep.
    + (* loop head, NewRequest fails *)
      destruct cl.
      * injection Hstep as <- <- <-. by exists [None].
      * exists [None; None; None; Some (ENewRequestErr msg); None; None; None; None;
                None; None].
        unfold connectLoop_onError, updateStatus, scheduleReconnect_enter in Hstep.
        cbn in Hstep. injection Hstep as <- <- <-. cbn.
        destruct osc; reflexivity.
    + (* loop head, request sent *)
      destruct cl.
      * injection Hstep as <- <- <-. by exists [None].
      * destruct (bool_decide (order ≡ₚ map_to_list th)) eqn:Hord; [|done].
        exists [None; None; None; Some (ERequest order)].
        unfold updateStatus in Hstep. cbn in Hstep. injection Hstep as <- <- <-.
        cbn. rewrite Hord. destruct osc; reflexivity.
    + (* Do fails *)
      unfold connectLoop_onError, updateStatus, scheduleReconnect_enter in Hstep.
      cbn in Hstep. destruct cl; cbn in Hstep; injection Hstep as <- <- <-.
      * by exists [Some (EDoErr msg); None].
      * exists [Some (EDoErr msg); None; None; None; None; None; None].
        cbn. destruct osc; reflexivity.
    + (* Do returns a response *)
      destruct cd; [done|].
      destruct (negb (code =? Http.StatusOK)) eqn:Hcode.
      * unfold connectLoop_onError, updateStatus, scheduleReconnect_enter in Hstep.
        cbn in Hstep. destruct cl; cbn in Hstep; injection Hstep as <- <- <-.
        -- exists [Some (EResponse code); None]. cbn. by rewrite Hcode.
        -- exists [Some (EResponse code); None; None; None; None; None; None].
           cbn. rewrite Hcode. cbn. destruct osc; reflexivity.
      * unfold updateStatus, readLoop_head in Hstep. cbn in Hstep.
        injection Hstep as <- <- <-.
        exists [Some (EResponse code); None; None; None; None; None].
        cbn. rewrite Hcode. cbn. destruct osc; reflexivity.
    + (* a line *)
      destruct (connect_line _ _ _ _) as [[et' ed'] o'] eqn:Hl.
      injection Hstep as <- <- <-.
      exists [Some (ELine raw); None]. cbn. rewrite Hl. cbn.
      unfold readLoop_head. cbn. rewrite app_nil_r. by destruct cd.
    + (* ReadString fails *)
      unfold updateStatus, scheduleReconnect_enter in Hstep. cbn in Hstep.
      destruct cl; cbn in Hstep; injection Hstep as <- <- <-.
      * by exists [Some EReadErr; None].
      * exists [Some EReadErr; None; None; None; None; None; None].
        cbn. destruct osc; reflexivity.
    + (* the timer fires *)
      unfold scheduleReconnect_wake in Hstep. cbn in Hstep.
      exists [Some ETimer; None]. cbn. unfold doubleDelay. cbn.
      repeat match type of Hstep with
             | context [if ?b then _ else _] => destruct b eqn:?; cbn in Hstep
             end; by injection Hstep as <- <- <-.
    + (* the context is cancelled *)
      destruct cd; [|done]. unfold scheduleReconnect_wake in Hstep. cbn in Hstep.
      injection Hstep as <- <- <-. by exists [Some ECtxDone].
  - intros ts. destruct c as [bu ak th ofc osc stt rd cl cd].
    unfold Close, updateStatus. cbn. by destruct osc.
  - intros ts. destruct c as [bu ak th ofc osc stt rd cl cd].
    unfold Connect. cbn. by destruct cl.
Qed.

(** *** What [Close] settles and what it does not *)

Lemma point_step_flags (c c' : SseClient) (p p' : Point) (a : option Env)
    (o : list Obs) :
  point_step c p a = Some (c', p', o) ->
  (closed c = true -> closed c' = true)
  /\ (ctxDone c = true -> ctxDone c' = true)
  /\ (p <> AtCloseFlag -> closed c' = closed c)
  /\ (p <> AtCloseCancel -> ctxDone c' = ctxDone c).
Proof.
  intros Hstep. destruct c as [bu ak th ofc osc stt rd cl cd].
  destruct p, a as [[]|]; try discriminate; point_inv Hstep;
    unfold doubleDelay; cbn;
    repeat match goal with
           | |- context [if ?b then _ else _] => destruct b
           end; cbn; done.
Qed.

Lemma committed_insert (l : list Point) (i : nat) (p p' : Point) :
  l !! i = Some p ->
  (length (filter (fun q => committed q = true) (<[i:=p']> l))
   + (if committed p then 1 else 0)
   = length (filter (fun q => committed q = true) l)
     + (if committed p' then 1 else 0))%nat.
Proof.
  revert i. induction l as [|q l IH]; intros i Hi; [done|].
  destruct i as [|i].
  - cbn in Hi. injection Hi as ->. cbn [insert list_insert].
    rewrite !filter_cons.
    destruct (decide (committed p' = true)) as [->|Hp'];
      destruct (decide (committed p = true)) as [->|Hp]; cbn [length].
    + lia.
    + destruct (committed p); [done|]. lia.
    + destruct (committed p'); [done|]. lia.
    + destruct (committed p); [done|]. destruct (committed p'); [done|]. lia.
  - cbn in Hi. cbn [insert list_insert]. specialize (IH i Hi).
    rewrite !filter_cons. destruct (decide (committed q = true)); cbn [length].
    + cbn [Nat.add]. by f_equal.
    + exact IH.
Qed.

Lemma committed_snoc (l : list Point) (q : Point) :
  committed q = false ->
  length (filter (fun p => committed p = true) (l ++ [q]))
  = length (filter (fun p => committed p = true) l).
Proof.
  intros Hq. rewrite filter_app, length_app, filter_cons.
  rewrite decide_False by congruence. cbn. lia.
Qed.

Lemma committed_spawned (l : list Point) (p : Point) :
  length (filter (fun q => committed q = true) (l ++ spawned p))
  = length (filter (fun q => committed q = true) l).
Proof.
  destruct p; cbn [spawned]; rewrite ?app_nil_r; try reflexivity.
  by apply committed_snoc.
Qed.

Lemma point_step_committed (c c' : SseClient) (p p' : Point) (a : option Env)
    (o : list Obs) :
  closed c = true ->
  point_step c p a = Some (c', p', o) ->
  (length (requests o) + (if committed p' then 1 else 0)
   <= (if committed p then 1 else 0))%nat.
Proof.
  intros Hcl Hstep. destruct c as [bu ak th ofc osc stt rd cl cd].
  cbn in Hcl. subst cl.
  destruct p as [| | |st k|st k| | | | | | | | | | | | | | | | |], a as [[]|];
    try discriminate; point_inv Hstep; cbn;
    try destruct k; cbn; try lia.
  all: match goal with
       | H : connect_line _ _ _ _ = (_, _, ?o) |- _ =>
         apply SseFacts.connect_line_eventOnly in H;
         assert (Hreq : requests o = [])
       end.
  1:{ clear -Heqp. unfold requests.
      induction Heqp as [|x l Hx Hl IH]; [done|].
      cbn. by destruct x. }
  rewrite Hreq. cbn. lia.
Qed.

(** X26.  What [Close] settles at every interleaving: once the closed
    flag is set it stays set, and so does the cancellation of the
    context; no goroutine passes the closed test of [connectLoop] any
    more, so the requests issued from then on are at most as many as
    the goroutines that had already passed that test and not yet
    called [Do].  If there is none, no request is ever issued again. *)
Theorem closed_bounds_attempts (ms : list Move) :
  forall (s s' : Threads) (os : list Obs),
  closed (shared s) = true ->
  exec s ms = Some (s', os) ->
  closed (shared s') = true
  /\ (ctxDone (shared s) = true -> ctxDone (shared s') = true)
  /\ (length (requests os) + committedThreads s' <= committedThreads s)%nat.
Proof.
  induction ms as [|m ms IH]; intros s s' os Hcl Hexec.
  - cbn in Hexec. injection Hexec as <- <-. cbn. split; [done|]. split; [done|lia].
  - cbn [exec] in Hexec.
    destruct (move s m) as [[s1 o1]|] eqn:Hmove; [|done].
    destruct (exec s1 ms) as [[s2 o2]|] eqn:Hrest; [|done].
    injection Hexec as <- <-.
    assert (Hone : closed (shared s1) = true
              /\ (ctxDone (shared s) = true -> ctxDone (shared s1) = true)
              /\ (length (requests o1) + committedThreads s1
                  <= committedThreads s)%nat).
    { unfold committedThreads. destruct m as [| |i a]; cbn [move] in Hmove.
      - injection Hmove as <- <-. cbn [shared threads].
        rewrite committed_snoc by done. cbn. split; [done|]. split; [done|lia].
      - injection Hmove as <- <-. cbn [shared threads].
        rewrite committed_snoc by done. cbn. split; [done|]. split; [done|lia].
      - destruct (threads s !! i) as [p|] eqn:Hp; [|done].
        destruct (point_step (shared s) p a) as [[[c' p'] o]|] eqn:Hstep; [|done].
        injection Hmove as <- <-. cbn [shared threads].
        destruct (point_step_flags _ _ _ _ _ _ Hstep) as (Hc & Hx & _).
        split; [by apply Hc|]. split; [exact Hx|].
        pose proof (point_step_committed _ _ _ _ _ _ Hcl Hstep) as Hpot.
        pose proof (committed_insert _ i p p' Hp) as Hins.
        rewrite committed_spawned. lia. }
    destruct Hone as (Hcl1 & Hx1 & Hpot1).
    destruct (IH s1 s2 o2 Hcl1 Hrest) as (Hcl2 & Hx2 & Hpot2).
    split; [done|]. split; [by intros ?; apply Hx2, Hx1|].
    unfold requests in *. rewrite omap_app, length_app. lia.
Qed.

Lemma stepsLeft_insert (l : list Point) (i : nat) (p p' : Point) :
  l !! i = Some p ->
  (sum_list_with stepsLeft (<[i:=p']> l) + stepsLeft p
   = sum_list_with stepsLeft l + stepsLeft p')%nat.
Proof.
  revert i. induction l as [|q l IH]; intros i Hi; [done|].
  destruct i as [|i]; cbn in Hi.
  - injection Hi as ->. change (<[0%nat:=p']> (p :: l)) with (p' :: l).
    cbn [sum_list_with]. lia.
  - specialize (IH i Hi). change (<[S i:=p']> (q :: l)) with (q :: <[i:=p']> l).
    cbn [sum_list_with]. lia.
Qed.

Lemma point_step_winds_down (c c' : SseClient) (p p' : Point) (a : option Env)
    (o : list Obs) :
  closed c = true -> ctxDone c = true ->
  point_step c p a = Some (c', p', o) ->
  (S (stepsLeft p' + sum_list_with stepsLeft (spawned p)) <= stepsLeft p)%nat.
Proof.
  intros Hcl Hctx Hstep. destruct c as [bu ak th ofc osc stt rd cl cd].
  cbn in Hcl, Hctx. subst cl cd.
  destruct p as [| | |st k|st k| | | | | | | | | | | | | | | | |], a as [[]|];
    try discriminate; point_inv Hstep; cbn; try destruct k; cbn; lia.
Qed.

Lemma point_step_possible (c : SseClient) (p : Point) :
  ctxDone c = true -> p <> AtEnd -> exists a r, point_step c p a = Some r.
Proof.
  intros Hctx Hp.
  destruct p; try done; cbn [point_step];
    first [ by eexists None, _
          | by exists (Some (ENewRequestErr "")); eexists
          | by exists (Some (EDoErr "")); eexists
          | by exists (Some EReadErr); eexists
          | exists (Some ECtxDone); rewrite Hctx; by eexists ].
Qed.

(** X27.  After [Close] every thread returns.  Once the flag is set
    and the context cancelled, however the remaining steps of the
    goroutines and callers are interleaved and whatever the world
    answers, each step uses up one of the steps left, of which a
    thread has at most ten; and a thread that has not returned is
    never stuck: some answer lets it take its next step. *)
Theorem closed_client_winds_down (ms : list Move) :
  forall (s s' : Threads) (os : list Obs),
  closed (shared s) = true -> ctxDone (shared s) = true ->
  Forall isStep ms ->
  exec s ms = Some (s', os) ->
  (length ms + totalStepsLeft s' <= totalStepsLeft s)%nat
  /\ (totalStepsLeft s <= 10 * length (threads s))%nat
  /\ (forall i p, threads s' !! i = Some p -> p <> AtEnd ->
                  exists a r, move s' (MStep i a) = Some r).
Proof.
  assert (Hbound : forall l : list Point,
            (sum_list_with stepsLeft l <= 10 * length l)%nat).
  { induction l as [|q l IH]; [done|]. cbn [sum_list_with length].
    assert (stepsLeft q <= 10)%nat by (destruct q as [| | |? []|? []| | | | | | | | | | | | | | | | |]; cbn; lia).
    lia. }
  induction ms as [|m ms IH]; intros s s' os Hcl Hctx Hms Hexec.
  - cbn in Hexec. injection Hexec as <- <-. cbn [length].
    split; [lia|]. split; [apply Hbound|].
    intros i p Hi Hp. destruct (point_step_possible (shared s) p Hctx Hp) as (a & r & Hr).
    exists a. cbn [move]. rewrite Hi, Hr. destruct r as [[c' p'] o]. by eexists.
  - apply Forall_cons in Hms as [Hm Hms]. cbn [exec] in Hexec.
    destruct m as [| |i a]; [done..|]. cbn [move] in Hexec.
    destruct (threads s !! i) as [p|] eqn:Hp; [|done].
    destruct (point_step (shared s) p a) as [[[c1 p1] o1]|] eqn:Hstep; [|done].
    destruct (exec _ ms) as [[s2 o2]|] eqn:Hrest; [|done].
    injection Hexec as <- <-.
    destruct (point_step_flags _ _ _ _ _ _ Hstep) as (Hc & Hx & _).
    destruct (IH (mkThreads c1 (<[i:=p1]> (threads s) ++ spawned p)) _ _
                (Hc Hcl) (Hx Hctx) Hms Hrest) as (Hlen & _ & Hprog).
    split; [|split; [apply Hbound|exact Hprog]].
    pose proof (point_step_winds_down _ _ _ _ _ _ Hcl Hctx Hstep) as Hdown.
    pose proof (stepsLeft_insert _ i p p1 Hp) as Hins.
    unfold totalStepsLeft in *. cbn [threads] in Hlen.
    rewrite sum_list_with_app in Hlen. cbn [length]. lia.
Qed.

(** *** Statuses written and statuses reported *)

Lemma single_writer_step (c c' : SseClient) (p p' : Point) (a : option Env)
    (o pre : list Obs) :
  onStatusChange c = true ->
  loopPoint p = true ->
  status c = expectedStatus p pre ->
  point_step c p a = Some (c', p', o) ->
  onStatusChange c' = true /\ loopPoint p' = true
  /\ status c' = expectedStatus p' (pre ++ o).
Proof.
  intros Hcb Hlp Hst Hstep. destruct c as [bu ak th ofc osc stt rd cl cd].
  cbn in Hcb, Hst. subst osc.
  assert (Hlast : forall st, default StatusDisconnected
                    (last (statuses (pre ++ [OStatus st]))) = st).
  { intros st. unfold statuses. rewrite omap_app. cbn. by rewrite last_snoc. }
  destruct p as [| | |st k|st k| | | | | | | | | | | | | | | | |], a as [[]|];
    try discriminate; point_inv Hstep; unfold doubleDelay;
    cbn [expectedStatus] in Hst; cbn;
    rewrite ?app_nil_r;
    try (destruct k; try discriminate Hlp; cbn; rewrite ?Hlast; by subst);
    repeat match goal with
           | |- context [if ?b then _ else _] => destruct b
           end; cbn;
    try (split; [done|split; [done|]]);
    try exact Hst;
    try (unfold statuses; rewrite omap_app; cbn; rewrite ?app_nil_r; exact Hst).
  match goal with
  | Hl : connect_line _ _ _ _ = (_, _, ?o) |- _ =>
    apply SseFacts.connect_line_eventOnly, SseFacts.eventOnly_statuses in Hl;
    unfold statuses in *; rewrite omap_app, Hl, app_nil_r; exact Hst
  end.
Qed.

(** X4.  While a single goroutine runs the client and nobody calls
    [Close], [GetStatus] returns the status passed to the callback
    last, and Disconnected before the first call; the one exception is
    the moment between the write and the call in [updateStatus], when
    [GetStatus] already returns the status about to be reported.
    (With a second writer this is lost: the write and the call are not
    one action, see [reports_can_cross].) *)
Theorem GetStatus_single_goroutine (b a : string) (t : gmap string string)
    (f1 : bool) (ms : list Move) (s' : Threads) (os : list Obs) :
  Forall onlyThread0 ms ->
  exec (mkThreads (NewSseClient b a t f1 true) [AtLoopTop]) ms = Some (s', os) ->
  exists p, threads s' = [p] /\ GetStatus (shared s') = expectedStatus p os.
Proof.
  intros Hms Hexec.
  assert (Hgen : forall ms (c : SseClient) (p : Point) (pre : list Obs) s' os,
            onStatusChange c = true -> loopPoint p = true ->
            status c = expectedStatus p pre ->
            Forall onlyThread0 ms ->
            exec (mkThreads c [p]) ms = Some (s', os) ->
            exists p', threads s' = [p']
                       /\ status (shared s') = expectedStatus p' (pre ++ os)).
  { clear. intros ms. induction ms as [|m ms IH]; intros c p pre s' os Hcb Hlp Hst Hms Hexec.
    - cbn in Hexec. injection Hexec as <- <-. exists p. by rewrite app_nil_r.
    - apply Forall_cons in Hms as [Hm Hms]. cbn [exec] in Hexec.
      destruct m as [| |[|i] a]; [done..| |done]. cbn [move threads shared] in Hexec.
      cbn [lookup list_lookup] in Hexec.
      destruct (point_step c p a) as [[[c1 p1] o1]|] eqn:Hstep; [|done].
      destruct (single_writer_step _ _ _ _ _ _ pre Hcb Hlp Hst Hstep)
        as (Hcb1 & Hlp1 & Hst1).
      assert (Hsp : spawned p = []) by (by destruct p).
      rewrite Hsp in Hexec. cbn [insert list_insert app] in Hexec.
      destruct (exec _ ms) as [[s2 o2]|] eqn:Hrest; [|done].
      injection Hexec as <- <-.
      destruct (IH c1 p1 (pre ++ o1) s2 o2 Hcb1 Hlp1 Hst1 Hms Hrest) as (p' & Hp' & Hs').
      exists p'. split; [done|]. by rewrite app_assoc. }
  destruct (Hgen ms (NewSseClient b a t f1 true) AtLoopTop [] s' os
              eq_refl eq_refl eq_refl Hms Hexec) as (p' & Hp' & Hs').
  by exists p'.
Qed.

End Fine.

(** Two writers: the goroutine writes Error and [Close] writes
    Disconnected after it, but [Close] reports first.  Every thread
    has returned, the status is Disconnected, and the status reported
    last is Error. *)
Lemma reports_can_cross :
  let c := set_status (NewSseClient "http://localhost" "test-key" ∅ true true)
             StatusConnecting in
  exists s os,
    exec (H := Json.reference) (mkThreads c [AtDo]) reportsCross = Some (s, os)
    /\ threads s = [AtEnd; AtEnd]
    /\ GetStatus (shared s) = StatusDisconnected
    /\ statuses os = [StatusDisconnected; StatusError].
Proof.
  intros c. eexists _, _. split; [vm_compute; reflexivity|]. by repeat split.
Qed.

(** C5.  [Close] does not stop a goroutine that has already passed the
    closed test of [connectLoop].  In the schedule [closeOvertakes] a
    caller runs [Close] from beginning to end while the goroutine is
    between that test and [connect]; afterwards the goroutine reports
    Connecting and calls [Do].  When every thread has returned the
    client is closed, its status is Connecting, and both the report
    and the request came after the Disconnected that [Close]
    reported. *)
Theorem Close_overtaken :
  let c := NewSseClient "http://localhost" "test-key" ∅ true true in
  exists s os,
    exec (H := Json.reference) (mkThreads c []) closeOvertakes = Some (s, os)
    /\ threads s = [AtEnd; AtEnd; AtEnd]
    /\ closed (shared s) = true
    /\ ctxDone (shared s) = true
    /\ GetStatus (shared s) = StatusConnecting
    /\ statuses os = [StatusDisconnected; StatusConnecting]
    /\ requests os = ["http://localhost/api/v1/flags/events"]
    /\ exists h, os = [OSpawn; OStatus StatusDisconnected; OStatus StatusConnecting;
                       ORequest "http://localhost/api/v1/flags/events" h].
Proof.
  intros c. eexists _, _. split; [vm_compute; reflexivity|].
  do 6 (split; [reflexivity|]). by eexists.
Qed.

Lemma task_step_is_execution_witness :
  exists ans,
    alone (H := Json.reference)
      (NewSseClient "http://localhost" "test-key" ∅ true true)
      AtLoopTop ans
    = Some (set_status (NewSseClient "http://localhost" "test-key" ∅ true true)
              StatusError,
            AtWait 1000000000,
            [OStatus StatusConnecting; OLog (LogConnectionError "bad url");
             OStatus StatusError; OLog (LogScheduling 1000000000)]).
Proof.
  exact (proj1 (task_step_is_execution (H := Json.reference)
           (NewSseClient "http://localhost" "test-key" ∅ true true))
           PcLoopTop (ENewRequestErr "bad url") _ (PcWait 1000000000) _ eq_refl).
Defined.

Lemma closed_bounds_attempts_witness :
  let s := mkThreads (cancel (set_closed
                        (NewSseClient "http://localhost" "test-key" ∅ true true) true))
             [AtStatusWrite StatusConnecting KConnect; AtWait 1000000000] in
  let ms := [MStep 0 None; MStep 1 (Some ECtxDone); MStep 0 None;
             MStep 0 (Some (ERequest [])); MStep 1 None] in
  exists s' os,
    exec (H := Json.reference) s ms = Some (s', os)
    /\ (length (requests os) + committedThreads s' <= 1)%nat.
Proof.
  intros s ms. eexists _, _. split; [vm_compute; reflexivity|].
  exact (proj2 (proj2 (closed_bounds_attempts (H := Json.reference) ms s _ _
                         eq_refl eq_refl))).
Defined.

Lemma closed_client_winds_down_witness :
  let s := mkThreads (cancel (set_closed
                        (NewSseClient "http://localhost" "test-key" ∅ true true) true))
             [AtRead "" ""; AtWait 1000000000] in
  let ms := [MStep 1 (Some ETimer); MStep 0 (Some EReadErr); MStep 1 None;
             MStep 0 None; MStep 0 None; MStep 1 None] in
  exists s' os,
    exec (H := Json.reference) s ms = Some (s', os)
    /\ (length ms + totalStepsLeft s' <= 6)%nat.
Proof.
  intros s ms. eexists _, _. split; [vm_compute; reflexivity|].
  refine (proj1 (closed_client_winds_down (H := Json.reference) ms s _ _
                   eq_refl eq_refl _ eq_refl)).
  repeat constructor.
Defined.

Lemma GetStatus_single_goroutine_witness :
  let ms := [MStep 0 None; MStep 0 None; MStep 0 None;
             MStep 0 (Some (ERequest [])); MStep 0 (Some (EResponse 200));
             MStep 0 None; MStep 0 None] in
  exists s' os p,
    exec (H := Json.reference)
      (mkThreads (NewSseClient "http://localhost" "test-key" ∅ true true) [AtLoopTop])
      ms = Some (s', os)
    /\ threads s' = [p]
    /\ GetStatus (shared s') = expectedStatus p os.
Proof.
  intros ms. eexists _, _.
  destruct (GetStatus_single_goroutine (H := Json.reference)
              "http://localhost" "test-key" ∅ true ms _ _
              ltac:(repeat constructor) eq_refl) as (p & Hp & Hs).
  exists p. split; [reflexivity|]. split; [exact Hp|exact Hs].
Defined.

End SseFineFacts.
